(** * The type registry and dependency resolver of protoc-gen-grpc-gateway-ts

    A shallow embedding of [registry/registry.go] (and of its earlier
    revision, referred to below as "the first revision"), together with
    the parts of Go's [strings], [path] and [path/filepath] packages the
    resolver calls.

    Go strings are byte sequences; they are modelled by [string], whose
    characters are bytes.  Go's [int] results are modelled by [Z]. *)

From Stdlib Require Import ZArith Ascii String Permutation Lia.
From stdpp Require Import gmap strings list.

Local Open Scope Z_scope.

(** ** Results of Go code

    A Go function of this package either returns normally, returns a
    non-nil [error], or stops in a run-time panic (an index or a slice
    bound out of range).  The three are kept apart. *)

Inductive error : Type :=
  | New (msg : string)
  | Wrap (cause : error) (msg : string).

(** [err.Error()]: a wrapped error prints its own message, a colon and the
    message of its cause. *)
Fixpoint Error (e : error) : string :=
  match e with
  | New msg => msg
  | Wrap cause msg => msg +:+ ": " +:+ Error cause
  end.

Inductive panic : Type :=
  | IndexOutOfRange
  | SliceBoundsOutOfRange.

Inductive outcome (A : Type) : Type :=
  | Ok (a : A)
  | Fail (e : error)
  | Panic (p : panic).

Arguments Ok {A} a.
Arguments Fail {A} e.
Arguments Panic {A} p.

(** Sequencing: an error or a panic of the first computation ends the
    whole one.  The instances give stdpp's [x ← m; k] notation. *)
#[global] Instance outcome_bind : MBind outcome := fun A B k m =>
  match m with
  | Ok a => k a
  | Fail e => Fail e
  | Panic p => Panic p
  end.

#[global] Instance outcome_ret : MRet outcome := fun A a => Ok a.

(** [errors.Wrapf(err, msg)] applied to the error of a failed call. *)
Definition wrapf {A : Type} (m : outcome A) (msg : string) : outcome A :=
  match m with
  | Fail e => Fail (Wrap e msg)
  | other => other
  end.

Definition succeeded {A : Type} (m : outcome A) : bool :=
  match m with
  | Ok _ => true
  | _ => false
  end.

(** ** Package [strings] *)

Module strings.

Fixpoint HasPrefix (s prefix : string) : bool :=
  match prefix, s with
  | EmptyString, _ => true
  | String _ _, EmptyString => false
  | String a prefix', String b s' => Ascii.eqb a b && HasPrefix s' prefix'
  end.

(** [strings.Index]: the index of the first instance of [substr] in [s],
    or [-1]. *)
Fixpoint Index (s substr : string) : Z :=
  if HasPrefix s substr then 0
  else match s with
       | EmptyString => -1
       | String _ s' => let i := Index s' substr in
                        if i <? 0 then -1 else i + 1
       end.

(** [strings.LastIndex]: the index of the last instance of [substr] in
    [s], or [-1]. *)
Fixpoint LastIndex (s substr : string) : Z :=
  match s with
  | EmptyString => if HasPrefix s substr then 0 else -1
  | String _ s' => let i := LastIndex s' substr in
                   if 0 <=? i then i + 1
                   else if HasPrefix s substr then 0 else -1
  end.

Definition Contains (s substr : string) : bool := 0 <=? Index s substr.

Definition HasSuffix (s suffix : string) : bool :=
  let n := String.length s in
  let k := String.length suffix in
  (k <=? n)%nat && String.eqb (String.substring (n - k) k s) suffix.

Definition len (s : string) : Z := Z.of_nat (String.length s).

(** The slice expression [s[lo:hi]]; out-of-range bounds panic. *)
Definition slice (s : string) (lo hi : Z) : outcome string :=
  if (0 <=? lo) && (lo <=? hi) && (hi <=? len s)
  then Ok (String.substring (Z.to_nat lo) (Z.to_nat (hi - lo)) s)
  else Panic SliceBoundsOutOfRange.

(** [strings.ReplaceAll] for a non-empty [old]: left to right, without
    overlap.  [skip] counts the bytes of a match still to be dropped.
    (For an empty [old] Go inserts [new] around every UTF-8 sequence; the
    resolver's [old] is the import root, an absolute path, and the
    byte-wise reading below is only exact for one-byte characters.) *)
Fixpoint replaceFrom (skip : nat) (s old new : string) : string :=
  match s with
  | EmptyString => match skip, old with
                   | O, EmptyString => new
                   | _, _ => EmptyString
                   end
  | String c s' =>
      match skip with
      | S k => replaceFrom k s' old new
      | O => if HasPrefix s old
             then match old with
                  | EmptyString => new +:+ String c (replaceFrom 0 s' old new)
                  | String _ old' => new +:+ replaceFrom (String.length old') s' old new
                  end
             else String c (replaceFrom 0 s' old new)
      end
  end.

Definition ReplaceAll (s old new : string) : string := replaceFrom 0 s old new.

(** [strings.Join(elems, sep)] *)
Fixpoint Join (elems : list string) (sep : string) : string :=
  match elems with
  | [] => ""
  | e :: es => match es with
               | [] => e
               | _ :: _ => e +:+ sep +:+ Join es sep
               end
  end.

End strings.

(** ** Packages [path] and [path/filepath], Unix build

    The generator runs as a protoc plug-in; [filepath] is modelled for
    the platforms whose separator is the slash, where [path] and
    [filepath] agree.  A path is read element by element, an element
    being what [strings.Split(path, "/")] yields. *)

Module filepath.

Definition Separator : ascii := "/"%char.

Definition ToSlash (path : string) : string :=
  if Ascii.eqb Separator "/" then path
  else strings.ReplaceAll path (String Separator "") "/".

Definition FromSlash (path : string) : string :=
  if Ascii.eqb Separator "/" then path
  else strings.ReplaceAll path "/" (String Separator "").

(** The same two conversions on a build whose separator is [sep]:
    nothing changes where it is the slash, and every separator becomes
    a slash, or every slash a separator, where it is not. *)
Definition ToSlashOn (sep : ascii) (path : string) : string :=
  if Ascii.eqb sep "/" then path
  else strings.ReplaceAll path (String sep "") "/".

Definition FromSlashOn (sep : ascii) (path : string) : string :=
  if Ascii.eqb sep "/" then path
  else strings.ReplaceAll path "/" (String sep "").

(** [strings.Split(s, "/")]: never empty. *)
Fixpoint splitSep (s : string) : list string :=
  match s with
  | EmptyString => [""]
  | String c s' =>
      if Ascii.eqb c Separator then "" :: splitSep s'
      else match splitSep s' with
           | e :: es => String c e :: es
           | [] => [String c ""]
           end
  end.

(** [strings.Join(elems, "/")]. *)
Fixpoint joinSep (elems : list string) : string :=
  match elems with
  | [] => ""
  | e :: es => match es with
               | [] => e
               | _ :: _ => e +:+ String Separator (joinSep es)
               end
  end.

(** One element of [Clean]'s loop.  [out] is the output buffer as the
    stack of the elements written so far, the last one first: an empty
    element and [.] write nothing; [..] removes the last element when
    there is one to back up over ([out.w > dotdot]), is dropped at the
    root, and is written otherwise. *)
Definition cleanStep (rooted : bool) (out : list string) (elem : string) : list string :=
  if String.eqb elem "" then out
  else if String.eqb elem "." then out
  else if String.eqb elem ".." then
    match out with
    | [] => if rooted then [] else [".."]
    | last :: out' =>
        if negb rooted && String.eqb last ".." then ".." :: out else out'
    end
  else elem :: out.

Definition cleanElems (rooted : bool) (elems : list string) : list string :=
  rev (fold_left (cleanStep rooted) elems []).

(** The buffer written out: a rooted path keeps its leading separator,
    an empty relative result is [.]. *)
Definition render (rooted : bool) (elems : list string) : string :=
  if rooted then String Separator (joinSep elems)
  else match elems with
       | [] => "."
       | _ :: _ => joinSep elems
       end.

Definition Clean (path : string) : string :=
  if String.eqb path "" then "."
  else let rooted := strings.HasPrefix path (String Separator "") in
       render rooted (cleanElems rooted (splitSep path)).

Definition IsAbs (path : string) : bool :=
  strings.HasPrefix path (String Separator "").

(** [Dir]: everything up to and including the last separator, cleaned. *)
Definition Dir (path : string) : string :=
  let i := strings.LastIndex path (String Separator "") in
  Clean (String.substring 0 (Z.to_nat (i + 1)) path).

(** [Join]: the elements from the first non-empty one on, joined by the
    separator and cleaned; the empty string when there is none. *)
Fixpoint Join (elem : list string) : string :=
  match elem with
  | [] => ""
  | e :: rest => if String.eqb e "" then Join rest else Clean (joinSep elem)
  end.

Definition isEmptyElems (elems : list string) : bool :=
  match elems with
  | [] => true
  | e :: es => match es with
               | [] => String.eqb e ""
               | _ :: _ => false
               end
  end.

(** [Rel]'s loop: [bs] and [ts] are the elements of [base[b0:]] and of
    [targ[t0:]]; it runs while both strings are non-empty and stops at
    the first elements that differ.  The result is [base[b0:bi]] with
    what is left of both. *)
Fixpoint relLoop (bs ts : list string) : string * list string * list string :=
  match bs, ts with
  | eb :: bs', et :: ts' =>
      if isEmptyElems bs || isEmptyElems ts then ("", bs, ts)
      else if String.eqb et eb then relLoop bs' ts'
      else (eb, bs, ts)
  | _, _ => ("", bs, ts)
  end.

Definition relError (basepath targpath : string) : error :=
  New ("Rel: can't make " +:+ targpath +:+ " relative to " +:+ basepath).

(** [Rel]: both paths are cleaned; equal paths give [.]; a rooted and
    an unrooted path, or a base that turns to [..] where the paths
    part, give an error; otherwise the result goes up once for every
    base element left and down the target elements left. *)
Definition Rel (basepath targpath : string) : outcome string :=
  let base := Clean basepath in
  let targ := Clean targpath in
  if String.eqb targ base then Ok "."
  else
    let base := if String.eqb base "." then "" else base in
    let baseSlashed := strings.HasPrefix base (String Separator "") in
    let targSlashed := strings.HasPrefix targ (String Separator "") in
    if negb (Bool.eqb baseSlashed targSlashed) then Fail (relError basepath targpath)
    else
      let '(elem, bs, ts) := relLoop (splitSep base) (splitSep targ) in
      if String.eqb elem ".." then Fail (relError basepath targpath)
      else if negb (isEmptyElems bs) then
        (* base elements left: one [..] for each, then the rest of targ *)
        Ok (joinSep (repeat ".." (length bs) ++ (if isEmptyElems ts then [] else ts)))
      else Ok (joinSep ts).

End filepath.

Module path.

(** [path.Join] and [path.IsAbs]: on slash-separated paths, the same
    functions. *)
Definition Join : list string -> string := filepath.Join.
Definition IsAbs : string -> bool := filepath.IsAbs.

End path.

(** ** The data model *)

(** [MapEntryType]: key or value of a map entry (declared in the first
    revision; in package [data] afterwards). *)
Record MapEntryType : Type := {
  Type' : string;
  IsExternal : bool
}.

(** [data.TypeInfo], with the fields [GetType] fills in. *)
Module data.

Record TypeInfo : Type := {
  Type' : string;
  IsRepeated : bool;
  IsExternal : bool
}.

End data.

Record TypeInformation : Type := {
  FullyQualifiedName : string;
  Package : string;
  File : string;
  PackageIdentifier : string;
  LocalIdentifier : string;
  ProtoType : Z;      (* descriptorpb.FieldDescriptorProto_Type, an int32 *)
  IsMapEntry : bool;
  KeyType : option MapEntryType;
  ValueType : option MapEntryType
}.

Record Registry : Type := {
  Types : gmap string TypeInformation;
  FilesToGenerate : gmap string bool;
  TSImportRoot : string;
  TSImportRootAlias : string
}.

(** [data.Dependency] and [data.File] (here [FileData], [File] being
    a field of [TypeInformation]): package [data] is not part of the
    sources at hand; the records have the fields the resolver reads and
    writes. *)
Record Dependency : Type := {
  ModuleIdentifier : string;
  SourceFile : string
}.

Record FileData : Type := {
  TSFileName : string;
  ExternalDependingTypes : list string;
  Dependencies : list Dependency
}.

(** [fileData.Dependencies = append(fileData.Dependencies, ...)] *)
Definition appendDependencies (fileData : FileData) (ds : list Dependency) : FileData :=
  {| TSFileName := TSFileName fileData;
     ExternalDependingTypes := ExternalDependingTypes fileData;
     Dependencies := Dependencies fileData ++ ds |}.

(** ** Package [registry] *)

Definition IsFileToGenerate (r : Registry) (name : string) : bool :=
  match FilesToGenerate r !! name with
  | Some result => result
  | None => false
  end.

Definition isExternalDependenciesOutsidePackage (fqTypeName packageName : string) : bool :=
  negb (strings.Index fqTypeName ("." +:+ packageName) =? 0)
  && (strings.Index fqTypeName "." =? 0).

(** The [".ts"] suffix is cut at its last occurrence:
    [sourceFile[0:strings.LastIndex(sourceFile, ".ts")]]. *)
Definition removeTsSuffix (sourceFile : string) : outcome string :=
  let suffixIndex := strings.LastIndex sourceFile ".ts" in
  strings.slice sourceFile 0 suffixIndex.

(** The two errors of this package the properties below name. *)
Definition missingTypeError (typeName : string) : error :=
  New ("cannot find type info for " +:+ typeName +:+ ", $v").

Definition analysisError (cause : error) : error :=
  Wrap cause "error collecting external dependency information after analysis finished".

(** The identifier a dependency is grouped under. *)
Definition identifierOf (typeInfo : TypeInformation) : string :=
  Package typeInfo +:+ "|" +:+ File typeInfo.

Section Resolver.

(** What the resolver takes from outside this file: the two naming
    functions of package [data], the file system as [filepath.Glob] and
    [os.Getwd] see it, and the order in which [range] visits the
    entries of the [dependencies] map (Go leaves it unspecified). *)
Variable GetTSFileName : string -> string.
Variable GetModuleName : string -> string -> string.
Variable Glob : string -> outcome (list string).
Variable Getwd : outcome string.
Variable rangeOrder : list (string * Dependency) -> list (string * Dependency).

(** [filepath.Abs] *)
Definition Abs (path : string) : outcome string :=
  if filepath.IsAbs path then Ok (filepath.Clean path)
  else wd ← Getwd; Ok (filepath.Join [wd; path]).

(** Target outside this run: the file is looked up under the import
    root and its path is rewritten with the alias or made relative. *)
Definition externalSourceFile (r : Registry) (base : string) (typeInfo : TypeInformation)
  : outcome string :=
  matches ← wrapf (Glob (path.Join [TSImportRoot r; "**"; File typeInfo]))
                  ("error looking up real path for proto file " +:+ File typeInfo);
  match matches with
  | [] => Panic IndexOutOfRange          (* matches[0] *)
  | match0 :: _ =>
      let absoluteTsFileName := GetTSFileName match0 in
      if negb (String.eqb (TSImportRootAlias r) "") then
        Ok (strings.ReplaceAll absoluteTsFileName (TSImportRoot r) (TSImportRootAlias r))
      else
        absBase ← wrapf (Abs base)
                        ("error looking up absolute directory with base dir: " +:+ base);
        wrapf (filepath.Rel (filepath.Dir absBase) absoluteTsFileName)
              ("error looking up relative path for source file " +:+ absoluteTsFileName)
  end.

(** Target generated in this run: relative to the directory of the
    current file, with an explicit [./] unless it starts with [../]. *)
Definition inRunSourceFile (base target : string) : outcome string :=
  sourceFile ← wrapf (filepath.Rel (filepath.Dir base) target)
                     ("error getting relative path between for " +:+ base +:+ ", " +:+ target);
  let slashSourceFile := filepath.ToSlash sourceFile in
  let slashSourceFile :=
    if negb (strings.Index slashSourceFile "../" =? 0)
    then "./" +:+ slashSourceFile
    else slashSourceFile in
  Ok (filepath.FromSlash slashSourceFile).

(** The path computed for a dependency, before its suffix is removed. *)
Definition importPath (r : Registry) (fileData : FileData) (typeInfo : TypeInformation)
  : outcome string :=
  let base := TSFileName fileData in
  let target := GetTSFileName (File typeInfo) in
  if negb (IsFileToGenerate r (File typeInfo))
  then externalSourceFile r base typeInfo
  else inRunSourceFile base target.

Definition sourceFileOf (r : Registry) (fileData : FileData) (typeInfo : TypeInformation)
  : outcome string :=
  sourceFile ← importPath r fileData typeInfo;
  removeTsSuffix sourceFile.

(** The first revision: the target relative to the current file name,
    as [filepath.Rel] returns it. *)
Definition relPathOf (r : Registry) (fileData : FileData) (typeInfo : TypeInformation)
  : outcome string :=
  let base := TSFileName fileData in
  let target := GetTSFileName (File typeInfo) in
  wrapf (filepath.Rel base target)
        ("error getting relative path between for " +:+ base +:+ ", " +:+ target).

Section Loops.

(** Both revisions run the same loops around their path computation. *)
Variable sourceFileFor : Registry -> FileData -> TypeInformation -> outcome string.

(** The loop over [fileData.ExternalDependingTypes]; [dependencies] is
    the map built so far. *)
Fixpoint collectTypes (r : Registry) (fileData : FileData) (typeNames : list string)
    (dependencies : gmap string Dependency) : outcome (gmap string Dependency) :=
  match typeNames with
  | [] => Ok dependencies
  | typeName :: rest =>
      match Types r !! typeName with
      | None => Fail (missingTypeError typeName)
      | Some typeInfo =>
          let identifier := identifierOf typeInfo in
          match dependencies !! identifier with
          | Some _ => collectTypes r fileData rest dependencies
          | None =>
              sourceFile ← sourceFileFor r fileData typeInfo;
              collectTypes r fileData rest
                (<[identifier :=
                     {| ModuleIdentifier := GetModuleName (Package typeInfo) (File typeInfo);
                        SourceFile := sourceFile |}]> dependencies)
          end
      end
  end.

(** One iteration of the loop over [filesData]. *)
Definition collectFile (r : Registry) (fileData : FileData) : outcome FileData :=
  dependencies ← collectTypes r fileData (ExternalDependingTypes fileData) ∅;
  Ok (appendDependencies fileData (rangeOrder (map_to_list dependencies)).*2).

(** The loop over [filesData], whose entries come in the order [range]
    visits them ([Analyse] makes one record per key, so no two entries
    share a record).  The files are updated in place: the result is
    the store after the call, [r] and the files, with what the call
    returned; a file is only changed once its own dependencies are all
    computed. *)
Fixpoint collectFiles (r : Registry) (filesData : list (string * FileData))
  : (Registry * list (string * FileData)) * outcome () :=
  match filesData with
  | [] => ((r, []), Ok ())
  | (name, fileData) :: rest =>
      match collectFile r fileData with
      | Ok fileData' =>
          let '((r', rest'), result) := collectFiles r rest in
          ((r', (name, fileData') :: rest'), result)
      | Fail e => ((r, filesData), Fail e)
      | Panic p => ((r, filesData), Panic p)
      end
  end.

(** The run gets as far as the name that follows [before] in
    [fileData]: the files visited before are processed without failure,
    and so are the names in [before]. *)
Definition reachesName (r : Registry) (pre : list (string * FileData)) (fileData : FileData)
    (before : list string) : Prop :=
  Forall (fun entry : string * FileData => succeeded (collectFile r entry.2) = true) pre /\
  succeeded (collectTypes r fileData before ∅) = true.

End Loops.

Definition collectExternalDependenciesFromData :=
  collectFiles sourceFileOf.

(** [Analyse] from the point where every file has been analysed ([r]
    and [data] are the registry and the map as that loop leaves them;
    the per-file analysis is not part of the sources at hand): on an
    error the caller gets no data at all. *)
Definition Analyse (r : Registry) (data : list (string * FileData))
  : outcome (list (string * FileData)) :=
  match collectExternalDependenciesFromData r data with
  | (_, Fail e) => Fail (analysisError e)
  | (_, Panic p) => Panic p
  | ((_, data'), Ok _) => Ok data'
  end.

End Resolver.

(** *** The in-run branch on any build

    [path/filepath] is another package on every build.  The branch for
    a target generated in the run is taken here over the separator of
    the build and over its [filepath.Rel] and [filepath.Dir]; with those
    of the build modelled above it is [inRunSourceFile]. *)
Section AnyBuild.

Variable Separator : ascii.
Variable Rel : string -> string -> outcome string.
Variable Dir : string -> string.

Definition inRunSourceFileOn (base target : string) : outcome string :=
  sourceFile ← wrapf (Rel (Dir base) target)
                     ("error getting relative path between for " +:+ base +:+ ", " +:+ target);
  let slashSourceFile := filepath.ToSlashOn Separator sourceFile in
  let slashSourceFile :=
    if negb (strings.Index slashSourceFile "../" =? 0)
    then "./" +:+ slashSourceFile
    else slashSourceFile in
  Ok (filepath.FromSlashOn Separator slashSourceFile).

End AnyBuild.

(** *** Names of nested types

    Both are methods of the registry that do not read it. *)

(** This simply just concats the parents name and the entity name. *)
Definition getNameOfPackageLevelIdentifier (parents : list string) (name : string) : string :=
  strings.Join parents "" +:+ name.

Definition getParentPrefixes (parents : list string) : string :=
  let parentsPrefix := "" in
  if (0 <? length parents)%nat
  then strings.Join parents "." +:+ "."
  else parentsPrefix.

(** *** A new registry *)

Definition TSImportRootParamsKey : string := "ts_import_root".
Definition TSImportRootAliasParamsKey : string := "ts_import_root_alias".

Section Construction.

Variable Getwd : outcome string.

Definition getTSImportRootInformation (paramsMap : gmap string string)
  : outcome (string * string) :=
  let tsImportRoot :=
    match paramsMap !! TSImportRootParamsKey with
    | Some given => given
    | None => "."
    end in
  tsImportRoot ←
    (if negb (path.IsAbs tsImportRoot)
     then wrapf (Abs Getwd tsImportRoot)
                ("error turning path " +:+ tsImportRoot +:+ " into absolute path")
     else Ok tsImportRoot);
  let tsImportRootAlias :=
    match paramsMap !! TSImportRootAliasParamsKey with
    | Some given => given
    | None => ""
    end in
  Ok (tsImportRoot, tsImportRootAlias).

(** [FilesToGenerate] is left nil, which reads as the empty map. *)
Definition NewRegistry (paramsMap : gmap string string) : outcome Registry :=
  info ← wrapf (getTSImportRootInformation paramsMap)
               "error getting common import root information";
  Ok {| Types := ∅;
        FilesToGenerate := ∅;
        TSImportRoot := info.1;
        TSImportRootAlias := info.2 |}.

End Construction.

(** *** [Analyse], from the request

    [plugin.CodeGeneratorRequest] with the two fields [Analyse] reads;
    the file descriptors are only passed on. *)
Record CodeGeneratorRequest (FileDescriptorProto : Type) : Type := {
  FileToGenerate : list string;
  ProtoFile : list FileDescriptorProto
}.

Arguments FileToGenerate {FileDescriptorProto} _.
Arguments ProtoFile {FileDescriptorProto} _.

Section Analysis.

(** The analysis of one file is not part of the sources at hand:
    [analyseFile] may enter types into the registry and returns the
    record of the file, a fresh one for every call.  [rangeFiles] is the
    order in which [range] visits the map of these records. *)
Context {FileDescriptorProto : Type}.
Variable GetName : FileDescriptorProto -> string.
Variable analyseFile : Registry -> FileDescriptorProto -> Registry * FileData.
Variable rangeFiles : list (string * FileData) -> list (string * FileData).
Variable GetTSFileName : string -> string.
Variable GetModuleName : string -> string -> string.
Variable Glob : string -> outcome (list string).
Variable Getwd : outcome string.
Variable rangeOrder : list (string * Dependency) -> list (string * Dependency).

(** [r.FilesToGenerate = make(map[string]bool)] and the loop that
    enters the names of the request. *)
Definition markFilesToGenerate (r : Registry) (names : list string) : Registry :=
  {| Types := Types r;
     FilesToGenerate := foldl (fun files f => <[f := true]> files) ∅ names;
     TSImportRoot := TSImportRoot r;
     TSImportRootAlias := TSImportRootAlias r |}.

(** The loop over the files of the request: [data[f.GetName()] = fileData]. *)
Fixpoint analyseFiles (r : Registry) (files : list FileDescriptorProto)
    (data : gmap string FileData) : Registry * gmap string FileData :=
  match files with
  | [] => (r, data)
  | f :: rest =>
      let '(r', fileData) := analyseFile r f in
      analyseFiles r' rest (<[GetName f := fileData]> data)
  end.

(** The whole of [Analyse]: the registry as the call leaves it, and
    what the call returns. *)
Definition AnalyseRequest (r : Registry) (req : CodeGeneratorRequest FileDescriptorProto)
  : Registry * outcome (gmap string FileData) :=
  let r := markFilesToGenerate r (FileToGenerate req) in
  let '(r, data) := analyseFiles r (ProtoFile req) ∅ in
  (r,
   data' ← Analyse GetTSFileName GetModuleName Glob Getwd rangeOrder r
             (rangeFiles (map_to_list data));
   Ok (list_to_map data')).

End Analysis.

(** The first revision. *)
Module Rev1.

(** No import root yet: the other fields of the registry are not there
    and stay empty. *)
Definition NewRegistry : Registry :=
  {| Types := ∅; FilesToGenerate := ∅; TSImportRoot := ""; TSImportRootAlias := "" |}.

(** [GetType] returns the type information for the type entry. *)
Definition GetType (m : MapEntryType) : data.TypeInfo :=
  {| data.Type' := Type' m;
     data.IsRepeated := false;
     data.IsExternal := IsExternal m |}.

Definition isExternalDependencies (fqTypeName packageName : string) : bool :=
  negb (strings.Index fqTypeName ("." +:+ packageName) =? 0)
  && (strings.Index fqTypeName "." =? 0).

Definition collectExternalDependenciesFromData
    (GetTSFileName : string -> string) (GetModuleName : string -> string -> string)
    (rangeOrder : list (string * Dependency) -> list (string * Dependency)) :=
  collectFiles GetModuleName rangeOrder (relPathOf GetTSFileName).

End Rev1.

(** ** Sample collaborators

    Closed examples need the outside world filled in.  The two naming
    functions below stand in for package [data]: an output name that
    replaces a [.proto] extension by [.pb.ts], a module name that
    pairs package and file.  [noGlob] is a file system without matches;
    [rangeInOrder] visits a map in the order [map_to_list] lists it. *)

Definition sampleTSFileName (fileName : string) : string :=
  match strings.slice fileName 0 (strings.LastIndex fileName ".proto") with
  | Ok stem => stem +:+ ".pb.ts"
  | _ => fileName +:+ ".pb.ts"
  end.

Definition sampleModuleName (packageName fileName : string) : string :=
  packageName +:+ ":" +:+ fileName.

Definition noGlob (pattern : string) : outcome (list string) := Ok [].

(** [filepath.ErrBadPattern], the one error [Glob] returns. *)
Definition badPattern (pattern : string) : outcome (list string) :=
  Fail (New "syntax error in pattern").

Definition oneMatch (found : string) (pattern : string) : outcome (list string) :=
  Ok [found].

Definition sampleGetwd : outcome string := Ok "/work".

Definition rangeInOrder (entries : list (string * Dependency)) : list (string * Dependency) :=
  entries.

Definition typeInfoIn (packageName fileName : string) : TypeInformation :=
  {| FullyQualifiedName := ""; Package := packageName; File := fileName;
     PackageIdentifier := ""; LocalIdentifier := ""; ProtoType := 11;
     IsMapEntry := false; KeyType := None; ValueType := None |}.

(** ** Vocabulary of the properties *)

Definition explicitlyRelative (p : string) : bool :=
  strings.HasPrefix p "./" || strings.HasPrefix p "../".

Definition withDotSlash (rel : string) : string :=
  if strings.HasPrefix rel "../" then rel else "./" +:+ rel.

Definition pairOf (typeInfo : TypeInformation) : string * string :=
  (Package typeInfo, File typeInfo).

Definition entriesOf (r : Registry) (typeNames : list string) : list TypeInformation :=
  omap (fun typeName => Types r !! typeName) typeNames.

Definition distinctPairs (r : Registry) (typeNames : list string) : nat :=
  length (remove_dups (pairOf <$> entriesOf r typeNames)).

Definition barFree (r : Registry) : Prop :=
  map_Forall (fun _ typeInfo => strings.Contains (Package typeInfo) "|" = false) (Types r).

(** What one file may and may not lose or gain in a run. *)
Definition onlyAppended (before after : string * FileData) : Prop :=
  after.1 = before.1 /\
  TSFileName after.2 = TSFileName before.2 /\
  ExternalDependingTypes after.2 = ExternalDependingTypes before.2 /\
  exists added, Dependencies after.2 = Dependencies before.2 ++ added.

Definition appendedCount (r : Registry) (before after : string * FileData) : Prop :=
  exists added,
    Dependencies after.2 = Dependencies before.2 ++ added /\
    length added = distinctPairs r (ExternalDependingTypes before.2).

Definition namesFound (r : Registry) (entry : string * FileData) : Prop :=
  Forall (fun typeName => is_Some (Types r !! typeName)) (ExternalDependingTypes entry.2).

Definition nameMissing (r : Registry) (entry : string * FileData) : Prop :=
  Exists (fun typeName => Types r !! typeName = None) (ExternalDependingTypes entry.2).

(** An element without a separator in it. *)
Definition noSep (e : string) : Prop := filepath.splitSep e = [e].

(** The invariant of [Clean]'s output buffer, read as a stack: no
    element is empty or [.], and a [..] only ever sits on other [..]s,
    and never in a rooted path. *)
Fixpoint normalStack (rooted : bool) (out : list string) : Prop :=
  match out with
  | [] => True
  | e :: out' =>
      e <> "" /\ e <> "." /\
      (e = ".." -> rooted = false /\ Forall (fun e' => e' = "..") out') /\
      normalStack rooted out'
  end.

(** A cleaned path, element by element. *)
Definition normal (rooted : bool) (elems : list string) : Prop :=
  normalStack rooted (rev elems) /\ Forall noSep elems.

(** No letter [t] in the string. *)
Fixpoint noT (s : string) : bool :=
  match s with
  | EmptyString => true
  | String c s' => negb (Ascii.eqb c "t") && noT s'
  end.

(** *** Parameters of a new registry *)

(** The two parameters as [getTSImportRootInformation] reads them, with
    their defaults. *)
Definition rootParam (paramsMap : gmap string string) : string :=
  default "." (paramsMap !! TSImportRootParamsKey).

Definition aliasParam (paramsMap : gmap string string) : string :=
  default "" (paramsMap !! TSImportRootAliasParamsKey).

(** *** Records and the types they are made for *)

(** [d], entered under [identifier], is the record made for one of the
    names of [all]. *)
Definition recordOf (GetModuleName : string -> string -> string)
    (sourceFileFor : Registry -> FileData -> TypeInformation -> outcome string)
    (r : Registry) (fileData : FileData) (all : list string)
    (identifier : string) (d : Dependency) : Prop :=
  exists typeName typeInfo,
    typeName ∈ all /\
    Types r !! typeName = Some typeInfo /\
    identifierOf typeInfo = identifier /\
    ModuleIdentifier d = GetModuleName (Package typeInfo) (File typeInfo) /\
    sourceFileFor r fileData typeInfo = Ok (SourceFile d).

(** [d] is the record made for a type [fileData] refers to. *)
Definition importsType (GetModuleName : string -> string -> string)
    (sourceFileFor : Registry -> FileData -> TypeInformation -> outcome string)
    (r : Registry) (fileData : FileData) (d : Dependency) : Prop :=
  exists typeName typeInfo,
    typeName ∈ ExternalDependingTypes fileData /\
    Types r !! typeName = Some typeInfo /\
    ModuleIdentifier d = GetModuleName (Package typeInfo) (File typeInfo) /\
    sourceFileFor r fileData typeInfo = Ok (SourceFile d).

(** Every record appended to the file is made for a type it refers to. *)
Definition appendedImport (GetModuleName : string -> string -> string)
    (sourceFileFor : Registry -> FileData -> TypeInformation -> outcome string)
    (r : Registry) (before after : string * FileData) : Prop :=
  exists added,
    Dependencies after.2 = Dependencies before.2 ++ added /\
    Forall (importsType GetModuleName sourceFileFor r before.2) added.

(** Every type the file refers to has its record among the appended
    ones. *)
Definition appendedForAll (GetModuleName : string -> string -> string)
    (sourceFileFor : Registry -> FileData -> TypeInformation -> outcome string)
    (r : Registry) (before after : string * FileData) : Prop :=
  exists added,
    Dependencies after.2 = Dependencies before.2 ++ added /\
    forall typeName, typeName ∈ ExternalDependingTypes before.2 ->
      exists typeInfo d,
        Types r !! typeName = Some typeInfo /\
        d ∈ added /\
        ModuleIdentifier d = GetModuleName (Package typeInfo) (File typeInfo) /\
        sourceFileFor r before.2 typeInfo = Ok (SourceFile d).

(** The types of the file are all declared in files of this run. *)
Definition declaredInRun (r : Registry) (entry : string * FileData) : Prop :=
  Forall (fun typeName =>
            forall typeInfo, Types r !! typeName = Some typeInfo ->
                             IsFileToGenerate r (File typeInfo) = true)
         (ExternalDependingTypes entry.2).

(** What a run that succeeds makes of one file. *)
Definition processed (collectOne : FileData -> outcome FileData) (entry : string * FileData)
  : string * FileData :=
  match collectOne entry.2 with
  | Ok fileData' => (entry.1, fileData')
  | _ => entry
  end.

(** *** Elements of paths *)

(** Where two lists of elements part: not both go on with the same
    element. *)
Definition parted (brest trest : list string) : Prop :=
  match brest, trest with
  | eb :: _, et :: _ => eb <> et
  | _, _ => True
  end.

(** The name of a file or directory: one element, none of the special
    ones. *)
Definition isName (e : string) : Prop :=
  noSep e /\ e <> "" /\ e <> "." /\ e <> "..".

(** The same on a build whose separator is [sep]: the separator is not
    part of a name either. *)
Definition isNameOn (sep : ascii) (e : string) : Prop :=
  isName e /\ strings.Contains e (String sep "") = false.

(** ** Sample registries and runs *)

Definition emptyFile (tsFileName : string) (typeNames : list string) : FileData :=
  {| TSFileName := tsFileName; ExternalDependingTypes := typeNames; Dependencies := [] |}.

(** [a.proto] (package [p1], type [Foo]) and [b.proto] (package [p2]),
    both generated in this run. *)
Definition inRunRegistry : Registry :=
  {| Types := {[ ".p1.Foo" := typeInfoIn "p1" "a.proto" ]};
     FilesToGenerate := {[ "a.proto" := true; "b.proto" := true ]};
     TSImportRoot := "/abs/root";
     TSImportRootAlias := "" |}.

(** [app/src/f.proto] is not generated in this run; an alias is
    configured. *)
Definition aliasRegistry : Registry :=
  {| Types := {[ ".p.T" := typeInfoIn "p" "app/src/f.proto" ]};
     FilesToGenerate := {[ "b.proto" := true ]};
     TSImportRoot := "/src";
     TSImportRootAlias := "@gen" |}.

(** A file outside the run whose name, with its unclosed bracket, makes
    a malformed search pattern. *)
Definition bracketRegistry : Registry :=
  {| Types := {[ ".p.T" := typeInfoIn "p" "f[.proto" ]};
     FilesToGenerate := {[ "b.proto" := true ]};
     TSImportRoot := "/src";
     TSImportRootAlias := "" |}.

(** Two entries whose package and file differ but whose identifiers
    are both [a|b|c]. *)
Definition barRegistry : Registry :=
  {| Types := {[ "A" := typeInfoIn "a|b" "c"; "B" := typeInfoIn "a" "b|c" ]};
     FilesToGenerate := {[ "c" := true; "b|c" := true ]};
     TSImportRoot := "/abs/root";
     TSImportRootAlias := "" |}.

(** [x/z/a.proto] and [x/y/b.proto], both generated in this run. *)
Definition nestedRegistry : Registry :=
  {| Types := {[ ".p1.Foo" := typeInfoIn "p1" "x/z/a.proto" ]};
     FilesToGenerate := {[ "x/z/a.proto" := true; "x/y/b.proto" := true ]};
     TSImportRoot := "/abs/root";
     TSImportRootAlias := "" |}.

Definition sampleRun (Glob : string -> outcome (list string)) :=
  collectExternalDependenciesFromData sampleTSFileName sampleModuleName Glob sampleGetwd
    rangeInOrder.

Definition sampleAnalyse (Glob : string -> outcome (list string)) :=
  Analyse sampleTSFileName sampleModuleName Glob sampleGetwd rangeInOrder.

(** [lib/f.proto] is not generated in this run; the import root and
    the alias vary. *)
Definition libRegistry (root alias : string) : Registry :=
  {| Types := {[ ".p.T" := typeInfoIn "p" "lib/f.proto" ]};
     FilesToGenerate := {[ "b.proto" := true ]};
     TSImportRoot := root;
     TSImportRootAlias := alias |}.

(** A stand-in for the per-file analysis: a file is its name, its
    package, the messages it declares and the type names it uses; every
    message is entered into the registry under its qualified name. *)
Record sampleProto : Type := {
  protoName : string;
  protoPackage : string;
  protoMessages : list string;
  protoUses : list string
}.

Definition sampleAnalyseFile (r : Registry) (f : sampleProto) : Registry * FileData :=
  ({| Types := foldl (fun types message =>
                        <["." +:+ protoPackage f +:+ "." +:+ message :=
                            typeInfoIn (protoPackage f) (protoName f)]> types)
                     (Types r) (protoMessages f);
      FilesToGenerate := FilesToGenerate r;
      TSImportRoot := TSImportRoot r;
      TSImportRootAlias := TSImportRootAlias r |},
   emptyFile (sampleTSFileName (protoName f)) (protoUses f)).

Definition rangeFilesInOrder (entries : list (string * FileData)) : list (string * FileData) :=
  entries.

(** The separator of a build on which it is not the slash. *)
Definition backslash : ascii := "092"%char.

(** The registry [NewRegistry] makes in [/work] without parameters. *)
Definition workRegistry : Registry :=
  {| Types := ∅; FilesToGenerate := ∅; TSImportRoot := "/work"; TSImportRootAlias := "" |}.

(** A request for [a.proto], which declares [Foo], and [b.proto], which
    uses it. *)
Definition sampleRequest : CodeGeneratorRequest sampleProto :=
  {| FileToGenerate := ["a.proto"; "b.proto"];
     ProtoFile :=
       [ {| protoName := "a.proto"; protoPackage := "p1";
            protoMessages := ["Foo"]; protoUses := [] |};
         {| protoName := "b.proto"; protoPackage := "p2";
            protoMessages := ["Bar"]; protoUses := [".p1.Foo"] |} ] |}.

Definition sampleAnalyseRequest :=
  AnalyseRequest protoName sampleAnalyseFile rangeFilesInOrder
    sampleTSFileName sampleModuleName noGlob sampleGetwd rangeInOrder.

(** What the sample request is analysed to. *)
Definition sampleAnalysed : gmap string FileData :=
  {[ "a.proto" := emptyFile "a.pb.ts" [];
     "b.proto" :=
       {| TSFileName := "b.pb.ts";
          ExternalDependingTypes := [".p1.Foo"];
          Dependencies := [{| ModuleIdentifier := "p1:a.proto"; SourceFile := "./a.pb" |}] |} ]}.

(** * The models at work *)

Example Clean_examples :
  filepath.Clean <$> [""; "a//b/./c/.."; "/../a"; "../../a/b/../.."; "/"; "a/"; "a/.."; "a/../.."] =
  ["."; "a/b"; "/a"; "../.."; "/"; "a"; "."; ".."].
Proof. reflexivity. Qed.

Example Dir_examples :
  filepath.Dir <$> ["a/b/c.pb.ts"; "c.pb.ts"; "/c.pb.ts"] = ["a/b"; "."; "/"].
Proof. reflexivity. Qed.

Example Rel_examples :
  (fun '(basepath, targpath) => filepath.Rel basepath targpath) <$>
    [("a/b", "a/b/."); ("ab/cd", "ab/cde"); ("a/b", "a/b/c/d"); ("a/b/../c", "a/b");
     ("a/b/c", "a/c/d"); ("a/b/c/d/", "a/b/"); ("../../a/b", "../../a/b/c/d");
     ("/a/b/c", "/a/c/d"); ("/a/b/c/d", "/a/b"); (".", "a/b"); (".", "..")] =
  Ok <$> ["."; "../cde"; "c/d"; "../b"; "../../c/d"; "../.."; "c/d"; "../../c/d"; "../..";
          "a/b"; ".."].
Proof. reflexivity. Qed.

Example Rel_errors :
  filepath.Rel ".." "a" = Fail (filepath.relError ".." "a") /\
  filepath.Rel "a" "/a" = Fail (filepath.relError "a" "/a").
Proof. split; reflexivity. Qed.

Example Join_examples :
  filepath.Join <$> [["a/b"; "../../c/d.pb.ts"]; ["/abs/root"; "**"; "a.proto"]; [""; "a"]; []] =
  ["c/d.pb.ts"; "/abs/root/**/a.proto"; "a"; ""].
Proof. reflexivity. Qed.

Example strings_examples :
  strings.Index ".pkg2.Foo" ".pkg" = 0 /\
  strings.LastIndex "./a.pb.ts" ".ts" = 6 /\
  strings.LastIndex "./a" ".ts" = -1 /\
  strings.slice "./a.pb.ts" 0 6 = Ok "./a.pb" /\
  strings.ReplaceAll "a.b.c" "." "::" = "a::b::c".
Proof. repeat split; reflexivity. Qed.

(** The scenario of two files, [a.proto] with type [Foo] of package
    [p1] and [b.proto] that uses it: one dependency for [b]. *)
Example two_files :
  sampleAnalyse noGlob inRunRegistry [("b.proto", emptyFile "b.pb.ts" [".p1.Foo"])] =
  Ok [("b.proto",
       {| TSFileName := "b.pb.ts";
          ExternalDependingTypes := [".p1.Foo"];
          Dependencies := [{| ModuleIdentifier := "p1:a.proto"; SourceFile := "./a.pb" |}] |})].
Proof. by vm_compute. Qed.

(** The same from the request: the registry is filled in and the
    files come back keyed by their names. *)
Example request_analysed :
  (sampleAnalyseRequest workRegistry sampleRequest).2 = Ok sampleAnalysed /\
  getParentPrefixes ["Outer"; "Inner"] = "Outer.Inner." /\
  getNameOfPackageLevelIdentifier ["Outer"; "Inner"] "Kind" = "OuterInnerKind".
Proof. repeat split; by vm_compute. Qed.

(** * Facts about strings *)

Lemma append_cons (c : ascii) (s t : string) : String c s +:+ t = String c (s +:+ t).
Proof. reflexivity. Qed.

Lemma append_empty_l (t : string) : "" +:+ t = t.
Proof. reflexivity. Qed.

Lemma append_empty_r (s : string) : s +:+ "" = s.
Proof. induction s as [|c s IH]; [reflexivity|]. by rewrite append_cons, IH. Qed.

Lemma append_assoc (s t u : string) : (s +:+ t) +:+ u = s +:+ t +:+ u.
Proof. induction s as [|c s IH]; [reflexivity|]. by rewrite !append_cons, IH. Qed.

Lemma length_append (s t : string) :
  String.length (s +:+ t) = (String.length s + String.length t)%nat.
Proof. induction s as [|c s IH]; [reflexivity|]. rewrite append_cons. simpl. by rewrite IH. Qed.

Lemma len_cons (c : ascii) (s : string) : strings.len (String c s) = strings.len s + 1.
Proof. unfold strings.len. simpl String.length. lia. Qed.

Lemma len_nonneg (s : string) : 0 <= strings.len s.
Proof. unfold strings.len. lia. Qed.

Lemma HasPrefix_empty (s : string) : strings.HasPrefix s "" = true.
Proof. by destruct s. Qed.

Lemma HasPrefix_app (p s : string) : strings.HasPrefix (p +:+ s) p = true.
Proof.
  induction p as [|c p IH]; [apply HasPrefix_empty|].
  rewrite append_cons. simpl. by rewrite Ascii.eqb_refl, IH.
Qed.

Lemma HasPrefix_inv (s p : string) :
  strings.HasPrefix s p = true -> exists t, s = p +:+ t.
Proof.
  revert s. induction p as [|c p IH]; intros s H.
  - by exists s.
  - destruct s as [|b s]; [done|]. simpl in H.
    apply andb_true_iff in H as [Hc Hp]. apply Ascii.eqb_eq in Hc as ->.
    destruct (IH _ Hp) as [t ->]. by exists t.
Qed.

Lemma Index_nil (sub : string) :
  strings.Index "" sub = if strings.HasPrefix "" sub then 0 else -1.
Proof. reflexivity. Qed.

Lemma Index_cons (c : ascii) (s sub : string) :
  strings.Index (String c s) sub =
  if strings.HasPrefix (String c s) sub then 0
  else if strings.Index s sub <? 0 then -1 else strings.Index s sub + 1.
Proof. reflexivity. Qed.

Lemma LastIndex_nil (sub : string) :
  strings.LastIndex "" sub = if strings.HasPrefix "" sub then 0 else -1.
Proof. reflexivity. Qed.

Lemma LastIndex_cons (c : ascii) (s sub : string) :
  strings.LastIndex (String c s) sub =
  if 0 <=? strings.LastIndex s sub then strings.LastIndex s sub + 1
  else if strings.HasPrefix (String c s) sub then 0 else -1.
Proof. reflexivity. Qed.

Lemma Index_lower (s sub : string) : -1 <= strings.Index s sub.
Proof.
  induction s as [|c s IH].
  - rewrite Index_nil. destruct (strings.HasPrefix "" sub); lia.
  - rewrite Index_cons. destruct (strings.HasPrefix (String c s) sub); [lia|].
    destruct (Z.ltb_spec (strings.Index s sub) 0); lia.
Qed.

Lemma Index_zero (s sub : string) :
  strings.Index s sub = 0 <-> strings.HasPrefix s sub = true.
Proof.
  destruct s as [|c s].
  - rewrite Index_nil. destruct (strings.HasPrefix "" sub); split; (done || lia).
  - rewrite Index_cons. destruct (strings.HasPrefix (String c s) sub); [done|].
    pose proof (Index_lower s sub).
    destruct (Z.ltb_spec (strings.Index s sub) 0); split; (done || lia).
Qed.

Lemma LastIndex_range (s sub : string) :
  -1 <= strings.LastIndex s sub <= strings.len s.
Proof.
  induction s as [|c s IH].
  - rewrite LastIndex_nil. destruct (strings.HasPrefix "" sub); unfold strings.len; simpl; lia.
  - rewrite len_cons, LastIndex_cons.
    destruct (Z.leb_spec 0 (strings.LastIndex s sub)); [lia|].
    pose proof (len_nonneg s).
    destruct (strings.HasPrefix (String c s) sub); lia.
Qed.

(** [LastIndex] finds an occurrence exactly when [Index] does. *)
Lemma LastIndex_neg_iff (s sub : string) :
  strings.LastIndex s sub < 0 <-> strings.Index s sub < 0.
Proof.
  induction s as [|c s IH].
  - rewrite LastIndex_nil, Index_nil. destruct (strings.HasPrefix "" sub); lia.
  - rewrite LastIndex_cons, Index_cons.
    pose proof (Index_lower s sub). pose proof (LastIndex_range s sub).
    destruct (Z.leb_spec 0 (strings.LastIndex s sub));
      destruct (Z.ltb_spec (strings.Index s sub) 0);
      destruct (strings.HasPrefix (String c s) sub); lia.
Qed.

Lemma HasPrefix_length (s p : string) :
  strings.HasPrefix s p = true -> (String.length p <= String.length s)%nat.
Proof.
  intros [t ->]%HasPrefix_inv. rewrite length_append. lia.
Qed.

Lemma HasPrefix_refl (s : string) : strings.HasPrefix s s = true.
Proof. rewrite <- (append_empty_r s) at 1. apply HasPrefix_app. Qed.

Lemma LastIndex_short (s sub : string) :
  (String.length s < String.length sub)%nat -> strings.LastIndex s sub = -1.
Proof.
  induction s as [|c s IH]; intros Hlen.
  - rewrite LastIndex_nil. destruct (strings.HasPrefix "" sub) eqn:E; [|done].
    apply HasPrefix_length in E. lia.
  - rewrite LastIndex_cons, IH by (simpl in Hlen; lia).
    destruct (strings.HasPrefix (String c s) sub) eqn:E; [|done].
    apply HasPrefix_length in E. lia.
Qed.

(** The last occurrence of a string in a string that ends with it is
    that ending. *)
Lemma LastIndex_suffix (q sub : string) :
  strings.LastIndex (q +:+ sub) sub = strings.len q.
Proof.
  induction q as [|c q IH].
  - rewrite append_empty_l. destruct sub as [|b sub]; [reflexivity|].
    rewrite LastIndex_cons, LastIndex_short by (simpl; lia).
    by rewrite HasPrefix_refl.
  - rewrite append_cons, len_cons, LastIndex_cons, IH.
    pose proof (len_nonneg q). destruct (Z.leb_spec 0 (strings.len q)); lia.
Qed.

Lemma substring_prefix (q r : string) :
  String.substring 0 (String.length q) (q +:+ r) = q.
Proof.
  induction q as [|c q IH].
  - by destruct r.
  - rewrite append_cons. simpl. by rewrite IH.
Qed.

Lemma slice_prefix (q r : string) :
  strings.slice (q +:+ r) 0 (strings.len q) = Ok q.
Proof.
  unfold strings.slice.
  assert (strings.len q <= strings.len (q +:+ r)) as Hle
    by (unfold strings.len; rewrite length_append; lia).
  pose proof (len_nonneg q).
  rewrite (proj2 (Z.leb_le _ _) Hle), (proj2 (Z.leb_le 0 (strings.len q))) by done.
  simpl. rewrite Z.sub_0_r. unfold strings.len. rewrite Nat2Z.id.
  by rewrite substring_prefix.
Qed.

Lemma Contains_iff (s sub : string) :
  strings.Contains s sub = true <-> 0 <= strings.Index s sub.
Proof. unfold strings.Contains. apply Z.leb_le. Qed.

Lemma Contains_cons (c : ascii) (s sub : string) :
  strings.Contains s sub = true -> strings.Contains (String c s) sub = true.
Proof.
  rewrite !Contains_iff, Index_cons. intros H.
  destruct (strings.HasPrefix (String c s) sub); [lia|].
  destruct (Z.ltb_spec (strings.Index s sub) 0); lia.
Qed.

Lemma Contains_app_l (a s sub : string) :
  strings.Contains s sub = true -> strings.Contains (a +:+ s) sub = true.
Proof.
  intros H. induction a as [|x a IH]; [done|].
  rewrite append_cons. by apply Contains_cons.
Qed.

Lemma Contains_middle (a b c : string) :
  strings.Contains (a +:+ b +:+ c) b = true.
Proof.
  induction a as [|x a IH].
  - rewrite append_empty_l. apply Contains_iff.
    by rewrite (proj2 (Index_zero _ _) (HasPrefix_app b c)).
  - rewrite append_cons. by apply Contains_cons.
Qed.

(** ** Removing the suffix *)

Lemma removeTsSuffix_suffix (q : string) : removeTsSuffix (q +:+ ".ts") = Ok q.
Proof. unfold removeTsSuffix. rewrite LastIndex_suffix. apply slice_prefix. Qed.

Lemma removeTsSuffix_missing (p : string) :
  strings.Contains p ".ts" = false ->
  strings.LastIndex p ".ts" = -1 /\ removeTsSuffix p = Panic SliceBoundsOutOfRange.
Proof.
  intros H. assert (strings.LastIndex p ".ts" = -1) as Hi.
  { pose proof (LastIndex_range p ".ts"). pose proof (LastIndex_neg_iff p ".ts").
    unfold strings.Contains in H. apply Z.leb_gt in H. lia. }
  split; [done|]. unfold removeTsSuffix. by rewrite Hi.
Qed.

Lemma removeTsSuffix_present (p : string) :
  strings.Contains p ".ts" = true -> exists q, removeTsSuffix p = Ok q.
Proof.
  intros H%Contains_iff. unfold removeTsSuffix, strings.slice.
  pose proof (LastIndex_range p ".ts"). pose proof (LastIndex_neg_iff p ".ts").
  assert (0 <= strings.LastIndex p ".ts") as Hpos by lia.
  rewrite (proj2 (Z.leb_le _ _) Hpos), (proj2 (Z.leb_le _ (strings.len p))) by lia.
  simpl. eauto.
Qed.

(** * Facts about paths *)

Lemma splitSep_nonempty s : filepath.splitSep s <> [].
Proof.
  destruct s as [|c s]; [done|]. simpl.
  destruct (Ascii.eqb c filepath.Separator); [done|].
  by destruct (filepath.splitSep s).
Qed.

Lemma splitSep_sep s : filepath.splitSep (String "/" s) = "" :: filepath.splitSep s.
Proof. reflexivity. Qed.

Lemma splitSep_app_sep a b :
  filepath.splitSep (a +:+ String "/" b) = filepath.splitSep a ++ filepath.splitSep b.
Proof.
  induction a as [|c a IH]; [done|].
  rewrite append_cons. simpl. rewrite IH.
  destruct (Ascii.eqb c filepath.Separator); [done|].
  pose proof (splitSep_nonempty a). by destruct (filepath.splitSep a).
Qed.

Lemma noSep_empty : noSep "".
Proof. reflexivity. Qed.

Lemma splitSep_noSep s : Forall noSep (filepath.splitSep s).
Proof.
  induction s as [|c s IH]; simpl.
  - repeat constructor.
  - destruct (Ascii.eqb c filepath.Separator) eqn:Hc.
    + constructor; [apply noSep_empty|done].
    + destruct (filepath.splitSep s) as [|e es]; [repeat constructor; unfold noSep; simpl; by rewrite Hc|].
      apply Forall_cons in IH as [He Hes]. constructor; [|done].
      unfold noSep in *. simpl. by rewrite Hc, He.
Qed.

Lemma joinSep_cons e e' es :
  filepath.joinSep (e :: e' :: es) = e +:+ String "/" (filepath.joinSep (e' :: es)).
Proof. reflexivity. Qed.

Lemma joinSep_one e : filepath.joinSep [e] = e.
Proof. reflexivity. Qed.

Lemma splitSep_joinSep l :
  l <> [] -> Forall noSep l -> filepath.splitSep (filepath.joinSep l) = l.
Proof.
  induction l as [|e [|e' es] IH]; intros Hne Hl; [done| |].
  - apply Forall_cons in Hl as [He _]. by rewrite joinSep_one.
  - apply Forall_cons in Hl as [He Hes].
    rewrite joinSep_cons, splitSep_app_sep, IH by done. by rewrite He.
Qed.

Lemma joinSep_app l1 l2 :
  l1 <> [] -> l2 <> [] ->
  filepath.joinSep (l1 ++ l2) = filepath.joinSep l1 +:+ String "/" (filepath.joinSep l2).
Proof.
  induction l1 as [|e [|e' es] IH]; intros H1 H2; [done| |].
  - destruct l2; [done|]. reflexivity.
  - change ((e :: e' :: es) ++ l2) with (e :: (e' :: es) ++ l2).
    change ((e' :: es) ++ l2) with (e' :: es ++ l2) at 1.
    rewrite joinSep_cons. change (e' :: es ++ l2) with ((e' :: es) ++ l2).
    rewrite IH by done. by rewrite joinSep_cons, append_assoc.
Qed.

(** ** The cleaning loop *)

Lemma cleanStep_empty rooted out : filepath.cleanStep rooted out "" = out.
Proof. reflexivity. Qed.

Lemma cleanStep_dot rooted out : filepath.cleanStep rooted out "." = out.
Proof. reflexivity. Qed.

Lemma eqb_neq_false (a b : string) : a <> b -> String.eqb a b = false.
Proof. by intros H; apply String.eqb_neq. Qed.

Lemma cleanStep_name rooted out e :
  e <> "" -> e <> "." -> e <> ".." -> filepath.cleanStep rooted out e = e :: out.
Proof.
  intros H1 H2 H3. unfold filepath.cleanStep.
  by rewrite !eqb_neq_false.
Qed.

Lemma cleanStep_dotdot_pop rooted out e :
  e <> ".." -> filepath.cleanStep rooted (e :: out) ".." = out.
Proof.
  intros H. unfold filepath.cleanStep. simpl.
  rewrite (eqb_neq_false e "..") by done. by rewrite andb_false_r.
Qed.

Lemma cleanStep_dotdot_push out :
  Forall (fun e' => e' = "..") out ->
  filepath.cleanStep false out ".." = ".." :: out.
Proof.
  intros H. destruct out as [|e out]; [done|].
  apply Forall_cons in H as [-> _]. reflexivity.
Qed.

Lemma normalStack_app_r rooted l1 l2 :
  normalStack rooted (l1 ++ l2) -> normalStack rooted l2.
Proof. induction l1 as [|e l1 IH]; [done|]. simpl. intros (_ & _ & _ & H). by apply IH. Qed.

Lemma cleanStep_normal rooted out e :
  normalStack rooted out -> normalStack rooted (filepath.cleanStep rooted out e).
Proof.
  intros Hout. unfold filepath.cleanStep.
  destruct (String.eqb_spec e ""); [done|].
  destruct (String.eqb_spec e "."); [done|].
  destruct (String.eqb_spec e "..") as [->|Hdd].
  - destruct out as [|last out'].
    + destruct rooted; [done|]. simpl. repeat split; try done.
    + destruct (negb rooted && String.eqb last "..") eqn:Hpush.
      * apply andb_true_iff in Hpush as [Hr Hl%String.eqb_eq]. subst last.
        apply negb_true_iff in Hr. subst rooted.
        destruct Hout as (? & ? & Hbelow & ?). destruct (Hbelow eq_refl) as [_ Hall].
        simpl. repeat split; try done. by constructor.
      * simpl in Hout. tauto.
  - simpl. repeat split; try done.
Qed.

Lemma fold_cleanStep_normal rooted elems out :
  normalStack rooted out ->
  normalStack rooted (fold_left (filepath.cleanStep rooted) elems out).
Proof.
  revert out. induction elems as [|e elems IH]; intros out H; [done|].
  simpl. apply IH. by apply cleanStep_normal.
Qed.

Lemma cleanStep_noSep rooted out e :
  Forall noSep out -> noSep e -> Forall noSep (filepath.cleanStep rooted out e).
Proof.
  intros Hout He. unfold filepath.cleanStep.
  destruct (String.eqb e ""); [done|]. destruct (String.eqb e "."); [done|].
  destruct (String.eqb e "..").
  - destruct out as [|last out']; [destruct rooted; repeat constructor|].
    destruct (negb rooted && String.eqb last ".."); [by constructor|].
    by apply Forall_cons in Hout as [_ ?].
  - by constructor.
Qed.

Lemma fold_cleanStep_noSep rooted elems out :
  Forall noSep out -> Forall noSep elems ->
  Forall noSep (fold_left (filepath.cleanStep rooted) elems out).
Proof.
  revert out. induction elems as [|e elems IH]; intros out Hout Hel; [done|].
  apply Forall_cons in Hel as [He Hel]. simpl. apply IH; [|done]. by apply cleanStep_noSep.
Qed.

(** Writing the elements of a cleaned path onto what is already
    there leaves them as they are. *)
Lemma fold_cleanStep_normal_elems rooted elems out :
  normalStack rooted (rev elems ++ out) ->
  fold_left (filepath.cleanStep rooted) elems out = rev elems ++ out.
Proof.
  revert out. induction elems as [|e elems IH]; intros out H; [done|].
  simpl in *. rewrite <- app_assoc in *. simpl in H.
  pose proof (normalStack_app_r _ _ _ H) as (H1 & H2 & Hdd & Hout).
  assert (filepath.cleanStep rooted out e = e :: out) as ->; [|by apply IH].
  destruct (decide (e = "..")) as [->|Hne]; [|by apply cleanStep_name].
  destruct (Hdd eq_refl) as [-> Hall]. by apply cleanStep_dotdot_push.
Qed.

(** [n] times [..] take [n] names back off, whatever is below. *)
Lemma fold_cleanStep_up rooted names out :
  Forall (fun e => e <> "..") names ->
  fold_left (filepath.cleanStep rooted) (repeat ".." (length names)) (names ++ out) = out.
Proof.
  induction names as [|e names IH]; intros H; [done|].
  apply Forall_cons in H as [He H]. simpl.
  rewrite cleanStep_dotdot_pop by done. by apply IH.
Qed.

(** ** Cleaned paths *)

Lemma normalStack_Forall rooted out :
  normalStack rooted out -> Forall (fun e => e <> "" /\ e <> ".") out.
Proof.
  induction out as [|e out IH]; [constructor|].
  intros (? & ? & _ & ?). constructor; [done|by apply IH].
Qed.

Lemma normal_Forall rooted elems :
  normal rooted elems -> Forall (fun e => e <> "" /\ e <> "." /\ noSep e) elems.
Proof.
  intros [Hst Hns]. apply normalStack_Forall in Hst. apply Forall_rev in Hst.
  rewrite rev_involutive in Hst.
  rewrite Forall_forall in *. intros e He. destruct (Hst e He). repeat split; auto.
Qed.

Lemma normal_nil rooted : normal rooted [].
Proof. split; [done|constructor]. Qed.

Lemma noSep_head c s : noSep (String c s) -> c <> "/"%char.
Proof. intros H ->. unfold noSep in H. by rewrite splitSep_sep in H. Qed.

Lemma HasPrefix_char c s p :
  strings.HasPrefix (String c s) (String p "") = Ascii.eqb p c.
Proof. cbn [strings.HasPrefix]. by rewrite HasPrefix_empty, andb_true_r. Qed.

Lemma HasPrefix_append_nonempty s t p :
  s <> "" -> strings.HasPrefix (s +:+ t) (String p "") = strings.HasPrefix s (String p "").
Proof. destruct s as [|c s]; [done|]. intros _. by rewrite append_cons, !HasPrefix_char. Qed.

Lemma joinSep_head e es :
  e <> "" -> strings.HasPrefix (filepath.joinSep (e :: es)) "/" = strings.HasPrefix e "/".
Proof.
  intros He. destruct es as [|e' es]; [done|].
  rewrite joinSep_cons. by apply HasPrefix_append_nonempty.
Qed.

Lemma render_nonempty rooted elems :
  Forall (fun e => e <> "") elems -> filepath.render rooted elems <> "".
Proof.
  intros H. unfold filepath.render. destruct rooted; [done|].
  destruct elems as [|e [|e' es]]; [done| |].
  - apply Forall_cons in H as [He _]. by rewrite joinSep_one.
  - apply Forall_cons in H as [He _]. rewrite joinSep_cons.
    destruct e; [done|]. by rewrite append_cons.
Qed.

Lemma normal_nonempty rooted elems :
  normal rooted elems -> Forall (fun e => e <> "") elems.
Proof. intros H%normal_Forall. eapply Forall_impl; [exact H|]. by intros e (? & _). Qed.

Lemma render_rooted rooted elems :
  normal rooted elems ->
  strings.HasPrefix (filepath.render rooted elems) "/" = rooted.
Proof.
  intros H%normal_Forall. unfold filepath.render.
  destruct rooted; [by destruct (filepath.joinSep elems)|].
  destruct elems as [|e es]; [done|].
  apply Forall_cons in H as [(He & _ & Hns) _].
  rewrite joinSep_head by done. destruct e as [|c e]; [done|].
  apply noSep_head in Hns. change "/" with (String "/" "").
  rewrite HasPrefix_char. apply Ascii.eqb_neq. congruence.
Qed.

Lemma splitSep_render rooted elems :
  normal rooted elems ->
  filepath.splitSep (filepath.render rooted elems) =
  if rooted then "" :: match elems with [] => [""] | _ :: _ => elems end
  else match elems with [] => ["."] | _ :: _ => elems end.
Proof.
  intros [_ Hns]. unfold filepath.render. destruct rooted.
  - change (String filepath.Separator ?s) with (String "/" s). rewrite splitSep_sep.
    destruct elems as [|e es]; [done|]. by rewrite splitSep_joinSep.
  - destruct elems as [|e es]; [done|]. by rewrite splitSep_joinSep.
Qed.

Lemma fold_render rooted elems :
  normal rooted elems ->
  fold_left (filepath.cleanStep rooted) (filepath.splitSep (filepath.render rooted elems)) [] =
  rev elems.
Proof.
  intros H. rewrite splitSep_render by done. destruct H as [Hst _].
  assert (fold_left (filepath.cleanStep rooted) elems [] = rev elems) as Hfold.
  { rewrite fold_cleanStep_normal_elems; rewrite app_nil_r; done. }
  destruct rooted, elems as [|e es]; try done.
Qed.

(** What [Clean] makes of a cleaned path with more elements after it. *)
Lemma Clean_render_app rooted elems x :
  normal rooted elems ->
  filepath.Clean (filepath.render rooted elems +:+ String "/" x) =
  filepath.render rooted
    (rev (fold_left (filepath.cleanStep rooted) (filepath.splitSep x) (rev elems))).
Proof.
  intros H. pose proof (render_nonempty rooted elems (normal_nonempty _ _ H)) as Hne.
  unfold filepath.Clean.
  rewrite eqb_neq_false by (destruct (filepath.render rooted elems); done).
  change (String filepath.Separator "") with "/".
  rewrite HasPrefix_append_nonempty, render_rooted by done.
  unfold filepath.cleanElems.
  by rewrite splitSep_app_sep, fold_left_app, fold_render.
Qed.

Lemma Clean_render rooted elems :
  normal rooted elems ->
  filepath.Clean (filepath.render rooted elems) = filepath.render rooted elems.
Proof.
  intros H. pose proof (render_nonempty rooted elems (normal_nonempty _ _ H)) as Hne.
  unfold filepath.Clean. rewrite eqb_neq_false by done.
  change (String filepath.Separator "") with "/". rewrite render_rooted by done.
  unfold filepath.cleanElems. by rewrite fold_render, rev_involutive.
Qed.

(** Every result of [Clean] is a cleaned path. *)
Lemma Clean_normal p :
  exists rooted elems, filepath.Clean p = filepath.render rooted elems /\ normal rooted elems.
Proof.
  unfold filepath.Clean. destruct (String.eqb p "").
  - exists false, []. split; [done|apply normal_nil].
  - eexists _, _. split; [reflexivity|]. unfold filepath.cleanElems. split.
    + rewrite rev_involutive. by apply fold_cleanStep_normal.
    + apply Forall_rev. apply fold_cleanStep_noSep; [constructor|apply splitSep_noSep].
Qed.

Lemma Clean_idempotent p : filepath.Clean (filepath.Clean p) = filepath.Clean p.
Proof. destruct (Clean_normal p) as (rooted & elems & -> & H). by apply Clean_render. Qed.

Lemma Dir_clean base : filepath.Clean (filepath.Dir base) = filepath.Dir base.
Proof. apply Clean_idempotent. Qed.

Lemma render_dot rooted elems :
  normal rooted elems ->
  filepath.render rooted elems = "." -> rooted = false /\ elems = [].
Proof.
  intros H Hdot. pose proof (splitSep_render _ _ H) as Hsplit. rewrite Hdot in Hsplit.
  apply normal_Forall in H.
  destruct rooted; [done|]. destruct elems as [|e es]; [done|].
  simpl in Hsplit. injection Hsplit as <- <-.
  apply Forall_cons in H as [(_ & ? & _) _]. done.
Qed.

(** ** [Rel] on cleaned paths *)

Lemma isEmptyElems_nonempty elems :
  Forall (fun e => e <> "") elems ->
  filepath.isEmptyElems elems = match elems with [] => true | _ :: _ => false end.
Proof.
  destruct elems as [|e [|e' es]]; [done| |done].
  intros [He _]%Forall_cons. simpl. by apply eqb_neq_false.
Qed.

Lemma relLoop_spec bs ts :
  Forall (fun e => e <> "") bs -> Forall (fun e => e <> "") ts ->
  exists common brest trest,
    bs = common ++ brest /\ ts = common ++ trest /\
    (((brest = [] \/ trest = []) /\ filepath.relLoop bs ts = ("", brest, trest)) \/
     (exists eb bs' et ts',
        brest = eb :: bs' /\ trest = et :: ts' /\ eb <> et /\
        filepath.relLoop bs ts = (eb, brest, trest))).
Proof.
  revert ts. induction bs as [|eb bs IH]; intros ts Hbs Hts.
  - exists [], [], ts. repeat split. left. split; [by left|]. by destruct ts.
  - destruct ts as [|et ts].
    + exists [], (eb :: bs), []. repeat split. left. split; [by right|done].
    + pose proof (isEmptyElems_nonempty _ Hbs) as Eb.
      pose proof (isEmptyElems_nonempty _ Hts) as Et.
      apply Forall_cons in Hbs as [Heb Hbs]. apply Forall_cons in Hts as [Het Hts].
      cbn [filepath.relLoop]. rewrite Eb, Et. cbn [orb].
      destruct (String.eqb_spec et eb) as [->|Hne].
      * destruct (IH ts Hbs Hts) as (common & brest & trest & -> & -> & Hres).
        exists (eb :: common), brest, trest. repeat split. exact Hres.
      * exists [], (eb :: bs), (et :: ts). repeat split. right.
        exists eb, bs, et, ts. repeat split; congruence.
Qed.

Lemma relLoop_rooted bs ts :
  bs <> [] -> ts <> [] ->
  filepath.relLoop ("" :: bs) ("" :: ts) = filepath.relLoop bs ts.
Proof. destruct bs, ts; done. Qed.

(** The shape of a relative path between cleaned paths: as many [..]
    as the base has elements after the common ones, then what the
    target has after them. *)
Lemma Rel_normal rb lb rt lt rel :
  normal rb lb -> normal rt lt -> lt <> [] ->
  filepath.Rel (filepath.render rb lb) (filepath.render rt lt) = Ok rel ->
  rel = "." \/
  (rb = rt /\
   exists common brest trest,
     lb = common ++ brest /\ lt = common ++ trest /\
     rel = filepath.joinSep (repeat ".." (length brest) ++ trest) /\
     (trest = [] \/ head brest <> Some "..")).
Proof.
  intros Hb Ht Hlt. unfold filepath.Rel.
  rewrite !Clean_render by done.
  destruct (String.eqb _ _); [intros [= <-]; by left|].
  set (base := if String.eqb (filepath.render rb lb) "." then "" else filepath.render rb lb).
  change (String filepath.Separator "") with "/".
  assert (strings.HasPrefix base "/" = rb /\
          filepath.splitSep base =
            if rb then "" :: match lb with [] => [""] | _ :: _ => lb end
            else match lb with [] => [""] | _ :: _ => lb end) as [-> Hbase].
  { subst base. destruct (String.eqb_spec (filepath.render rb lb) ".") as [Hdot|Hdot].
    - destruct (render_dot _ _ Hb Hdot) as [-> ->]. done.
    - split; [by apply render_rooted|]. rewrite splitSep_render by done.
      destruct rb; [done|]. by destruct lb. }
  rewrite render_rooted by done.
  destruct (Bool.eqb_spec rb rt) as [<-|]; [|done]. cbn [negb].
  rewrite Hbase, (splitSep_render _ _ Ht). clear Hbase base.
  pose proof (normal_nonempty _ _ Hb) as Hbne. pose proof (normal_nonempty _ _ Ht) as Htne.
  assert (filepath.relLoop
            (if rb then "" :: match lb with [] => [""] | _ :: _ => lb end
             else match lb with [] => [""] | _ :: _ => lb end)
            (if rb then "" :: match lt with [] => [""] | _ :: _ => lt end
             else match lt with [] => ["."] | _ :: _ => lt end) =
          filepath.relLoop (match lb with [] => [""] | _ :: _ => lb end) lt) as ->.
  { destruct lt as [|et lt']; [done|]. destruct rb; [|done].
    apply relLoop_rooted; [by destruct lb|done]. }
  destruct lb as [|eb lb'].
  - (* the base is the root or the current directory *)
    destruct lt as [|et lt']; [done|]. simpl.
    intros [= <-]. right. split; [done|]. exists [], [], (et :: lt'). repeat split. by right.
  - destruct (relLoop_spec (eb :: lb') lt Hbne Htne)
      as (common & brest & trest & Hlb & -> & [[Hend ->]|(eb' & bs' & et & ts' & -> & -> & Hne & ->)]).
    + simpl. assert (Forall (fun e => e <> "") brest) as Hbr
        by (rewrite Hlb in Hbne; by apply Forall_app in Hbne as [_ ?]).
      assert (Forall (fun e => e <> "") trest) as Htr by (by apply Forall_app in Htne as [_ ?]).
      rewrite (isEmptyElems_nonempty brest), (isEmptyElems_nonempty trest) by done.
      intros Hrel. right. split; [done|]. exists common, brest, trest.
      split; [done|]. split; [done|]. split.
      * destruct brest as [|b brest']; [by injection Hrel as <-|].
        injection Hrel as <-. by destruct trest.
      * destruct Hend as [->| ->]; [by right|by left].
    + destruct (String.eqb_spec eb' ".."); [done|].
      assert (Forall (fun e => e <> "") (eb' :: bs')) as Hbr
        by (rewrite Hlb in Hbne; by apply Forall_app in Hbne as [_ ?]).
      assert (Forall (fun e => e <> "") (et :: ts')) as Htr by (by apply Forall_app in Htne as [_ ?]).
      rewrite (isEmptyElems_nonempty (eb' :: bs')), (isEmptyElems_nonempty (et :: ts')) by done.
      intros [= <-]. right. split; [done|]. exists common, (eb' :: bs'), (et :: ts').
      repeat split; try done. right. simpl. congruence.
Qed.

(** * The loops *)

Lemma Contains_tail (c : ascii) (s sub : string) :
  strings.Contains (String c s) sub = false -> strings.Contains s sub = false.
Proof.
  intros H. destruct (strings.Contains s sub) eqn:E; [|done].
  apply (Contains_cons c) in E. congruence.
Qed.

Lemma Contains_head (c : ascii) (s : string) :
  strings.Contains (String c s) (String c "") = true.
Proof.
  apply Contains_iff. rewrite (proj2 (Index_zero _ _)); [done|].
  simpl. by rewrite Ascii.eqb_refl, HasPrefix_empty.
Qed.

(** The identifier determines the pair, as long as the package has no
    bar of its own. *)
Lemma identifier_inj (p1 f1 p2 f2 : string) :
  strings.Contains p1 "|" = false -> strings.Contains p2 "|" = false ->
  p1 +:+ "|" +:+ f1 = p2 +:+ "|" +:+ f2 -> p1 = p2 /\ f1 = f2.
Proof.
  revert p2. induction p1 as [|c p1 IH]; intros [|d p2] H1 H2 Heq.
  - cbn in Heq. by simplify_eq.
  - cbn in Heq. injection Heq as <- _. by rewrite Contains_head in H2.
  - cbn in Heq. injection Heq as -> _. by rewrite Contains_head in H1.
  - cbn in Heq. injection Heq as -> Heq.
    apply Contains_tail in H1, H2. destruct (IH p2 H1 H2 Heq) as [-> ->]; done.
Qed.

Lemma remove_dups_fmap_inj_on {A B : Type} `{EqDecision A, EqDecision B}
    (f : A -> B) (l : list A) :
  (forall x y, x ∈ l -> y ∈ l -> f x = f y -> x = y) ->
  remove_dups (f <$> l) = f <$> remove_dups l.
Proof.
  induction l as [|x l IH]; intros Hinj; [done|].
  assert (remove_dups (f <$> l) = f <$> remove_dups l) as IH'.
  { apply IH. intros y z Hy Hz. apply Hinj; by apply list_elem_of_further. }
  csimpl. destruct (decide_rel elem_of (f x) (f <$> l)) as [Hin|Hnin];
    destruct (decide_rel elem_of x l) as [Hx|Hx]; csimpl; rewrite ?IH'; try done.
  - apply list_elem_of_fmap in Hin as (y & Hfy & Hy).
    apply Hinj in Hfy;
      [by subst | apply list_elem_of_here | by apply list_elem_of_further].
  - destruct Hnin. apply list_elem_of_fmap. eauto.
Qed.

Section LoopFacts.

Context (GetModuleName : string -> string -> string).
Context (rangeOrder : list (string * Dependency) -> list (string * Dependency)).
Context (sourceFileFor : Registry -> FileData -> TypeInformation -> outcome string).

Local Abbreviation collectTypes' := (collectTypes GetModuleName sourceFileFor).
Local Abbreviation collectFile' := (collectFile GetModuleName rangeOrder sourceFileFor).
Local Abbreviation collectFiles' := (collectFiles GetModuleName rangeOrder sourceFileFor).

Lemma entriesOf_cons r typeName rest :
  entriesOf r (typeName :: rest) =
  match Types r !! typeName with
  | Some typeInfo => typeInfo :: entriesOf r rest
  | None => entriesOf r rest
  end.
Proof. unfold entriesOf. simpl. by destruct (Types r !! typeName). Qed.

Lemma collectTypes_dom r fileData typeNames deps deps' :
  collectTypes' r fileData typeNames deps = Ok deps' ->
  dom deps' = dom deps ∪ list_to_set (identifierOf <$> entriesOf r typeNames).
Proof.
  revert deps. induction typeNames as [|typeName rest IH]; intros deps H; simpl in H.
  - simplify_eq. simpl. by rewrite (right_id_L ∅ (∪)).
  - rewrite entriesOf_cons.
    destruct (Types r !! typeName) as [typeInfo|] eqn:Hty; [|done].
    rewrite fmap_cons, list_to_set_cons, (assoc_L (∪)).
    destruct (deps !! identifierOf typeInfo) as [d|] eqn:Hid.
    + rewrite (IH _ H). f_equal.
      apply (elem_of_dom_2 (D:=gset string)) in Hid.
      apply set_eq. intros x. rewrite elem_of_union, elem_of_singleton.
      split; [by left|]. by intros [?| ->].
    + destruct (sourceFileFor r fileData typeInfo) as [sf| |]; simpl in H; try done.
      rewrite (IH _ H), dom_insert_L. f_equal. apply (comm_L (∪)).
Qed.

Lemma collectTypes_found r fileData typeNames deps deps' :
  collectTypes' r fileData typeNames deps = Ok deps' ->
  Forall (fun typeName => is_Some (Types r !! typeName)) typeNames.
Proof.
  revert deps. induction typeNames as [|typeName rest IH]; intros deps H; simpl in H.
  - constructor.
  - destruct (Types r !! typeName) as [typeInfo|] eqn:Hty; [|done].
    constructor; [by rewrite Hty|].
    destruct (deps !! identifierOf typeInfo); [by eapply IH|].
    destruct (sourceFileFor r fileData typeInfo); simpl in H; try done. by eapply IH.
Qed.

Lemma collectTypes_app r fileData l1 l2 deps :
  collectTypes' r fileData (l1 ++ l2) deps =
  (deps1 ← collectTypes' r fileData l1 deps; collectTypes' r fileData l2 deps1).
Proof.
  revert deps. induction l1 as [|typeName rest IH]; intros deps; simpl; [done|].
  destruct (Types r !! typeName) as [typeInfo|]; [|done].
  destruct (deps !! identifierOf typeInfo); [apply IH|].
  destruct (sourceFileFor r fileData typeInfo); simpl; [apply IH|done|done].
Qed.

Lemma entriesOf_mem r typeNames typeInfo :
  typeInfo ∈ entriesOf r typeNames ->
  exists typeName, Types r !! typeName = Some typeInfo.
Proof.
  unfold entriesOf. intros (typeName & _ & H)%list_elem_of_omap. eauto.
Qed.

Lemma distinct_identifiers r typeNames :
  barFree r ->
  length (remove_dups (identifierOf <$> entriesOf r typeNames)) = distinctPairs r typeNames.
Proof.
  intros Hbar. unfold distinctPairs.
  set (key := fun pf : string * string => pf.1 +:+ "|" +:+ pf.2).
  replace (identifierOf <$> entriesOf r typeNames)
    with (key <$> (pairOf <$> entriesOf r typeNames))
    by (rewrite <- list_fmap_compose; done).
  rewrite remove_dups_fmap_inj_on, length_fmap; [done|].
  intros [p1 f1] [p2 f2] (i1 & Hi1 & Hm1)%list_elem_of_fmap (i2 & Hi2 & Hm2)%list_elem_of_fmap Hkey.
  apply entriesOf_mem in Hm1 as [n1 Hn1], Hm2 as [n2 Hn2].
  apply (map_Forall_lookup_1 _ _ _ _ Hbar) in Hn1, Hn2.
  unfold pairOf in Hi1, Hi2. simplify_eq.
  unfold key in Hkey. simpl in Hkey.
  by destruct (identifier_inj _ _ _ _ Hn1 Hn2 Hkey) as [-> ->].
Qed.

Lemma collectFile_count r fileData fileData' :
  (forall entries, rangeOrder entries ≡ₚ entries) ->
  barFree r ->
  collectFile' r fileData = Ok fileData' ->
  exists added,
    Dependencies fileData' = Dependencies fileData ++ added /\
    length added = distinctPairs r (ExternalDependingTypes fileData).
Proof.
  intros Hperm Hbar H. unfold collectFile in H.
  destruct (collectTypes _ _ r fileData _ ∅) as [deps| |] eqn:Hdeps;
    simpl in H; try done.
  simplify_eq. eexists. split; [reflexivity|].
  rewrite length_fmap, (Permutation_length (Hperm _)), length_map_to_list.
  rewrite <- (size_dom (D:=gset string)), (collectTypes_dom _ _ _ _ _ Hdeps), dom_empty_L.
  rewrite (left_id_L ∅ (∪)), <- (distinct_identifiers r) by done.
  rewrite <- (size_list_to_set (C:=gset string)) by apply NoDup_remove_dups.
  f_equal. apply set_eq. intros x.
  by rewrite !elem_of_list_to_set, elem_of_remove_dups.
Qed.

Lemma collectFile_frame r fileData fileData' :
  collectFile' r fileData = Ok fileData' ->
  TSFileName fileData' = TSFileName fileData /\
  ExternalDependingTypes fileData' = ExternalDependingTypes fileData /\
  exists added, Dependencies fileData' = Dependencies fileData ++ added.
Proof.
  unfold collectFile.
  destruct (collectTypes _ _ r fileData _ ∅); simpl; intros H; simplify_eq.
  simpl. eauto.
Qed.

Lemma collectFiles_frame r filesData :
  (collectFiles' r filesData).1.1 = r /\
  Forall2 onlyAppended filesData (collectFiles' r filesData).1.2.
Proof.
  induction filesData as [|[name fileData] rest [IHr IHf]]; simpl.
  - split; [done|constructor].
  - destruct (collectFile' r fileData) as [fileData'| |] eqn:Hf.
    + destruct (collectFiles' r rest) as [[r' rest'] result]. simpl in *.
      split; [done|]. constructor; [|done].
      destruct (collectFile_frame _ _ _ Hf) as (? & ? & ?). by repeat split.
    + simpl. split; [done|]. apply Forall2_same_length_lookup_2; [done|].
      intros i x y Hx Hy. simplify_eq. repeat split. exists []. by rewrite app_nil_r.
    + simpl. split; [done|]. apply Forall2_same_length_lookup_2; [done|].
      intros i x y Hx Hy. simplify_eq. repeat split. exists []. by rewrite app_nil_r.
Qed.

Lemma collectFiles_count r filesData st :
  (forall entries, rangeOrder entries ≡ₚ entries) ->
  barFree r ->
  collectFiles' r filesData = (st, Ok ()) ->
  Forall2 (appendedCount r) filesData st.2.
Proof.
  intros Hperm Hbar. revert st.
  induction filesData as [|[name fileData] rest IH]; intros st H; simpl in H.
  - simplify_eq. constructor.
  - destruct (collectFile' r fileData) as [fileData'| |] eqn:Hf; try done.
    destruct (collectFiles' r rest) as [[r' rest'] result] eqn:Hrest.
    simplify_eq. simpl. constructor; [|by apply (IH (r', rest'))].
    by apply collectFile_count.
Qed.

Lemma collectFiles_found r filesData st :
  collectFiles' r filesData = (st, Ok ()) ->
  Forall (fun entry : string * FileData =>
            Forall (fun typeName => is_Some (Types r !! typeName))
                   (ExternalDependingTypes entry.2)) filesData.
Proof.
  revert st. induction filesData as [|[name fileData] rest IH]; intros st H; simpl in H.
  - constructor.
  - destruct (collectFile' r fileData) as [fileData'| |] eqn:Hf; try done.
    destruct (collectFiles' r rest) as [[r' rest'] result] eqn:Hrest. simplify_eq.
    constructor; [|by eapply IH]. simpl.
    unfold collectFile in Hf.
    destruct (collectTypes _ _ r fileData _ ∅) eqn:Hdeps; try done.
    by eapply collectTypes_found.
Qed.

(** The files before the first one that fails are processed; its
    failure is the result of the run. *)
Lemma collectFiles_first_failure r pre name fileData post e :
  Forall (fun entry : string * FileData => succeeded (collectFile' r entry.2) = true) pre ->
  collectFile' r fileData = Fail e ->
  (collectFiles' r (pre ++ (name, fileData) :: post)).2 = Fail e.
Proof.
  intros Hpre Hf. induction pre as [|[n f] pre IH]; simpl.
  - by rewrite Hf.
  - apply Forall_cons in Hpre as [Hn Hpre]. simpl in Hn.
    destruct (collectFile' r f); try done.
    specialize (IH Hpre).
    destruct (collectFiles' r (pre ++ (name, fileData) :: post)) as [[r' rest'] result].
    done.
Qed.

Lemma collectFiles_first_panic r pre name fileData post p :
  Forall (fun entry : string * FileData => succeeded (collectFile' r entry.2) = true) pre ->
  collectFile' r fileData = Panic p ->
  (collectFiles' r (pre ++ (name, fileData) :: post)).2 = Panic p.
Proof.
  intros Hpre Hf. induction pre as [|[n f] pre IH]; simpl.
  - by rewrite Hf.
  - apply Forall_cons in Hpre as [Hn Hpre]. simpl in Hn.
    destruct (collectFile' r f); try done.
    specialize (IH Hpre).
    destruct (collectFiles' r (pre ++ (name, fileData) :: post)) as [[r' rest'] result].
    done.
Qed.

End LoopFacts.

(** * The externality predicate *)

Lemma isExternal_false_iff (fqTypeName packageName : string) :
  isExternalDependenciesOutsidePackage fqTypeName packageName = false <->
  strings.HasPrefix fqTypeName ("." +:+ packageName) = true \/
  strings.HasPrefix fqTypeName "." = false.
Proof.
  unfold isExternalDependenciesOutsidePackage.
  rewrite andb_false_iff, negb_false_iff, Z.eqb_eq, Z.eqb_neq, !Index_zero.
  by rewrite not_true_iff_false.
Qed.

(** C1, at the input [".pkg2.Foo"], ["pkg"]: both revisions of the
    predicate answer [false] for a type of package [pkg2] seen from
    package [pkg], as they do for a type of [pkg] itself; the comparison
    stops at the end of the package name and never looks for the dot
    that should follow it. *)
Theorem prefix_package_not_external :
  isExternalDependenciesOutsidePackage ".pkg2.Foo" "pkg" = false /\
  Rev1.isExternalDependencies ".pkg2.Foo" "pkg" = false /\
  isExternalDependenciesOutsidePackage ".pkg.Foo" "pkg" = false.
Proof. repeat split. Qed.

(** * Removing the suffix *)

Section ResolverFacts.

Context (GetTSFileName : string -> string).
Context (GetModuleName : string -> string -> string).
Context (Glob : string -> outcome (list string)).
Context (Getwd : outcome string).
Context (rangeOrder : list (string * Dependency) -> list (string * Dependency)).

Local Abbreviation importPath' := (importPath GetTSFileName Glob Getwd).
Local Abbreviation sourceFileOf' := (sourceFileOf GetTSFileName Glob Getwd).
Local Abbreviation externalSourceFile' := (externalSourceFile GetTSFileName Glob Getwd).
Local Abbreviation collect :=
  (collectExternalDependenciesFromData GetTSFileName GetModuleName Glob Getwd rangeOrder).

(** C7: whichever branch computed the import path, a path ending in
    [.ts] is stored without that ending: the dependency entered for a
    type whose identifier is new has the path minus [.ts] as its
    [SourceFile]. *)
Theorem suffix_removed_on_every_branch r fileData typeName typeInfo q dependencies :
  Types r !! typeName = Some typeInfo ->
  dependencies !! identifierOf typeInfo = None ->
  importPath' r fileData typeInfo = Ok (q +:+ ".ts") ->
  sourceFileOf' r fileData typeInfo = Ok q /\
  collectTypes GetModuleName sourceFileOf' r fileData [typeName] dependencies =
    Ok (<[identifierOf typeInfo :=
            {| ModuleIdentifier := GetModuleName (Package typeInfo) (File typeInfo);
               SourceFile := q |}]> dependencies).
Proof.
  intros Hty Hnew Hpath.
  assert (sourceFileOf' r fileData typeInfo = Ok q) as Hsf.
  { unfold sourceFileOf. rewrite Hpath. apply removeTsSuffix_suffix. }
  split; [done|]. simpl. by rewrite Hty, Hnew, Hsf.
Qed.

(** C10: the suffix is cut at [strings.LastIndex], unguarded.  For a
    computed path without [.ts] the index is [-1] and the slice
    expression panics; for a path that contains [.ts] the slice is in
    range and a source file is stored. *)
Theorem missing_suffix_panics r fileData typeInfo p :
  importPath' r fileData typeInfo = Ok p ->
  (strings.Contains p ".ts" = false ->
     strings.LastIndex p ".ts" = -1 /\
     sourceFileOf' r fileData typeInfo = Panic SliceBoundsOutOfRange) /\
  (strings.Contains p ".ts" = true ->
     exists q, sourceFileOf' r fileData typeInfo = Ok q).
Proof.
  intros Hpath. unfold sourceFileOf. rewrite Hpath. simpl. split.
  - apply removeTsSuffix_missing.
  - apply removeTsSuffix_present.
Qed.

(** * A target outside the run *)

Lemma externalSourceFile_no_match r base typeInfo :
  Glob (path.Join [TSImportRoot r; "**"; File typeInfo]) = Ok [] ->
  externalSourceFile' r base typeInfo = Panic IndexOutOfRange.
Proof. intros H. unfold externalSourceFile. by rewrite H. Qed.

(** C3, what the code does: when the run gets as far as a type whose
    file is outside the run and not yet imported, and the search for
    that file finds nothing, the call ends in the panic of
    [matches[0]], not in an error value. *)
Theorem no_match_panics r pre name fileData post before typeName after typeInfo deps :
  ExternalDependingTypes fileData = before ++ typeName :: after ->
  Types r !! typeName = Some typeInfo ->
  IsFileToGenerate r (File typeInfo) = false ->
  Glob (path.Join [TSImportRoot r; "**"; File typeInfo]) = Ok [] ->
  Forall (fun entry : string * FileData =>
            succeeded (collectFile GetModuleName rangeOrder sourceFileOf' r entry.2) = true) pre ->
  collectTypes GetModuleName sourceFileOf' r fileData before ∅ = Ok deps ->
  deps !! identifierOf typeInfo = None ->
  (collect r (pre ++ (name, fileData) :: post)).2 = Panic IndexOutOfRange.
Proof.
  intros Htypes Hty Hrun Hglob Hpre Hbefore Hnew.
  apply collectFiles_first_panic; [done|].
  unfold collectFile. rewrite Htypes, collectTypes_app, Hbefore. simpl.
  rewrite Hty, Hnew. unfold sourceFileOf, importPath.
  by rewrite Hrun, (externalSourceFile_no_match _ _ _ Hglob).
Qed.

(** With an alias, the path of a file found outside the run is the
    found file's output name with every occurrence of the import root
    rewritten. *)
Lemma alias_import_path r fileData typeInfo match0 others :
  IsFileToGenerate r (File typeInfo) = false ->
  Glob (path.Join [TSImportRoot r; "**"; File typeInfo]) = Ok (match0 :: others) ->
  TSImportRootAlias r <> "" ->
  importPath' r fileData typeInfo =
    Ok (strings.ReplaceAll (GetTSFileName match0) (TSImportRoot r) (TSImportRootAlias r)).
Proof.
  intros Hrun Hglob Halias. unfold importPath, externalSourceFile.
  rewrite Hrun, Hglob. simpl. by rewrite eqb_neq_false.
Qed.

Lemma replaceFrom_skip (p s old new : string) :
  strings.replaceFrom (String.length p) (p +:+ s) old new = strings.replaceFrom 0 s old new.
Proof. induction p as [|c p IH]; [done|]. rewrite append_cons. simpl. apply IH. Qed.

(** The leading occurrence is replaced, and what follows it is
    rewritten in the same way. *)
Lemma ReplaceAll_prefix (old new rest : string) :
  old <> "" ->
  strings.ReplaceAll (old +:+ rest) old new = new +:+ strings.ReplaceAll rest old new.
Proof.
  intros Hold. destruct old as [|c old]; [done|].
  unfold strings.ReplaceAll. rewrite append_cons.
  change (strings.replaceFrom 0 (String c (old +:+ rest)) (String c old) new)
    with (if strings.HasPrefix (String c (old +:+ rest)) (String c old)
          then new +:+ strings.replaceFrom (String.length old) (old +:+ rest) (String c old) new
          else String c (strings.replaceFrom 0 (old +:+ rest) (String c old) new)).
  rewrite <- append_cons, HasPrefix_app. by rewrite replaceFrom_skip.
Qed.

(** * A target generated in the run *)

Lemma inRunSourceFile_eq base target :
  inRunSourceFile base target =
  (rel ← wrapf (filepath.Rel (filepath.Dir base) target)
               ("error getting relative path between for " +:+ base +:+ ", " +:+ target);
   Ok (withDotSlash (filepath.ToSlash rel))).
Proof.
  unfold inRunSourceFile, withDotSlash.
  destruct (filepath.Rel (filepath.Dir base) target) as [rel| |]; simpl; try done.
  change (filepath.FromSlash ?x) with x. change (filepath.ToSlash ?x) with x.
  destruct (strings.HasPrefix rel "../") eqn:E.
  - by rewrite (proj2 (Index_zero _ _) E).
  - destruct (Z.eqb_spec (strings.Index rel "../") 0) as [H0|H0]; [|done].
    apply Index_zero in H0. congruence.
Qed.




(** The branch on any build, step by step. *)
Lemma inRunSourceFileOn_eq Separator Rel Dir base target :
  inRunSourceFileOn Separator Rel Dir base target =
  (rel ← wrapf (Rel (Dir base) target)
               ("error getting relative path between for " +:+ base +:+ ", " +:+ target);
   Ok (filepath.FromSlashOn Separator
         (withDotSlash (filepath.ToSlashOn Separator rel)))).
Proof.
  unfold inRunSourceFileOn, withDotSlash.
  destruct (Rel (Dir base) target) as [rel| |]; simpl; try done.
  set (slash := filepath.ToSlashOn Separator rel).
  destruct (strings.HasPrefix slash "../") eqn:E.
  - by rewrite (proj2 (Index_zero _ _) E).
  - destruct (Z.eqb_spec (strings.Index slash "../") 0) as [H0|H0]; [|done].
    apply Index_zero in H0. congruence.
Qed.



End ResolverFacts.

Section RunFacts.

Context (GetTSFileName : string -> string).
Context (GetModuleName : string -> string -> string).
Context (Glob : string -> outcome (list string)).
Context (Getwd : outcome string).
Context (rangeOrder : list (string * Dependency) -> list (string * Dependency)).

Local Abbreviation collect :=
  (collectExternalDependenciesFromData GetTSFileName GetModuleName Glob Getwd rangeOrder).
Local Abbreviation collect1 :=
  (Rev1.collectExternalDependenciesFromData GetTSFileName GetModuleName rangeOrder).
Local Abbreviation sourceFileOf' := (sourceFileOf GetTSFileName Glob Getwd).

(** C2, amended: when no package name of the registry contains the
    bar that separates package and file in the identifier, a run that
    returns without error has found an entry for every name and has
    appended to every file exactly as many records as its names have
    distinct (package, file) pairs.  Both revisions. *)
Theorem one_dependency_per_pair r filesData :
  (forall entries, rangeOrder entries ≡ₚ entries) ->
  barFree r ->
  (forall st, collect r filesData = (st, Ok ()) ->
     Forall (namesFound r) filesData /\ Forall2 (appendedCount r) filesData st.2) /\
  (forall st, collect1 r filesData = (st, Ok ()) ->
     Forall (namesFound r) filesData /\ Forall2 (appendedCount r) filesData st.2).
Proof.
  intros Hperm Hbar. split; intros st Hrun.
  - split; [by eapply collectFiles_found | by eapply collectFiles_count].
  - split; [by eapply collectFiles_found | by eapply collectFiles_count].
Qed.

(** C9: whatever the call returns, the registry it leaves is the one it
    was given, and every file keeps its key, its output name and its
    list of type names; its dependencies are the old ones with records
    appended.  Both revisions. *)
Theorem only_dependencies_appended r filesData :
  ((collect r filesData).1.1 = r /\
   Forall2 onlyAppended filesData (collect r filesData).1.2) /\
  ((collect1 r filesData).1.1 = r /\
   Forall2 onlyAppended filesData (collect1 r filesData).1.2).
Proof. split; apply collectFiles_frame. Qed.

Lemma collectFiles_missing sourceFileFor r filesData :
  Exists (nameMissing r) filesData ->
  (collectFiles GetModuleName rangeOrder sourceFileFor r filesData).2 <> Ok ().
Proof.
  intros Hmiss Hok.
  destruct (collectFiles _ _ _ r filesData) as [st result] eqn:Hrun. simpl in Hok. subst.
  apply collectFiles_found in Hrun.
  apply Exists_exists in Hmiss as (entry & Hin & Hmiss).
  apply Exists_exists in Hmiss as (typeName & Hname & Hnone).
  rewrite Forall_forall in Hrun. specialize (Hrun _ Hin).
  unfold namesFound in Hrun. rewrite Forall_forall in Hrun.
  destruct (Hrun _ Hname) as [typeInfo Hsome]. congruence.
Qed.

Lemma collectFiles_lookup_failure sourceFileFor r pre name fileData post before typeName after :
  ExternalDependingTypes fileData = before ++ typeName :: after ->
  Types r !! typeName = None ->
  reachesName GetModuleName rangeOrder sourceFileFor r pre fileData before ->
  (collectFiles GetModuleName rangeOrder sourceFileFor r (pre ++ (name, fileData) :: post)).2 =
    Fail (missingTypeError typeName).
Proof.
  intros Htypes Hnone [Hpre Hbefore].
  apply collectFiles_first_failure; [done|].
  unfold collectFile. rewrite Htypes, collectTypes_app.
  destruct (collectTypes _ _ r fileData before ∅) as [deps| |]; [|done|done].
  simpl. by rewrite Hnone.
Qed.

(** C8, amended: a run over files one of whose names has no entry in
    the registry never returns without error, and [Analyse] hands out
    no data.  The error of the lookup carries the name, also as
    [Analyse] wraps it; it is what the run returns when the files
    visited before are processed without failure and so are the names
    before the missing one in its own file.  Both revisions. *)
Theorem missing_type_is_fatal r filesData :
  (Exists (nameMissing r) filesData ->
     (collect r filesData).2 <> Ok () /\
     (collect1 r filesData).2 <> Ok () /\
     succeeded (Analyse GetTSFileName GetModuleName Glob Getwd rangeOrder r filesData) = false) /\
  (forall pre name fileData post before typeName after,
     filesData = pre ++ (name, fileData) :: post ->
     ExternalDependingTypes fileData = before ++ typeName :: after ->
     Types r !! typeName = None ->
     strings.Contains (Error (missingTypeError typeName)) typeName = true /\
     strings.Contains (Error (analysisError (missingTypeError typeName))) typeName = true /\
     (reachesName GetModuleName rangeOrder sourceFileOf' r pre fileData before ->
        (collect r filesData).2 = Fail (missingTypeError typeName) /\
        Analyse GetTSFileName GetModuleName Glob Getwd rangeOrder r filesData =
          Fail (analysisError (missingTypeError typeName))) /\
     (reachesName GetModuleName rangeOrder (relPathOf GetTSFileName) r pre fileData before ->
        (collect1 r filesData).2 = Fail (missingTypeError typeName))).
Proof.
  split.
  - intros Hmiss.
    pose proof (collectFiles_missing sourceFileOf' r filesData Hmiss) as Hne.
    split; [done|]. split; [by apply collectFiles_missing|].
    unfold Analyse, collectExternalDependenciesFromData.
    destruct (collectFiles _ _ _ r filesData) as [[r' data'] [[]| |]]; done.
  - intros pre name fileData post before typeName after -> Htypes Hnone.
    split; [apply Contains_middle|].
    split; [simpl; do 2 apply Contains_app_l; apply Contains_middle|].
    split.
    + intros Hreach.
      pose proof (collectFiles_lookup_failure sourceFileOf' r pre name fileData post
                    before typeName after Htypes Hnone Hreach) as Hfail.
      split; [exact Hfail|]. unfold Analyse, collectExternalDependenciesFromData.
      destruct (collectFiles _ _ _ r _) as [[r' data'] result]. simpl in Hfail. by subst.
    + intros Hreach. by eapply collectFiles_lookup_failure.
Qed.

End RunFacts.

(** ** Closed runs *)

(** C6, at the failing input: with root [/src] and alias [@gen], the
    file [app/src/f.proto] found at [/src/out/app/src/f.proto] is
    imported from [@gen/out/app@gen/f.pb]: the [/src] further down the
    path is rewritten as well.  The
    substitution of the specification's example comes out as stated. *)
Theorem alias_replaces_every_occurrence :
  (sampleRun (oneMatch "/src/out/app/src/f.proto") aliasRegistry
     [("b.proto", emptyFile "b.pb.ts" [".p.T"])]).1.2 =
    [("b.proto",
      {| TSFileName := "b.pb.ts";
         ExternalDependingTypes := [".p.T"];
         Dependencies := [{| ModuleIdentifier := "p:app/src/f.proto";
                             SourceFile := "@gen/out/app@gen/f.pb" |}] |})] /\
  strings.ReplaceAll "/abs/root/sub/file" "/abs/root" "@gen" = "@gen/sub/file".
Proof. split; by vm_compute. Qed.

(** C2 as stated fails twice over.  Two entries with different
    packages and files but one identifier, [a|b|c], make one record
    where there are two pairs; and a run that fails (here on a
    malformed search pattern) appends nothing at all. *)
Lemma pairs_merged_or_run_failed :
  ((sampleRun noGlob barRegistry [("x.proto", emptyFile "x.pb.ts" ["A"; "B"])]).2 = Ok () /\
   distinctPairs barRegistry ["A"; "B"] = 2%nat /\
   (sampleRun noGlob barRegistry [("x.proto", emptyFile "x.pb.ts" ["A"; "B"])]).1.2 =
     [("x.proto",
       {| TSFileName := "x.pb.ts";
          ExternalDependingTypes := ["A"; "B"];
          Dependencies := [{| ModuleIdentifier := "a|b:c"; SourceFile := "./c.pb" |}] |})]) /\
  (distinctPairs bracketRegistry [".p.T"] = 1%nat /\
   sampleRun badPattern bracketRegistry [("b.proto", emptyFile "b.pb.ts" [".p.T"])] =
     ((bracketRegistry, [("b.proto", emptyFile "b.pb.ts" [".p.T"])]),
      Fail (Wrap (New "syntax error in pattern")
                 "error looking up real path for proto file f[.proto"))).
Proof. repeat split; by vm_compute. Qed.

(** C8 as stated fails when another failure comes first: [.p.Missing]
    has no entry, but the search for the file of [.p.T], the name
    before it, fails on a malformed pattern, and the error returned
    does not mention [.p.Missing]. *)
Lemma earlier_failure_hides_missing_type :
  Types bracketRegistry !! ".p.Missing" = None /\
  sampleAnalyse badPattern bracketRegistry
    [("b.proto", emptyFile "b.pb.ts" [".p.T"; ".p.Missing"])] =
    Fail (Wrap (Wrap (New "syntax error in pattern")
                     "error looking up real path for proto file f[.proto")
               "error collecting external dependency information after analysis finished") /\
  strings.Contains
    (Error (Wrap (Wrap (New "syntax error in pattern")
                       "error looking up real path for proto file f[.proto")
                 "error collecting external dependency information after analysis finished"))
    ".p.Missing" = false.
Proof. repeat split; by vm_compute. Qed.

(** * The path round trip *)

(** ** Suffixes *)

Lemma substring_split (s : string) (m : nat) :
  (m <= String.length s)%nat ->
  s = String.substring 0 m s +:+ String.substring m (String.length s - m) s.
Proof.
  revert m. induction s as [|c s IH]; intros [|m] Hm; simpl in *; try lia.
  - done.
  - rewrite append_empty_l. f_equal. clear. induction s as [|d s IH]; [done|].
    simpl. by rewrite <- IH.
  - rewrite append_cons. f_equal. apply IH. lia.
Qed.

Lemma HasSuffix_inv (s suffix : string) :
  strings.HasSuffix s suffix = true -> exists p, s = p +:+ suffix.
Proof.
  unfold strings.HasSuffix. intros [Hlen Heq]%andb_true_iff.
  apply Nat.leb_le in Hlen. apply String.eqb_eq in Heq.
  exists (String.substring 0 (String.length s - String.length suffix) s).
  pose proof (substring_split s (String.length s - String.length suffix)) as Hsplit.
  replace (String.length s - (String.length s - String.length suffix))%nat
    with (String.length suffix) in Hsplit by lia.
  rewrite Heq in Hsplit. apply Hsplit. lia.
Qed.

Lemma removeTsSuffix_restore (x sf : string) :
  strings.HasSuffix x ".ts" = true -> removeTsSuffix x = Ok sf -> sf +:+ ".ts" = x.
Proof.
  intros [q ->]%HasSuffix_inv. rewrite removeTsSuffix_suffix. by intros [= ->].
Qed.

Lemma substring_full (s : string) : String.substring 0 (String.length s) s = s.
Proof. induction s as [|c s IH]; [done|]. simpl. by rewrite IH. Qed.

Lemma substring_skip (p t : string) (k : nat) :
  String.substring (String.length p) k (p +:+ t) = String.substring 0 k t.
Proof. induction p as [|c p IH]; [done|]. rewrite append_cons. simpl. apply IH. Qed.

Lemma HasSuffix_app (p suffix : string) : strings.HasSuffix (p +:+ suffix) suffix = true.
Proof.
  unfold strings.HasSuffix. rewrite length_append. apply andb_true_iff. split.
  - apply Nat.leb_le. lia.
  - apply String.eqb_eq.
    replace (String.length p + String.length suffix - String.length suffix)%nat
      with (String.length p) by lia.
    by rewrite substring_skip, substring_full.
Qed.

Lemma app_snoc_inv {A : Type} (l1 l2 init : list A) (x : A) :
  l2 <> [] -> l1 ++ l2 = init ++ [x] -> exists l2', l2 = l2' ++ [x].
Proof.
  intros Hne Heq. destruct (exists_last Hne) as (l2' & y & ->).
  rewrite app_assoc in Heq. apply app_inj_tail in Heq as [_ ->]. by exists l2'.
Qed.

(** Appending a string without separator extends the last element. *)
Lemma splitSep_append_noSep (q t : string) :
  noSep t ->
  exists init lastq,
    filepath.splitSep q = init ++ [lastq] /\
    filepath.splitSep (q +:+ t) = init ++ [lastq +:+ t].
Proof.
  intros Ht. induction q as [|c q (init & lastq & Hq & Hqt)].
  - exists [], "". split; [done|]. by rewrite !append_empty_l.
  - rewrite append_cons. simpl. rewrite Hq, Hqt.
    destruct (Ascii.eqb c filepath.Separator).
    + exists ("" :: init), lastq. done.
    + destruct init as [|e init]; simpl.
      * exists [], (String c lastq). done.
      * exists (String c e :: init), lastq. done.
Qed.

Lemma joinSep_snoc l e :
  exists p, filepath.joinSep (l ++ [e]) = p +:+ e.
Proof.
  destruct l as [|e' l].
  - by exists "".
  - exists (filepath.joinSep (e' :: l) +:+ "/").
    rewrite joinSep_app by done. by rewrite append_assoc.
Qed.

Lemma render_snoc rooted l e :
  exists p, filepath.render rooted (l ++ [e]) = p +:+ e.
Proof.
  destruct (joinSep_snoc l e) as [p Hp]. unfold filepath.render. destruct rooted.
  - exists (String "/" p). by rewrite Hp.
  - destruct l as [|e' l]; [by exists ""|]. by exists p.
Qed.

Lemma noSep_ts : noSep ".ts".
Proof. reflexivity. Qed.

Lemma noSep_dotdot : noSep "..".
Proof. reflexivity. Qed.

(** The last element of a cleaned path that ends in [.ts] ends in
    [.ts]. *)
Lemma render_suffix_last rooted elems :
  normal rooted elems ->
  strings.HasSuffix (filepath.render rooted elems) ".ts" = true ->
  exists init q, elems = init ++ [q +:+ ".ts"].
Proof.
  intros Hn Hs. pose proof (splitSep_render _ _ Hn) as Hsplit.
  destruct (HasSuffix_inv _ _ Hs) as [q Hq]. rewrite Hq in Hsplit.
  destruct (splitSep_append_noSep q ".ts" noSep_ts) as (init & lastq & _ & Hqt).
  rewrite Hqt in Hsplit.
  destruct elems as [|e es].
  - destruct rooted; by vm_compute in Hs.
  - destruct rooted.
    + destruct init as [|i init]; simpl in Hsplit.
      * by destruct es.
      * injection Hsplit as _ Hsplit. exists init, lastq. done.
    + exists init, lastq. done.
Qed.

(** ** Paths made of dots *)

Lemma noT_append s t : noT (s +:+ t) = noT s && noT t.
Proof.
  induction s as [|c s IH]; [done|]. rewrite append_cons. simpl.
  by rewrite IH, andb_assoc.
Qed.

Lemma noT_ups n : noT (filepath.joinSep (repeat ".." n)) = true.
Proof.
  induction n as [|[|n] IH]; [done|done|].
  change (repeat ".." (S (S n))) with (".." :: ".." :: repeat ".." n).
  rewrite joinSep_cons. rewrite noT_append. simpl. exact IH.
Qed.

Lemma noT_Contains s : noT s = true -> strings.Contains s ".ts" = false.
Proof.
  intros H. unfold strings.Contains. apply Z.leb_gt.
  induction s as [|c s IH]; [done|].
  simpl in H. apply andb_true_iff in H as [Hc Hs].
  rewrite Index_cons. specialize (IH Hs).
  assert (strings.HasPrefix (String c s) ".ts" = false) as ->.
  { cbn [strings.HasPrefix]. destruct s as [|d s]; [by rewrite andb_false_r|].
    cbn [strings.HasPrefix]. simpl in Hs. apply andb_true_iff in Hs as [Hd _].
    apply negb_true_iff in Hd. rewrite (Ascii.eqb_sym "t" d), Hd. by rewrite andb_false_r. }
  destruct (Z.ltb_spec (strings.Index s ".ts") 0); lia.
Qed.

Lemma withDotSlash_noT rel : noT rel = true -> noT (withDotSlash rel) = true.
Proof.
  intros H. unfold withDotSlash. destruct (strings.HasPrefix rel "../"); [done|].
  by rewrite noT_append, H.
Qed.

(** ** The round trip *)

Lemma no_dotdot_above rooted l st :
  normalStack rooted (rev l ++ st) -> head l <> Some ".." ->
  Forall (fun e => e <> "..") l.
Proof.
  intros Hst Hhead. destruct l as [|h l]; [constructor|].
  simpl in Hhead. constructor; [congruence|].
  apply Forall_forall. intros e He ->.
  apply list_elem_of_In, in_rev, list_elem_of_In in He.
  apply list_elem_of_split in He as (a & b & Hab).
  simpl in Hst. rewrite Hab, <- !app_assoc in Hst. simpl in Hst.
  apply normalStack_app_r in Hst. destruct Hst as (_ & _ & Hbelow & _).
  destruct (Hbelow eq_refl) as [_ Hall].
  apply Forall_app in Hall as [_ Hall]. apply Forall_cons in Hall as [Hh _]. congruence.
Qed.

Lemma fold_withDotSlash rooted rel out :
  fold_left (filepath.cleanStep rooted) (filepath.splitSep (withDotSlash rel)) out =
  fold_left (filepath.cleanStep rooted) (filepath.splitSep rel) out.
Proof.
  unfold withDotSlash. destruct (strings.HasPrefix rel "../"); [done|].
  change ("./" +:+ rel) with ("." +:+ String "/" rel). by rewrite splitSep_app_sep.
Qed.

(** Joined to the base, the relative path leads to the target. *)
Lemma Clean_base_rel rooted common brest trest :
  normal rooted (common ++ brest) -> normal rooted (common ++ trest) ->
  trest <> [] -> head brest <> Some ".." ->
  filepath.Clean
    (filepath.render rooted (common ++ brest) +:+
     String "/" (withDotSlash (filepath.joinSep (repeat ".." (length brest) ++ trest)))) =
  filepath.render rooted (common ++ trest).
Proof.
  intros Hb Ht Hne Hhead. rewrite Clean_render_app by done. f_equal.
  rewrite fold_withDotSlash, splitSep_joinSep.
  - rewrite fold_left_app, rev_app_distr.
    rewrite <- (length_rev brest), fold_cleanStep_up.
    + rewrite fold_cleanStep_normal_elems.
      * by rewrite <- rev_app_distr, rev_involutive.
      * rewrite <- rev_app_distr. apply Ht.
    + apply Forall_rev. destruct Hb as [Hb _]. rewrite rev_app_distr in Hb.
      by eapply no_dotdot_above.
  - by destruct (repeat ".." (length brest)), trest.
  - apply Forall_app. split.
    + apply Forall_forall. intros e He%list_elem_of_In%repeat_spec. subst. apply noSep_dotdot.
    + destruct Ht as [_ Ht]. by apply Forall_app in Ht as [_ ?].
Qed.

Lemma Rel_Clean_target basepath targpath rel :
  filepath.Rel basepath targpath = Ok rel ->
  filepath.Rel basepath (filepath.Clean targpath) = Ok rel.
Proof.
  unfold filepath.Rel. rewrite Clean_idempotent.
  destruct (String.eqb _ _); [done|].
  destruct (negb _); [done|]. destruct (filepath.relLoop _ _) as [[elem bs] ts].
  by destruct (String.eqb elem "..").
Qed.

(** [Clean] keeps the last element of a path that ends in [.ts]. *)
Lemma Clean_suffix p :
  strings.HasSuffix p ".ts" = true -> strings.HasSuffix (filepath.Clean p) ".ts" = true.
Proof.
  intros [q ->]%HasSuffix_inv.
  destruct (splitSep_append_noSep q ".ts" noSep_ts) as (init & lastq & _ & Hsplit).
  unfold filepath.Clean, filepath.cleanElems.
  rewrite eqb_neq_false by (destruct q; done).
  rewrite Hsplit, fold_left_app. cbn [fold_left].
  set (rooted := strings.HasPrefix _ _).
  set (out := fold_left _ init []).
  assert (forall e, (String.length e <= 2)%nat -> lastq +:+ ".ts" <> e) as Hlong.
  { intros e He Heq. rewrite <- Heq, length_append in He. simpl in He. lia. }
  rewrite cleanStep_name by (apply Hlong; simpl; lia).
  cbn [rev]. destruct (render_snoc rooted (rev out) (lastq +:+ ".ts")) as [p ->].
  rewrite <- append_assoc. apply HasSuffix_app.
Qed.

Section RoundTrip.

Context (GetTSFileName : string -> string).
Context (Glob : string -> outcome (list string)).
Context (Getwd : outcome string).

(** C4: for a target generated in this run whose output name ends in
    [.ts], the stored source file, with [.ts] put back and joined to
    the directory of the current file's output name, is the target's
    output name in its cleaned form, hence the output name itself when
    that is a cleaned path. *)
Theorem path_round_trip r fileData typeInfo sf :
  IsFileToGenerate r (File typeInfo) = true ->
  strings.HasSuffix (GetTSFileName (File typeInfo)) ".ts" = true ->
  sourceFileOf GetTSFileName Glob Getwd r fileData typeInfo = Ok sf ->
  filepath.Join [filepath.Dir (TSFileName fileData); sf +:+ ".ts"] =
    filepath.Clean (GetTSFileName (File typeInfo)) /\
  (filepath.Clean (GetTSFileName (File typeInfo)) = GetTSFileName (File typeInfo) ->
   filepath.Join [filepath.Dir (TSFileName fileData); sf +:+ ".ts"] =
     GetTSFileName (File typeInfo)).
Proof.
  intros Hrun Hsuffix Hsf.
  enough (filepath.Join [filepath.Dir (TSFileName fileData); sf +:+ ".ts"] =
          filepath.Clean (GetTSFileName (File typeInfo))) as Hjoin
    by (split; [done|by intros <-]).
  set (base := TSFileName fileData) in *.
  unfold sourceFileOf, importPath in Hsf. rewrite Hrun in Hsf. cbn [negb] in Hsf.
  fold base in Hsf. rewrite inRunSourceFile_eq in Hsf.
  destruct (filepath.Rel (filepath.Dir base) (GetTSFileName (File typeInfo)))
    as [rel| |] eqn:Hrel; simpl in Hsf; try done.
  change (filepath.ToSlash rel) with rel in Hsf.
  apply Rel_Clean_target in Hrel. apply Clean_suffix in Hsuffix.
  set (target := filepath.Clean (GetTSFileName (File typeInfo))) in *.
  (* both paths are cleaned paths *)
  destruct (Clean_normal (GetTSFileName (File typeInfo))) as (rt & lt & Ht & Hnt).
  fold target in Ht.
  unfold filepath.Dir in Hrel |- *.
  set (prefix := String.substring _ _ base) in *.
  destruct (Clean_normal prefix) as (rb & lb & Hb & Hnb).
  rewrite Hb, Ht in Hrel.
  assert (filepath.Join [filepath.Clean prefix; sf +:+ ".ts"] =
          filepath.Clean (filepath.Clean prefix +:+ String "/" (sf +:+ ".ts"))) as ->.
  { simpl. rewrite eqb_neq_false; [done|].
    rewrite Hb. apply render_nonempty. by eapply normal_nonempty. }
  rewrite Hb. pose proof Hsuffix as Hlast. rewrite Ht in Hlast.
  apply render_suffix_last in Hlast as (init & q & Hlt); [|done].
  assert (lt <> []) as Hne by (rewrite Hlt; by destruct init).
  destruct (Rel_normal _ _ _ _ _ Hnb Hnt Hne Hrel)
    as [->|(<- & common & brest & trest & Hlb & Hlt' & -> & Hshape)].
  { by vm_compute in Hsf. }
  destruct trest as [|t0 trest0].
  { (* nothing of the target is left: the path has no [.ts] to cut *)
    rewrite app_nil_r in Hsf.
    pose proof (noT_Contains _ (withDotSlash_noT _ (noT_ups (length brest)))) as Hno.
    apply removeTsSuffix_missing in Hno as [_ Hpanic]. congruence. }
  destruct Hshape as [|Hhead]; [done|].
  (* the relative path ends as the target does *)
  assert (strings.HasSuffix
            (withDotSlash (filepath.joinSep (repeat ".." (length brest) ++ t0 :: trest0)))
            ".ts" = true) as Hends.
  { assert (exists front, repeat ".." (length brest) ++ t0 :: trest0 = front ++ [q +:+ ".ts"])
      as [front ->].
    { rewrite Hlt' in Hlt.
      destruct (app_snoc_inv common (t0 :: trest0) init (q +:+ ".ts")) as (t' & Ht');
        [done|done|].
      rewrite Ht'. exists (repeat ".." (length brest) ++ t'). by rewrite app_assoc. }
    destruct (joinSep_snoc front (q +:+ ".ts")) as [p ->].
    unfold withDotSlash. destruct (strings.HasPrefix _ "../").
    - rewrite <- append_assoc. apply HasSuffix_app.
    - rewrite <- !append_assoc. apply HasSuffix_app. }
  rewrite (removeTsSuffix_restore _ _ Hends Hsf), Ht, Hlb, Hlt'.
  apply Clean_base_rel; [by rewrite <- Hlb|by rewrite <- Hlt'|done|done].
Qed.

End RoundTrip.

(** ** Witnesses *)

Lemma suffix_removed_witness :
  sourceFileOf sampleTSFileName noGlob sampleGetwd inRunRegistry
    (emptyFile "b.pb.ts" [".p1.Foo"]) (typeInfoIn "p1" "a.proto") = Ok "./a.pb" /\
  collectTypes sampleModuleName (sourceFileOf sampleTSFileName noGlob sampleGetwd)
    inRunRegistry (emptyFile "b.pb.ts" [".p1.Foo"]) [".p1.Foo"] ∅ =
    Ok (<[identifierOf (typeInfoIn "p1" "a.proto") :=
            {| ModuleIdentifier := sampleModuleName "p1" "a.proto";
               SourceFile := "./a.pb" |}]> ∅).
Proof.
  apply (suffix_removed_on_every_branch sampleTSFileName sampleModuleName noGlob sampleGetwd
           inRunRegistry (emptyFile "b.pb.ts" [".p1.Foo"]) ".p1.Foo"
           (typeInfoIn "p1" "a.proto") "./a.pb" ∅); by vm_compute.
Defined.

Lemma missing_suffix_witness :
  (strings.Contains "./a.pb.ts" ".ts" = false ->
     strings.LastIndex "./a.pb.ts" ".ts" = -1 /\
     sourceFileOf sampleTSFileName noGlob sampleGetwd inRunRegistry
       (emptyFile "b.pb.ts" [".p1.Foo"]) (typeInfoIn "p1" "a.proto") =
       Panic SliceBoundsOutOfRange) /\
  (strings.Contains "./a.pb.ts" ".ts" = true ->
     exists q, sourceFileOf sampleTSFileName noGlob sampleGetwd inRunRegistry
                 (emptyFile "b.pb.ts" [".p1.Foo"]) (typeInfoIn "p1" "a.proto") = Ok q).
Proof.
  apply (missing_suffix_panics sampleTSFileName noGlob sampleGetwd inRunRegistry
           (emptyFile "b.pb.ts" [".p1.Foo"]) (typeInfoIn "p1" "a.proto") "./a.pb.ts").
  by vm_compute.
Defined.

Lemma no_match_witness :
  (sampleRun noGlob aliasRegistry [("b.proto", emptyFile "b.pb.ts" [".p.T"])]).2 =
    Panic IndexOutOfRange.
Proof.
  apply (no_match_panics sampleTSFileName sampleModuleName noGlob sampleGetwd rangeInOrder
           aliasRegistry [] "b.proto" (emptyFile "b.pb.ts" [".p.T"]) [] [] ".p.T" []
           (typeInfoIn "p" "app/src/f.proto") ∅); by vm_compute.
Defined.



Lemma one_dependency_per_pair_witness :
  Forall (namesFound inRunRegistry)
    [("b.proto", emptyFile "b.pb.ts" [".p1.Foo"; ".p1.Foo"])] /\
  Forall2 (appendedCount inRunRegistry)
    [("b.proto", emptyFile "b.pb.ts" [".p1.Foo"; ".p1.Foo"])]
    (sampleRun noGlob inRunRegistry
       [("b.proto", emptyFile "b.pb.ts" [".p1.Foo"; ".p1.Foo"])]).1.2.
Proof.
  destruct (one_dependency_per_pair sampleTSFileName sampleModuleName noGlob sampleGetwd
              rangeInOrder inRunRegistry
              [("b.proto", emptyFile "b.pb.ts" [".p1.Foo"; ".p1.Foo"])]) as [Hrun _].
  - intros entries. reflexivity.
  - unfold barFree. compute_done.
  - apply Hrun. by vm_compute.
Defined.

Lemma missing_type_witness :
  (sampleRun noGlob inRunRegistry
     [("b.proto", emptyFile "b.pb.ts" [".p1.Foo"; ".p9.Missing"])]).2 =
    Fail (missingTypeError ".p9.Missing") /\
  sampleAnalyse noGlob inRunRegistry
     [("b.proto", emptyFile "b.pb.ts" [".p1.Foo"; ".p9.Missing"])] =
    Fail (analysisError (missingTypeError ".p9.Missing")).
Proof.
  destruct (missing_type_is_fatal sampleTSFileName sampleModuleName noGlob sampleGetwd
              rangeInOrder inRunRegistry
              [("b.proto", emptyFile "b.pb.ts" [".p1.Foo"; ".p9.Missing"])]) as [_ Hfail].
  destruct (Hfail [] "b.proto" (emptyFile "b.pb.ts" [".p1.Foo"; ".p9.Missing"]) []
              [".p1.Foo"] ".p9.Missing" []) as (_ & _ & Hrun & _); [done|done|done|].
  apply Hrun. split; [constructor|by vm_compute].
Defined.

Lemma path_round_trip_witness :
  filepath.Join [filepath.Dir "x/y/b.pb.ts"; "../z/a.pb" +:+ ".ts"] =
    filepath.Clean (sampleTSFileName "x/z/a.proto") /\
  (filepath.Clean (sampleTSFileName "x/z/a.proto") = sampleTSFileName "x/z/a.proto" ->
   filepath.Join [filepath.Dir "x/y/b.pb.ts"; "../z/a.pb" +:+ ".ts"] =
     sampleTSFileName "x/z/a.proto").
Proof.
  apply (path_round_trip sampleTSFileName noGlob sampleGetwd nestedRegistry
           (emptyFile "x/y/b.pb.ts" [".p1.Foo"]) (typeInfoIn "p1" "x/z/a.proto")
           "../z/a.pb"); by vm_compute.
Defined.

(** * Further properties

    What follows covers the rest of the file: the predicate in general,
    the names of nested types, the construction of a registry, [Analyse]
    from the request, and the records and paths of the resolver beyond
    the properties above. *)

(** ** The externality predicate, in general *)

(** X1: a type name is external to a package exactly when it starts
    with a dot and does not start with the dot and the package name;
    the first revision's predicate is the same function. *)
Theorem external_iff_prefixes (fqTypeName packageName : string) :
  (isExternalDependenciesOutsidePackage fqTypeName packageName = true <->
   strings.HasPrefix fqTypeName "." = true /\
   strings.HasPrefix fqTypeName ("." +:+ packageName) = false) /\
  Rev1.isExternalDependencies fqTypeName packageName =
    isExternalDependenciesOutsidePackage fqTypeName packageName.
Proof.
  split; [|done].
  pose proof (isExternal_false_iff fqTypeName packageName) as Hfalse.
  destruct (isExternalDependenciesOutsidePackage fqTypeName packageName);
    destruct (strings.HasPrefix fqTypeName ".");
    destruct (strings.HasPrefix fqTypeName ("." +:+ packageName)); intuition congruence.
Qed.

(** X2: a name that starts with the dot and the package name is never
    external, whatever follows the package name; and to the empty
    package name no name at all is external. *)
Theorem package_prefix_is_internal (fqTypeName packageName rest : string) :
  isExternalDependenciesOutsidePackage ("." +:+ packageName +:+ rest) packageName = false /\
  isExternalDependenciesOutsidePackage fqTypeName "" = false.
Proof.
  split.
  - apply isExternal_false_iff. left.
    rewrite <- append_assoc. apply HasPrefix_app.
  - apply isExternal_false_iff.
    destruct (strings.HasPrefix fqTypeName ".") eqn:E; [by left|by right].
Qed.

(** ** Names of nested types *)

Lemma Join_cons (e e' : string) (es : list string) (sep : string) :
  strings.Join (e :: e' :: es) sep = e +:+ sep +:+ strings.Join (e' :: es) sep.
Proof. reflexivity. Qed.

Lemma Join_snoc (elems : list string) (e sep : string) :
  elems <> [] ->
  strings.Join (elems ++ [e]) sep = strings.Join elems sep +:+ sep +:+ e.
Proof.
  induction elems as [|e0 [|e1 es] IH]; intros Hne; [done|done|].
  change ((e0 :: e1 :: es) ++ [e]) with (e0 :: e1 :: (es ++ [e])).
  rewrite !Join_cons. change (e1 :: es ++ [e]) with ((e1 :: es) ++ [e]).
  rewrite IH by done. by rewrite !append_assoc.
Qed.

Lemma Join_empty_sep_app (l1 l2 : list string) :
  strings.Join (l1 ++ l2) "" = strings.Join l1 "" +:+ strings.Join l2 "".
Proof.
  induction l1 as [|e [|e' es] IH].
  - by rewrite append_empty_l.
  - destruct l2 as [|e2 l2]; [by rewrite append_empty_r|].
    change ([e] ++ e2 :: l2) with (e :: e2 :: l2). rewrite Join_cons.
    by rewrite append_empty_l.
  - change ((e :: e' :: es) ++ l2) with (e :: e' :: (es ++ l2)).
    rewrite !Join_cons, !append_empty_l. change (e' :: es ++ l2) with ((e' :: es) ++ l2).
    by rewrite IH, append_assoc.
Qed.

Lemma getParentPrefixes_cons (p : string) (parents : list string) :
  getParentPrefixes (p :: parents) = p +:+ String "." (getParentPrefixes parents).
Proof.
  unfold getParentPrefixes. destruct parents as [|p' parents]; [done|].
  rewrite Join_cons. simpl length. cbn [Nat.ltb Nat.leb].
  by rewrite !append_assoc.
Qed.

(** X3: without parents the prefix is empty, and one more level of
    nesting appends the name of that level and a dot. *)
Theorem parent_prefix_extends (parents : list string) (p : string) :
  getParentPrefixes [] = "" /\
  getParentPrefixes (parents ++ [p]) = getParentPrefixes parents +:+ p +:+ ".".
Proof.
  split; [done|]. unfold getParentPrefixes.
  rewrite length_app. simpl. replace (0 <? length parents + 1)%nat with true
    by (symmetry; apply Nat.ltb_lt; lia).
  destruct parents as [|e es]; [done|].
  rewrite Join_snoc by done. simpl length. cbn [Nat.ltb Nat.leb].
  by rewrite !append_assoc.
Qed.

Lemma split_at_char_inj (ch : ascii) (p1 f1 p2 f2 : string) :
  strings.Contains p1 (String ch "") = false -> strings.Contains p2 (String ch "") = false ->
  p1 +:+ String ch f1 = p2 +:+ String ch f2 -> p1 = p2 /\ f1 = f2.
Proof.
  revert p2. induction p1 as [|c p1 IH]; intros [|d p2] H1 H2 Heq.
  - cbn in Heq. by simplify_eq.
  - cbn in Heq. injection Heq as <- _. by rewrite Contains_head in H2.
  - cbn in Heq. injection Heq as -> _. by rewrite Contains_head in H1.
  - cbn in Heq. injection Heq as -> Heq.
    apply Contains_tail in H1, H2. destruct (IH p2 H1 H2 Heq) as [-> ->]; done.
Qed.

(** X4: the prefix tells nesting paths apart: two lists of parents
    whose names have no dot in them and whose prefixes are equal are the
    same list. *)
Theorem parent_prefixes_tell_paths_apart (parents parents' : list string) :
  Forall (fun p => strings.Contains p "." = false) parents ->
  Forall (fun p => strings.Contains p "." = false) parents' ->
  getParentPrefixes parents = getParentPrefixes parents' ->
  parents = parents'.
Proof.
  intros H. revert parents'. induction H as [|p ps Hp _ IH]; intros [|q qs] H' Heq.
  - done.
  - rewrite getParentPrefixes_cons in Heq. destruct q; done.
  - rewrite getParentPrefixes_cons in Heq. destruct p; done.
  - apply Forall_cons in H' as [Hq H'].
    rewrite !getParentPrefixes_cons in Heq.
    destruct (split_at_char_inj "." _ _ _ _ Hp Hq Heq) as [-> Hrest].
    f_equal. by apply IH.
Qed.

(** X5: the package-level identifier is the concatenation of the
    parents' names and the name, so that inner parents may as well be
    part of the name: the boundaries between the levels are not kept. *)
Theorem identifier_concatenates (parents inner : list string) (name : string) :
  getNameOfPackageLevelIdentifier [] name = name /\
  getNameOfPackageLevelIdentifier (parents ++ inner) name =
    getNameOfPackageLevelIdentifier parents (getNameOfPackageLevelIdentifier inner name).
Proof.
  split; [done|]. unfold getNameOfPackageLevelIdentifier.
  by rewrite Join_empty_sep_app, append_assoc.
Qed.

(** ** More about cleaned paths *)

Lemma Clean_unfold p :
  p <> "" ->
  filepath.Clean p =
    filepath.render (filepath.IsAbs p)
      (filepath.cleanElems (filepath.IsAbs p) (filepath.splitSep p)) /\
  normal (filepath.IsAbs p) (filepath.cleanElems (filepath.IsAbs p) (filepath.splitSep p)).
Proof.
  intros Hne. split.
  - unfold filepath.Clean. by rewrite eqb_neq_false.
  - unfold filepath.cleanElems. split.
    + rewrite rev_involutive. by apply fold_cleanStep_normal.
    + apply Forall_rev. apply fold_cleanStep_noSep; [constructor|apply splitSep_noSep].
Qed.

Lemma Clean_nonempty p : filepath.Clean p <> "".
Proof.
  destruct (Clean_normal p) as (rooted & elems & -> & Hn).
  apply render_nonempty. by eapply normal_nonempty.
Qed.

(** [Clean] keeps an absolute path absolute and a relative one
    relative. *)
Lemma IsAbs_Clean p : filepath.IsAbs (filepath.Clean p) = filepath.IsAbs p.
Proof.
  destruct (decide (p = "")) as [->|Hne]; [done|].
  destruct (Clean_unfold p Hne) as [-> Hn].
  unfold filepath.IsAbs at 1. change (String filepath.Separator "") with "/".
  by apply render_rooted.
Qed.

Lemma IsAbs_append p x : p <> "" -> filepath.IsAbs (p +:+ x) = filepath.IsAbs p.
Proof. intros Hne. by apply HasPrefix_append_nonempty. Qed.

Lemma Clean_rooted p rooted elems :
  filepath.Clean p = filepath.render rooted elems -> normal rooted elems ->
  rooted = filepath.IsAbs p.
Proof.
  intros Hc Hn. rewrite <- IsAbs_Clean, Hc. unfold filepath.IsAbs.
  change (String filepath.Separator "") with "/". by rewrite render_rooted.
Qed.

(** [Clean] reads what follows a path from where the path has led. *)
Lemma Clean_app p x :
  p <> "" ->
  filepath.Clean (p +:+ String "/" x) =
  filepath.render (filepath.IsAbs p)
    (rev (fold_left (filepath.cleanStep (filepath.IsAbs p)) (filepath.splitSep x)
            (rev (filepath.cleanElems (filepath.IsAbs p) (filepath.splitSep p))))).
Proof.
  intros Hne.
  assert (p +:+ String "/" x <> "") as Hne' by (destruct p; done).
  destruct (Clean_unfold _ Hne') as [-> _].
  rewrite IsAbs_append by done.
  unfold filepath.cleanElems.
  by rewrite splitSep_app_sep, fold_left_app, rev_involutive.
Qed.

Lemma Clean_app_Clean p x :
  p <> "" ->
  filepath.Clean (filepath.Clean p +:+ String "/" x) = filepath.Clean (p +:+ String "/" x).
Proof.
  intros Hne. rewrite (Clean_app p x Hne).
  destruct (Clean_unfold p Hne) as [-> Hn].
  by rewrite Clean_render_app.
Qed.

Lemma Clean_app_dot p : p <> "" -> filepath.Clean (p +:+ "/.") = filepath.Clean p.
Proof.
  intros Hne. change "/." with (String "/" "."). rewrite Clean_app by done.
  destruct (Clean_unfold p Hne) as [-> _].
  change (filepath.splitSep ".") with ["."]. cbn [fold_left].
  by rewrite cleanStep_dot, rev_involutive.
Qed.

Lemma Clean_dot_slash rel :
  rel <> "" -> filepath.IsAbs rel = false ->
  filepath.Clean ("." +:+ String "/" rel) = filepath.Clean rel.
Proof.
  intros Hne Hrel. rewrite Clean_app by done.
  destruct (Clean_unfold rel Hne) as [-> _]. rewrite Hrel.
  by change (filepath.IsAbs ".") with false.
Qed.

Lemma Join_two a b : a <> "" -> filepath.Join [a; b] = filepath.Clean (a +:+ String "/" b).
Proof. intros Hne. simpl. by rewrite eqb_neq_false. Qed.

Lemma Join_Dir base x :
  filepath.Join [filepath.Dir base; x] =
  filepath.Clean (filepath.Clean (filepath.Dir base) +:+ String "/" x).
Proof. rewrite Join_two by apply Clean_nonempty. by rewrite Dir_clean. Qed.

Lemma IsAbs_substring (s : string) (n : nat) :
  filepath.IsAbs (String.substring 0 n s) = filepath.IsAbs s && (0 <? n)%nat.
Proof.
  destruct s as [|c s]; [by destruct n|]. destruct n as [|n]; simpl.
  - by rewrite andb_false_r.
  - unfold filepath.IsAbs. change (String filepath.Separator "") with (String "/" "").
    rewrite !HasPrefix_char. by rewrite andb_true_r.
Qed.

(** The directory of an absolute path is absolute, that of a relative
    path relative. *)
Lemma IsAbs_Dir base : filepath.IsAbs (filepath.Dir base) = filepath.IsAbs base.
Proof.
  unfold filepath.Dir. rewrite IsAbs_Clean, IsAbs_substring.
  destruct (filepath.IsAbs base) eqn:Habs; [|done]. simpl.
  apply Nat.ltb_lt.
  change (String filepath.Separator "") with "/".
  destruct base as [|c base]; [done|].
  rewrite LastIndex_cons. unfold filepath.IsAbs in Habs.
  change (String filepath.Separator "") with "/" in Habs. rewrite Habs.
  pose proof (LastIndex_range base "/").
  destruct (Z.leb_spec 0 (strings.LastIndex base "/")); lia.
Qed.

Lemma elems_in_splitSep rooted elems e :
  normal rooted elems -> e ∈ elems -> e ∈ filepath.splitSep (filepath.render rooted elems).
Proof.
  intros Hn He. rewrite splitSep_render by done.
  destruct elems as [|e0 es]; [by apply not_elem_of_nil in He|].
  destruct rooted; [by apply list_elem_of_further|done].
Qed.

Lemma render_inj rb rt lb lt :
  normal rb lb -> normal rt lt ->
  filepath.render rb lb = filepath.render rt lt -> rb = rt /\ lb = lt.
Proof.
  intros Hb Ht Heq.
  assert (rb = rt) as <-.
  { rewrite <- (render_rooted rb lb Hb), <- (render_rooted rt lt Ht). by rewrite Heq. }
  split; [done|].
  pose proof (splitSep_render _ _ Hb) as H1. pose proof (splitSep_render _ _ Ht) as H2.
  rewrite Heq, H2 in H1.
  apply normal_Forall in Hb, Ht.
  destruct rb, lb as [|eb lb], lt as [|et lt]; simplify_eq; try done;
    repeat match goal with
           | H : Forall _ (_ :: _) |- _ => apply Forall_cons in H as [(? & ? & _) _]
           end; done.
Qed.

Lemma normalStack_push_names rooted names st :
  normalStack rooted st -> Forall isName names -> normalStack rooted (names ++ st).
Proof.
  intros Hst. induction 1 as [|e names (_ & ? & ? & ?) _ IH]; [done|].
  simpl. split_and!; try done.
Qed.

Lemma normal_app_names rooted elems names :
  normal rooted elems -> Forall isName names -> normal rooted (elems ++ names).
Proof.
  intros [Hst Hns] Hnames. split.
  - rewrite rev_app_distr. apply normalStack_push_names; [done|]. by apply Forall_rev.
  - apply Forall_app. split; [done|]. eapply Forall_impl; [exact Hnames|]. by intros e [? _].
Qed.

(** A [..] comes before every name of a cleaned path. *)
Lemma normal_no_dotdot_after rooted l1 l2 e :
  normal rooted (l1 ++ l2) -> e ∈ l1 -> e <> ".." -> Forall (fun x => x <> "..") l2.
Proof.
  intros [Hst _] He Hne. apply Forall_forall. intros x Hx ->.
  apply list_elem_of_split in Hx as (a & b & ->).
  rewrite !rev_app_distr in Hst. simpl in Hst. rewrite <- !app_assoc in Hst.
  apply normalStack_app_r in Hst. destruct Hst as (_ & _ & Hbelow & _).
  destruct (Hbelow eq_refl) as [_ Hall]. rewrite Forall_forall in Hall.
  apply Hne, Hall. rewrite !elem_of_app. right. right.
  apply list_elem_of_In, (proj1 (in_rev l1 e)). by apply list_elem_of_In.
Qed.

Lemma joinSep_relative l :
  l <> [] -> Forall (fun e => e <> "" /\ noSep e) l ->
  filepath.joinSep l <> "" /\ filepath.IsAbs (filepath.joinSep l) = false.
Proof.
  intros Hne Hl. destruct l as [|e es]; [done|].
  apply Forall_cons in Hl as [[He Hns] _].
  assert (filepath.IsAbs (filepath.joinSep (e :: es)) = false) as Habs.
  { unfold filepath.IsAbs. change (String filepath.Separator "") with "/".
    rewrite joinSep_head by done. destruct e as [|c e]; [done|].
    apply noSep_head in Hns. change "/" with (String "/" "").
    rewrite HasPrefix_char. apply Ascii.eqb_neq. congruence. }
  split; [|done]. destruct es as [|e' es]; [by rewrite joinSep_one|].
  rewrite joinSep_cons. destruct e; [done|]. by rewrite append_cons.
Qed.

(** Names joined start neither with [./] nor with [../]. *)
Lemma joinSep_names_not_explicit names :
  names <> [] -> Forall isName names ->
  explicitlyRelative (filepath.joinSep names) = false.
Proof.
  intros Hne Hnames.
  assert (filepath.splitSep (filepath.joinSep names) = names) as Hsplit.
  { apply splitSep_joinSep; [done|]. eapply Forall_impl; [exact Hnames|]. by intros e [? _]. }
  destruct names as [|e es]; [done|]. apply Forall_cons in Hnames as [(_ & _ & Hd & Hdd) _].
  unfold explicitlyRelative. apply orb_false_iff. split.
  - destruct (strings.HasPrefix _ "./") eqn:E; [|done].
    apply HasPrefix_inv in E as [t Ht]. change ("./" +:+ t) with ("." +:+ String "/" t) in Ht.
    rewrite Ht, splitSep_app_sep in Hsplit. by injection Hsplit as <-.
  - destruct (strings.HasPrefix _ "../") eqn:E; [|done].
    apply HasPrefix_inv in E as [t Ht]. change ("../" +:+ t) with (".." +:+ String "/" t) in Ht.
    rewrite Ht, splitSep_app_sep in Hsplit. by injection Hsplit as <-.
Qed.

(** ** A new registry *)

Section ConstructionFacts.

Context (Getwd : outcome string).

(** With an absolute working directory, [Abs] returns an absolute,
    cleaned path. *)
Lemma Abs_absolute p a :
  (forall wd, Getwd = Ok wd -> filepath.IsAbs wd = true) ->
  Abs Getwd p = Ok a -> filepath.IsAbs a = true /\ filepath.Clean a = a.
Proof.
  intros Hwd. unfold Abs. destruct (filepath.IsAbs p) eqn:Hp.
  - intros [= <-]. by rewrite IsAbs_Clean, Clean_idempotent.
  - destruct Getwd as [wd| |] eqn:Hget; [|done|done].
    unfold mbind, outcome_bind. intros [= <-].
    specialize (Hwd wd eq_refl).
    assert (wd <> "") as Hne by (by destruct wd).
    rewrite eqb_neq_false by done. change filepath.Separator with "/"%char.
    by rewrite IsAbs_Clean, IsAbs_append, Clean_idempotent.
Qed.

Lemma NewRegistry_eq paramsMap :
  NewRegistry Getwd paramsMap =
  (root ← (if filepath.IsAbs (rootParam paramsMap) then Ok (rootParam paramsMap)
           else wrapf (wrapf (Abs Getwd (rootParam paramsMap))
                         ("error turning path " +:+ rootParam paramsMap +:+
                          " into absolute path"))
                      "error getting common import root information");
   Ok {| Types := ∅; FilesToGenerate := ∅; TSImportRoot := root;
         TSImportRootAlias := aliasParam paramsMap |}).
Proof.
  unfold NewRegistry, getTSImportRootInformation, rootParam, aliasParam, path.IsAbs.
  destruct (paramsMap !! TSImportRootParamsKey) as [root|]; simpl.
  - destruct (filepath.IsAbs root); simpl; [done|].
    destruct (Abs Getwd root); simpl; try done.
  - destruct (Abs Getwd "."); simpl; try done.
Qed.

(** X6: when the working directory is an absolute path, the import
    root of every registry [NewRegistry] returns is absolute: the given
    root as it is when it is absolute, a cleaned path otherwise. *)
Theorem new_registry_root_is_absolute paramsMap r :
  (forall wd, Getwd = Ok wd -> filepath.IsAbs wd = true) ->
  NewRegistry Getwd paramsMap = Ok r ->
  filepath.IsAbs (TSImportRoot r) = true /\
  (filepath.IsAbs (rootParam paramsMap) = true -> TSImportRoot r = rootParam paramsMap) /\
  (filepath.IsAbs (rootParam paramsMap) = false ->
     filepath.Clean (TSImportRoot r) = TSImportRoot r).
Proof.
  intros Hwd. rewrite NewRegistry_eq.
  destruct (filepath.IsAbs (rootParam paramsMap)) eqn:Hp; simpl.
  - intros [= <-]. simpl. done.
  - destruct (Abs Getwd (rootParam paramsMap)) as [a| |] eqn:Ha; simpl; try done.
    intros [= <-]. simpl. destruct (Abs_absolute _ _ Hwd Ha) as [? ?]. done.
Qed.

(** X7: without a [ts_import_root] parameter the import root is the
    working directory, cleaned; the registry starts without types and
    without files to generate, and with the alias given or none. *)
Theorem new_registry_defaults_to_working_directory paramsMap wd :
  paramsMap !! TSImportRootParamsKey = None ->
  Getwd = Ok wd -> wd <> "" ->
  NewRegistry Getwd paramsMap =
    Ok {| Types := ∅; FilesToGenerate := ∅;
          TSImportRoot := filepath.Clean wd;
          TSImportRootAlias := aliasParam paramsMap |}.
Proof.
  intros Hnone Hget Hne. rewrite NewRegistry_eq. unfold rootParam. rewrite Hnone. simpl.
  unfold Abs. simpl. rewrite Hget. simpl. rewrite eqb_neq_false by done.
  change (filepath.joinSep [wd; "."]) with (wd +:+ "/."). by rewrite Clean_app_dot.
Qed.

(** X8: [NewRegistry] returns an error exactly when the root, given
    or defaulted, is not absolute and the working directory cannot be
    determined; the error is that of [os.Getwd], wrapped twice, and
    names the root. *)
Theorem new_registry_failure paramsMap e :
  NewRegistry Getwd paramsMap = Fail e <->
  filepath.IsAbs (rootParam paramsMap) = false /\
  exists cause,
    Getwd = Fail cause /\
    e = Wrap (Wrap cause ("error turning path " +:+ rootParam paramsMap +:+
                          " into absolute path"))
             "error getting common import root information".
Proof.
  rewrite NewRegistry_eq. unfold Abs.
  destruct (filepath.IsAbs (rootParam paramsMap)) eqn:Hp; simpl.
  - split; [done|]. by intros [? _].
  - destruct Getwd as [wd|cause|p]; simpl.
    + split; [done|]. by intros [_ (? & ? & _)].
    + split.
      * intros [= <-]. eauto.
      * intros [_ (cause' & [= <-] & ->)]. done.
    + split; [done|]. by intros [_ (? & ? & _)].
Qed.

End ConstructionFacts.

(** ** [Analyse], from the request *)

Lemma mark_lookup (names : list string) (files : gmap string bool) (name : string) :
  foldl (fun files f => <[f := true]> files) files names !! name =
  if bool_decide (name ∈ names) then Some true else files !! name.
Proof.
  revert files. induction names as [|f names IH]; intros files; cbn [foldl].
  - case_bool_decide as H; [|done]. by apply not_elem_of_nil in H.
  - rewrite IH. repeat case_bool_decide; try done.
    + destruct H0. by apply list_elem_of_further.
    + apply elem_of_cons in H0 as [->|?]; [|done]. by rewrite lookup_insert_eq.
    + rewrite lookup_insert_ne; [done|]. intros <-. apply H0, list_elem_of_here.
Qed.

Lemma onlyAppended_keys before after :
  Forall2 onlyAppended before after -> after.*1 = before.*1.
Proof.
  induction 1 as [|b a bs as' (Hk & _) _ IH]; [done|]. csimpl. by rewrite Hk, IH.
Qed.

Section AnalysisFacts.

Context {FileDescriptorProto : Type}.
Context (GetName : FileDescriptorProto -> string).
Context (analyseFile : Registry -> FileDescriptorProto -> Registry * FileData).
Context (rangeFiles : list (string * FileData) -> list (string * FileData)).
Context (GetTSFileName : string -> string).
Context (GetModuleName : string -> string -> string).
Context (Glob : string -> outcome (list string)).
Context (Getwd : outcome string).
Context (rangeOrder : list (string * Dependency) -> list (string * Dependency)).

Local Abbreviation analyseFiles' := (analyseFiles GetName analyseFile).
Local Abbreviation AnalyseRequest' :=
  (AnalyseRequest GetName analyseFile rangeFiles GetTSFileName GetModuleName Glob Getwd
     rangeOrder).

Lemma IsFileToGenerate_mark r names name :
  IsFileToGenerate (markFilesToGenerate r names) name = true <-> name ∈ names.
Proof.
  unfold IsFileToGenerate, markFilesToGenerate. simpl. rewrite mark_lookup.
  destruct (decide (name ∈ names)) as [Hin|Hnin].
  - by rewrite bool_decide_eq_true_2.
  - rewrite bool_decide_eq_false_2 by done. by rewrite lookup_empty.
Qed.

Lemma analyseFiles_FilesToGenerate r files data :
  (forall r f, FilesToGenerate (analyseFile r f).1 = FilesToGenerate r) ->
  FilesToGenerate (analyseFiles' r files data).1 = FilesToGenerate r.
Proof.
  intros Hkeep. revert r data. induction files as [|f rest IH]; intros r data; simpl; [done|].
  specialize (Hkeep r f). destruct (analyseFile r f) as [r' fileData]. simpl in Hkeep.
  by rewrite IH.
Qed.

Lemma analyseFiles_dom r files data :
  dom (analyseFiles' r files data).2 = dom data ∪ list_to_set (GetName <$> files).
Proof.
  revert r data. induction files as [|f rest IH]; intros r data; simpl.
  - by rewrite (right_id_L ∅ (∪)).
  - destruct (analyseFile r f) as [r' fileData]. rewrite IH, dom_insert_L.
    rewrite (assoc_L (∪)). f_equal. apply (comm_L (∪)).
Qed.

Lemma AnalyseRequest_registry r req :
  (AnalyseRequest' r req).1 =
  (analyseFiles' (markFilesToGenerate r (FileToGenerate req)) (ProtoFile req) ∅).1.
Proof.
  unfold AnalyseRequest.
  by destruct (analyseFiles _ _ _ (ProtoFile req) ∅) as [r' data].
Qed.

(** X9: when the analysis of a file leaves [FilesToGenerate] alone,
    the registry [Analyse] leaves behind counts a file as one to
    generate exactly when the request lists it, whatever the registry
    held before the call. *)
Theorem requested_files_are_generated r req name :
  (forall r f, FilesToGenerate (analyseFile r f).1 = FilesToGenerate r) ->
  IsFileToGenerate (AnalyseRequest' r req).1 name = true <-> name ∈ FileToGenerate req.
Proof.
  intros Hkeep. rewrite AnalyseRequest_registry.
  rewrite <- (IsFileToGenerate_mark r (FileToGenerate req) name).
  unfold IsFileToGenerate. by rewrite analyseFiles_FilesToGenerate.
Qed.

(** X10: the map [Analyse] returns has the names of the request's
    files as its keys, one entry for every name; each entry is the
    record the analysis made for that name (the last one when a name
    occurs twice), with nothing but dependencies appended. *)
Theorem analysed_files_keyed_by_name r req data' :
  (forall entries, rangeFiles entries ≡ₚ entries) ->
  (AnalyseRequest' r req).2 = Ok data' ->
  let data := (analyseFiles' (markFilesToGenerate r (FileToGenerate req)) (ProtoFile req) ∅).2 in
  dom data' = list_to_set (GetName <$> ProtoFile req) /\
  forall name fileData',
    data' !! name = Some fileData' ->
    exists fileData, data !! name = Some fileData /\
                     onlyAppended (name, fileData) (name, fileData').
Proof.
  intros Hperm. unfold AnalyseRequest.
  pose proof (analyseFiles_dom (markFilesToGenerate r (FileToGenerate req)) (ProtoFile req) ∅)
    as Hdom.
  destruct (analyseFiles _ _ _ (ProtoFile req) ∅) as [r' data]. simpl in Hdom |- *.
  unfold Analyse, collectExternalDependenciesFromData.
  pose proof (collectFiles_frame GetModuleName rangeOrder
                (sourceFileOf GetTSFileName Glob Getwd) r' (rangeFiles (map_to_list data)))
    as [_ Hframe].
  destruct (collectFiles _ _ _ r' _) as [[r'' result] [[]| |]]; simpl in *; try done.
  intros [= <-].
  pose proof (onlyAppended_keys _ _ Hframe) as Hkeys.
  assert (NoDup result.*1) as Hnodup.
  { rewrite Hkeys, (Hperm _). apply NoDup_fst_map_to_list. }
  split.
  - rewrite dom_empty_L, (left_id_L ∅ (∪)) in Hdom.
    rewrite dom_list_to_map_L, Hkeys, <- Hdom. apply set_eq. intros x.
    rewrite elem_of_dom, elem_of_list_to_set, list_elem_of_fmap. split.
    + intros ([k v] & -> & Hin). rewrite (Hperm _) in Hin.
      apply elem_of_map_to_list in Hin. eauto.
    + intros [v Hv]. exists (x, v). split; [done|].
      rewrite (Hperm _). by apply elem_of_map_to_list.
  - intros name fileData' Hlook.
    apply elem_of_list_to_map in Hlook; [|done].
    apply list_elem_of_lookup in Hlook as [i Hi].
    destruct (Forall2_lookup_r _ _ _ _ _ Hframe Hi) as ([name0 fileData] & Hb & Happ).
    assert (name0 = name) as -> by (destruct Happ as [Hk _]; done).
    exists fileData. split; [|done].
    apply elem_of_map_to_list. rewrite <- (Hperm _). by eapply list_elem_of_lookup_2.
Qed.

End AnalysisFacts.

(** ** The loops, record by record *)

Section RecordFacts.

Context (GetModuleName : string -> string -> string).
Context (rangeOrder : list (string * Dependency) -> list (string * Dependency)).
Context (sourceFileFor : Registry -> FileData -> TypeInformation -> outcome string).

Local Abbreviation collectTypes' := (collectTypes GetModuleName sourceFileFor).
Local Abbreviation collectFile' := (collectFile GetModuleName rangeOrder sourceFileFor).
Local Abbreviation collectFiles' := (collectFiles GetModuleName rangeOrder sourceFileFor).
Local Abbreviation recordOf' := (recordOf GetModuleName sourceFileFor).

(** A run succeeds exactly when every file can be processed. *)
Lemma collectFiles_ok_iff r filesData :
  (collectFiles' r filesData).2 = Ok () <->
  Forall (fun entry : string * FileData => succeeded (collectFile' r entry.2) = true) filesData.
Proof.
  induction filesData as [|[name fileData] rest IH]; simpl.
  - split; [constructor|done].
  - rewrite Forall_cons. simpl.
    destruct (collectFile' r fileData) as [fileData'| |]; simpl.
    + destruct (collectFiles' r rest) as [[r' rest'] result]. simpl in *.
      rewrite IH. tauto.
    + split; [done|]. by intros [? _].
    + split; [done|]. by intros [? _].
Qed.

Lemma collectFiles_ok_result r filesData :
  (collectFiles' r filesData).2 = Ok () ->
  (collectFiles' r filesData).1.2 = processed (collectFile' r) <$> filesData.
Proof.
  induction filesData as [|[name fileData] rest IH]; simpl; [done|].
  unfold processed at 1. simpl.
  destruct (collectFile' r fileData) as [fileData'| |]; simpl; try done.
  destruct (collectFiles' r rest) as [[r' rest'] result]. simpl in *.
  intros H. by rewrite IH.
Qed.

Lemma collectFiles_order r filesData filesData' :
  filesData ≡ₚ filesData' ->
  ((collectFiles' r filesData).2 = Ok () <-> (collectFiles' r filesData').2 = Ok ()) /\
  ((collectFiles' r filesData).2 = Ok () ->
   (collectFiles' r filesData).1.2 ≡ₚ (collectFiles' r filesData').1.2).
Proof.
  intros Hperm.
  assert ((collectFiles' r filesData).2 = Ok () <-> (collectFiles' r filesData').2 = Ok ())
    as Hiff by (rewrite !collectFiles_ok_iff; by rewrite Hperm).
  split; [done|]. intros Hok.
  rewrite !collectFiles_ok_result by tauto. by rewrite Hperm.
Qed.

(** The invariant of the inner loop: every record of the map is made
    for a name of the list, under the identifier of its type. *)
Lemma collectTypes_records r fileData all typeNames deps deps' :
  (forall typeName, typeName ∈ typeNames -> typeName ∈ all) ->
  map_Forall (recordOf' r fileData all) deps ->
  collectTypes' r fileData typeNames deps = Ok deps' ->
  map_Forall (recordOf' r fileData all) deps'.
Proof.
  revert deps. induction typeNames as [|typeName rest IH]; intros deps Hall Hdeps H; simpl in H.
  - by simplify_eq.
  - destruct (Types r !! typeName) as [typeInfo|] eqn:Hty; [|done].
    assert (forall n, n ∈ rest -> n ∈ all) as Hrest
      by (intros n Hn; apply Hall; by apply list_elem_of_further).
    destruct (deps !! identifierOf typeInfo) as [d|] eqn:Hid; [by eapply IH|].
    destruct (sourceFileFor r fileData typeInfo) as [sf| |] eqn:Hsf; simpl in H; try done.
    eapply IH; [done| |exact H].
    apply map_Forall_insert; [done|]. split; [|done].
    exists typeName, typeInfo. repeat split; try done. apply Hall, list_elem_of_here.
Qed.

Lemma collectTypes_keys r fileData typeNames deps deps' typeName :
  collectTypes' r fileData typeNames deps = Ok deps' ->
  typeName ∈ typeNames ->
  exists typeInfo, Types r !! typeName = Some typeInfo /\
                   is_Some (deps' !! identifierOf typeInfo).
Proof.
  intros H Hin.
  pose proof (collectTypes_found _ _ _ _ _ _ _ H) as Hfound.
  rewrite Forall_forall in Hfound. destruct (Hfound _ Hin) as [typeInfo Hty].
  exists typeInfo. split; [done|].
  apply (elem_of_dom (D:=gset string)).
  rewrite (collectTypes_dom _ _ _ _ _ _ _ H). apply elem_of_union_r.
  apply elem_of_list_to_set, list_elem_of_fmap. exists typeInfo. split; [done|].
  unfold entriesOf. apply list_elem_of_omap. eauto.
Qed.

Lemma collectFile_sound r fileData fileData' :
  (forall entries, rangeOrder entries ≡ₚ entries) ->
  collectFile' r fileData = Ok fileData' ->
  exists added,
    Dependencies fileData' = Dependencies fileData ++ added /\
    Forall (importsType GetModuleName sourceFileFor r fileData) added.
Proof.
  intros Hperm H. unfold collectFile in H.
  destruct (collectTypes _ _ r fileData _ ∅) as [deps| |] eqn:Hdeps; simpl in H; try done.
  simplify_eq. eexists. split; [reflexivity|].
  apply Forall_forall. intros d (kd & -> & Hin)%list_elem_of_fmap.
  rewrite (Hperm _) in Hin. destruct kd as [k d'].
  apply elem_of_map_to_list in Hin.
  pose proof (collectTypes_records r fileData (ExternalDependingTypes fileData) _ ∅ deps
                (fun _ H => H) (map_Forall_empty _) Hdeps) as Hrec.
  destruct (Hrec _ _ Hin) as (typeName & typeInfo & ? & ? & _ & ? & ?).
  by exists typeName, typeInfo.
Qed.

Lemma collectFile_complete r fileData fileData' :
  (forall entries, rangeOrder entries ≡ₚ entries) ->
  barFree r ->
  (forall typeInfo typeInfo', File typeInfo = File typeInfo' ->
     sourceFileFor r fileData typeInfo = sourceFileFor r fileData typeInfo') ->
  collectFile' r fileData = Ok fileData' ->
  exists added,
    Dependencies fileData' = Dependencies fileData ++ added /\
    forall typeName, typeName ∈ ExternalDependingTypes fileData ->
      exists typeInfo d,
        Types r !! typeName = Some typeInfo /\
        d ∈ added /\
        ModuleIdentifier d = GetModuleName (Package typeInfo) (File typeInfo) /\
        sourceFileFor r fileData typeInfo = Ok (SourceFile d).
Proof.
  intros Hperm Hbar Hfile H. unfold collectFile in H.
  destruct (collectTypes _ _ r fileData _ ∅) as [deps| |] eqn:Hdeps; simpl in H; try done.
  simplify_eq. eexists. split; [reflexivity|].
  intros typeName Hin.
  destruct (collectTypes_keys _ _ _ _ _ _ Hdeps Hin) as (typeInfo & Hty & [d Hd]).
  exists typeInfo, d. split; [done|]. split.
  - apply list_elem_of_fmap. exists (identifierOf typeInfo, d). split; [done|].
    rewrite (Hperm _). by apply elem_of_map_to_list.
  - pose proof (collectTypes_records r fileData (ExternalDependingTypes fileData) _ ∅ deps
                  (fun _ H => H) (map_Forall_empty _) Hdeps) as Hrec.
    destruct (Hrec _ _ Hd) as (typeName' & typeInfo' & _ & Hty' & Hid & Hmod & Hsf).
    pose proof (map_Forall_lookup_1 _ _ _ _ Hbar Hty) as Hb.
    pose proof (map_Forall_lookup_1 _ _ _ _ Hbar Hty') as Hb'. simpl in Hb, Hb'.
    destruct (identifier_inj _ _ _ _ Hb' Hb Hid) as [Hp Hf].
    rewrite Hmod, Hp, Hf. split; [done|]. by rewrite <- (Hfile typeInfo' typeInfo Hf).
Qed.

Lemma collectFiles_sound r filesData st :
  (forall entries, rangeOrder entries ≡ₚ entries) ->
  collectFiles' r filesData = (st, Ok ()) ->
  Forall2 (appendedImport GetModuleName sourceFileFor r) filesData st.2.
Proof.
  intros Hperm. revert st.
  induction filesData as [|[name fileData] rest IH]; intros st H; simpl in H.
  - simplify_eq. constructor.
  - destruct (collectFile' r fileData) as [fileData'| |] eqn:Hf; try done.
    destruct (collectFiles' r rest) as [[r' rest'] result] eqn:Hrest.
    simplify_eq. simpl. constructor; [|by apply (IH (r', rest'))].
    by apply collectFile_sound.
Qed.

Lemma collectFiles_complete r filesData st :
  (forall entries, rangeOrder entries ≡ₚ entries) ->
  barFree r ->
  (forall fileData typeInfo typeInfo', File typeInfo = File typeInfo' ->
     sourceFileFor r fileData typeInfo = sourceFileFor r fileData typeInfo') ->
  collectFiles' r filesData = (st, Ok ()) ->
  Forall2 (appendedForAll GetModuleName sourceFileFor r) filesData st.2.
Proof.
  intros Hperm Hbar Hfile. revert st.
  induction filesData as [|[name fileData] rest IH]; intros st H; simpl in H.
  - simplify_eq. constructor.
  - destruct (collectFile' r fileData) as [fileData'| |] eqn:Hf; try done.
    destruct (collectFiles' r rest) as [[r' rest'] result] eqn:Hrest.
    simplify_eq. simpl. constructor; [|by apply (IH (r', rest'))].
    apply collectFile_complete; try done. intros. by apply Hfile.
Qed.

End RecordFacts.

(** The loops only ask for the paths of the types the files name. *)
Lemma collectTypes_ext GetModuleName f g r fileData typeNames deps :
  (forall typeName typeInfo, typeName ∈ typeNames -> Types r !! typeName = Some typeInfo ->
     f r fileData typeInfo = g r fileData typeInfo) ->
  collectTypes GetModuleName f r fileData typeNames deps =
  collectTypes GetModuleName g r fileData typeNames deps.
Proof.
  revert deps. induction typeNames as [|typeName rest IH]; intros deps Hfg; simpl; [done|].
  destruct (Types r !! typeName) as [typeInfo|] eqn:Hty; [|done].
  assert (forall n ti, n ∈ rest -> Types r !! n = Some ti -> f r fileData ti = g r fileData ti)
    as Hrest by (intros n ti Hn; apply Hfg; by apply list_elem_of_further).
  destruct (deps !! identifierOf typeInfo); [by apply IH|].
  rewrite (Hfg typeName typeInfo (list_elem_of_here _ _) Hty).
  destruct (g r fileData typeInfo); simpl; try done. by apply IH.
Qed.

Lemma collectFiles_ext GetModuleName rangeOrder f g r filesData :
  Forall (fun entry : string * FileData =>
            forall typeName typeInfo,
              typeName ∈ ExternalDependingTypes entry.2 -> Types r !! typeName = Some typeInfo ->
              f r entry.2 typeInfo = g r entry.2 typeInfo) filesData ->
  collectFiles GetModuleName rangeOrder f r filesData =
  collectFiles GetModuleName rangeOrder g r filesData.
Proof.
  induction filesData as [|[name fileData] rest IH]; intros H; simpl; [done|].
  apply Forall_cons in H as [Hf Hrest]. simpl in Hf.
  unfold collectFile. rewrite (collectTypes_ext _ f g) by done.
  destruct (collectTypes _ g r fileData _ ∅); simpl; try done. by rewrite IH.
Qed.

Section RecordTheorems.

Context (GetTSFileName : string -> string).
Context (GetModuleName : string -> string -> string).
Context (Glob : string -> outcome (list string)).
Context (Getwd : outcome string).
Context (rangeOrder : list (string * Dependency) -> list (string * Dependency)).

Local Abbreviation collect :=
  (collectExternalDependenciesFromData GetTSFileName GetModuleName Glob Getwd rangeOrder).
Local Abbreviation collect1 :=
  (Rev1.collectExternalDependenciesFromData GetTSFileName GetModuleName rangeOrder).
Local Abbreviation sourceFileOf' := (sourceFileOf GetTSFileName Glob Getwd).

(** The path of a dependency depends on its type only through the
    file of the type. *)
Lemma sourceFileOf_File r fileData typeInfo typeInfo' :
  File typeInfo = File typeInfo' ->
  sourceFileOf' r fileData typeInfo = sourceFileOf' r fileData typeInfo'.
Proof.
  intros Hf. unfold sourceFileOf, importPath, externalSourceFile. by rewrite Hf.
Qed.

Lemma relPathOf_File r fileData typeInfo typeInfo' :
  File typeInfo = File typeInfo' ->
  relPathOf GetTSFileName r fileData typeInfo = relPathOf GetTSFileName r fileData typeInfo'.
Proof. intros Hf. unfold relPathOf. by rewrite Hf. Qed.

(** X11: whether a run succeeds does not depend on the order in which
    the files are visited, and when it does succeed the files come out
    the same, in the order they were visited in.  Both revisions. *)
Theorem success_is_order_independent r filesData filesData' :
  filesData ≡ₚ filesData' ->
  let run :=
    collectExternalDependenciesFromData GetTSFileName GetModuleName Glob Getwd rangeOrder r in
  let run1 :=
    Rev1.collectExternalDependenciesFromData GetTSFileName GetModuleName rangeOrder r in
  (((run filesData).2 = Ok () <-> (run filesData').2 = Ok ()) /\
   ((run filesData).2 = Ok () -> (run filesData).1.2 ≡ₚ (run filesData').1.2)) /\
  (((run1 filesData).2 = Ok () <-> (run1 filesData').2 = Ok ()) /\
   ((run1 filesData).2 = Ok () -> (run1 filesData).1.2 ≡ₚ (run1 filesData').1.2)).
Proof. intros Hperm run run1. split; by apply collectFiles_order. Qed.

(** X12: in a run that returns without error, every record appended
    to a file is made for a type the file refers to: the type has an
    entry in the registry, the record's module identifier is the module
    name of the entry's package and file, and its source file is the
    path computed for the entry.  Both revisions. *)
Theorem appended_records_are_referenced r filesData :
  (forall entries, rangeOrder entries ≡ₚ entries) ->
  (forall st, collect r filesData = (st, Ok ()) ->
     Forall2 (appendedImport GetModuleName sourceFileOf' r) filesData st.2) /\
  (forall st, collect1 r filesData = (st, Ok ()) ->
     Forall2 (appendedImport GetModuleName (relPathOf GetTSFileName) r) filesData st.2).
Proof. intros Hperm. split; intros st H; by eapply collectFiles_sound. Qed.

(** X13: in a run that returns without error, and with no bar in a
    package name, every type a file refers to has its record among those
    appended to the file: a record with the module name of the type's
    package and file and with the path computed for the type.  Both
    revisions. *)
Theorem referenced_types_are_imported r filesData :
  (forall entries, rangeOrder entries ≡ₚ entries) ->
  barFree r ->
  (forall st, collect r filesData = (st, Ok ()) ->
     Forall2 (appendedForAll GetModuleName sourceFileOf' r) filesData st.2) /\
  (forall st, collect1 r filesData = (st, Ok ()) ->
     Forall2 (appendedForAll GetModuleName (relPathOf GetTSFileName) r) filesData st.2).
Proof.
  intros Hperm Hbar. split; intros st H.
  - eapply collectFiles_complete; try done. intros. by apply sourceFileOf_File.
  - eapply collectFiles_complete; try done. intros. by apply relPathOf_File.
Qed.

(** X14: a run all of whose types are declared in files generated in
    the run never looks at the file system: with any other [Glob] and
    any other working directory it ends in the same state with the same
    result. *)
Theorem in_run_targets_need_no_file_system (Glob' : string -> outcome (list string))
    (Getwd' : outcome string) r filesData :
  Forall (declaredInRun r) filesData ->
  collect r filesData =
  collectExternalDependenciesFromData GetTSFileName GetModuleName Glob' Getwd' rangeOrder
    r filesData.
Proof.
  intros H. apply collectFiles_ext.
  eapply Forall_impl; [exact H|]. intros entry Hentry typeName typeInfo Hin Hty.
  unfold declaredInRun in Hentry. rewrite Forall_forall in Hentry.
  specialize (Hentry _ Hin _ Hty).
  unfold sourceFileOf, importPath. by rewrite Hentry.
Qed.

End RecordTheorems.

(** ** [Rel], computed *)

(** Two lists of elements share a longest common beginning. *)
Lemma common_prefix (lb lt : list string) :
  exists common brest trest,
    lb = common ++ brest /\ lt = common ++ trest /\ parted brest trest.
Proof.
  revert lt. induction lb as [|eb lb IH]; intros lt.
  - by exists [], [], lt.
  - destruct lt as [|et lt]; [by exists [], (eb :: lb), []|].
    destruct (decide (eb = et)) as [<-|Hne].
    + destruct (IH lt) as (common & brest & trest & -> & -> & Hp).
      by exists (eb :: common), brest, trest.
    + by exists [], (eb :: lb), (et :: lt).
Qed.

Lemma isEmptyElems_cons e es : e <> "" -> filepath.isEmptyElems (e :: es) = false.
Proof. intros He. destruct es; [|done]. simpl. by apply eqb_neq_false. Qed.

Lemma relLoop_common common bs ts :
  Forall (fun e => e <> "") common ->
  filepath.relLoop (common ++ bs) (common ++ ts) = filepath.relLoop bs ts.
Proof.
  induction common as [|c common IH]; intros H; [done|].
  apply Forall_cons in H as [Hc H].
  change ((c :: common) ++ ?l) with (c :: (common ++ l)).
  cbn [filepath.relLoop]. rewrite !isEmptyElems_cons by done. cbn [orb].
  rewrite String.eqb_refl. by apply IH.
Qed.

Lemma relLoop_parted brest trest :
  Forall (fun e => e <> "") brest -> Forall (fun e => e <> "") trest ->
  parted brest trest ->
  filepath.relLoop brest trest =
    (match brest, trest with eb :: _, _ :: _ => eb | _, _ => "" end, brest, trest).
Proof.
  intros Hb Ht Hp. destruct brest as [|eb bs]; [done|]. destruct trest as [|et ts]; [done|].
  apply Forall_cons in Hb as [Heb _]. apply Forall_cons in Ht as [Het _].
  cbn [filepath.relLoop]. rewrite !isEmptyElems_cons by done. cbn [orb].
  simpl in Hp. rewrite eqb_neq_false by congruence. done.
Qed.

(** What [Rel] returns for two cleaned paths, given by their elements:
    [common] is what they share, [brest] and [trest] what follows. *)
Lemma Rel_render rb rt common brest trest :
  normal rb (common ++ brest) -> normal rt (common ++ trest) -> common ++ trest <> [] ->
  parted brest trest ->
  filepath.Rel (filepath.render rb (common ++ brest)) (filepath.render rt (common ++ trest)) =
    if bool_decide (rb = rt /\ brest = [] /\ trest = []) then Ok "."
    else if negb (Bool.eqb rb rt) || bool_decide (head brest = Some ".." /\ trest <> [])
    then Fail (filepath.relError (filepath.render rb (common ++ brest))
                                 (filepath.render rt (common ++ trest)))
    else Ok (filepath.joinSep (repeat ".." (length brest) ++ trest)).
Proof.
  intros Hb Ht Hlt Hp. unfold filepath.Rel.
  rewrite !Clean_render by done.
  destruct (String.eqb_spec (filepath.render rt (common ++ trest))
                            (filepath.render rb (common ++ brest))) as [Heq|Hneq].
  { symmetry in Heq. destruct (render_inj _ _ _ _ Hb Ht Heq) as [-> Hl].
    apply app_inv_head in Hl. subst trest.
    destruct brest as [|eb bs]; [|by simpl in Hp].
    by rewrite bool_decide_eq_true_2. }
  rewrite bool_decide_eq_false_2; [|by intros (-> & -> & ->)].
  set (lb := common ++ brest) in *. set (lt := common ++ trest) in *.
  set (base := if String.eqb (filepath.render rb lb) "." then "" else filepath.render rb lb).
  change (String filepath.Separator "") with "/".
  assert (strings.HasPrefix base "/" = rb /\
          filepath.splitSep base =
            if rb then "" :: match lb with [] => [""] | _ :: _ => lb end
            else match lb with [] => [""] | _ :: _ => lb end) as [-> Hbase].
  { subst base. destruct (String.eqb_spec (filepath.render rb lb) ".") as [Hdot|Hdot].
    - destruct (render_dot _ _ Hb Hdot) as [-> ->]. done.
    - split; [by apply render_rooted|]. rewrite splitSep_render by done.
      destruct rb; [done|]. by destruct lb. }
  rewrite render_rooted by done.
  destruct (Bool.eqb_spec rb rt) as [<-|]; [|done]. cbn [negb orb].
  rewrite Hbase, (splitSep_render _ _ Ht). clear Hbase base.
  pose proof (normal_nonempty _ _ Hb) as Hbne. pose proof (normal_nonempty _ _ Ht) as Htne.
  assert (filepath.relLoop
            (if rb then "" :: match lb with [] => [""] | _ :: _ => lb end
             else match lb with [] => [""] | _ :: _ => lb end)
            (if rb then "" :: match lt with [] => [""] | _ :: _ => lt end
             else match lt with [] => ["."] | _ :: _ => lt end) =
          filepath.relLoop (match lb with [] => [""] | _ :: _ => lb end) lt) as ->.
  { destruct lt as [|et lt']; [done|]. destruct rb; [|done].
    apply relLoop_rooted; [by destruct lb|done]. }
  assert (Forall (fun e => e <> "") common /\ Forall (fun e => e <> "") brest /\
          Forall (fun e => e <> "") trest) as (Hc & Hbr & Htr).
  { apply Forall_app in Hbne as [? ?]. apply Forall_app in Htne as [? ?]. done. }
  assert (filepath.relLoop (match lb with [] => [""] | _ :: _ => lb end) lt =
          if bool_decide (lb = []) then ("", [""], lt)
          else (match brest, trest with eb :: _, _ :: _ => eb | _, _ => "" end, brest, trest))
    as ->.
  { case_bool_decide as Hlb.
    - rewrite Hlb. by destruct lt.
    - replace (match lb with [] => [""] | _ :: _ => lb end) with lb by (by destruct lb).
      subst lb lt. by rewrite relLoop_common, relLoop_parted. }
  case_bool_decide as Hlb.
  - (* the base is the root or the current directory *)
    subst lb. apply app_eq_nil in Hlb as [-> ->]. simpl in lt. subst lt.
    destruct trest as [|et lt']; [done|]. by simpl.
  - subst lb lt. destruct brest as [|eb bs].
    + destruct trest as [|et ts]; [by rewrite app_nil_r in Hneq|]. by simpl.
    + rewrite (isEmptyElems_cons eb bs) by (by apply Forall_cons in Hbr as [? _]).
      destruct trest as [|et ts].
      * simpl. by rewrite bool_decide_eq_false_2 by (by intros [_ ?]).
      * rewrite (isEmptyElems_cons et ts) by (by apply Forall_cons in Htr as [? _]).
        cbn [negb head]. destruct (String.eqb_spec eb "..") as [->|Hdd].
        -- by rewrite bool_decide_eq_true_2.
        -- rewrite bool_decide_eq_false_2; [done|]. intros [[= ?] _]. done.
Qed.

(** [Rel] cleans both of its paths first. *)
Lemma Rel_Clean basepath targpath rel :
  filepath.Rel basepath targpath = Ok rel <->
  filepath.Rel (filepath.Clean basepath) (filepath.Clean targpath) = Ok rel.
Proof.
  unfold filepath.Rel. rewrite !Clean_idempotent.
  destruct (String.eqb _ _); [done|].
  destruct (negb _); [done|]. destruct (filepath.relLoop _ _) as [[elem bs] ts].
  by destruct (String.eqb elem "..").
Qed.

(** [Rel] never panics, and its one error names both paths. *)
Lemma Rel_failure basepath targpath :
  (forall p, filepath.Rel basepath targpath <> Panic p) /\
  (forall e, filepath.Rel basepath targpath = Fail e -> e = filepath.relError basepath targpath).
Proof.
  unfold filepath.Rel. destruct (String.eqb _ _); [done|].
  destruct (negb _); [split; [done|by intros e [= <-]]|].
  destruct (filepath.relLoop _ _) as [[elem bs] ts].
  destruct (String.eqb elem ".."); [split; [done|by intros e [= <-]]|].
  by destruct (negb _).
Qed.

(** Joined to the base, the relative path leads to the target. *)
Lemma Clean_base_rel_plain rooted common brest trest :
  normal rooted (common ++ brest) -> normal rooted (common ++ trest) ->
  repeat ".." (length brest) ++ trest <> [] -> Forall (fun e => e <> "..") brest ->
  filepath.Clean
    (filepath.render rooted (common ++ brest) +:+
     String "/" (filepath.joinSep (repeat ".." (length brest) ++ trest))) =
  filepath.render rooted (common ++ trest).
Proof.
  intros Hb Ht Hne Hdd. rewrite Clean_render_app by done. f_equal.
  rewrite splitSep_joinSep.
  - rewrite fold_left_app, rev_app_distr.
    rewrite <- (length_rev brest), fold_cleanStep_up.
    + rewrite fold_cleanStep_normal_elems.
      * by rewrite <- rev_app_distr, rev_involutive.
      * rewrite <- rev_app_distr. apply Ht.
    + by apply Forall_rev.
  - done.
  - apply Forall_app. split.
    + apply Forall_forall. intros e He%list_elem_of_In%repeat_spec. subst. apply noSep_dotdot.
    + destruct Ht as [_ Ht]. by apply Forall_app in Ht as [_ ?].
Qed.

(** The relative path to a target that ends in [.ts]: both paths
    element by element, and the path itself. *)
Lemma Rel_ts basepath targpath rel :
  filepath.Rel basepath targpath = Ok rel ->
  strings.HasSuffix targpath ".ts" = true ->
  exists rooted common brest trest init q,
    filepath.Clean basepath = filepath.render rooted (common ++ brest) /\
    filepath.Clean targpath = filepath.render rooted (common ++ trest) /\
    normal rooted (common ++ brest) /\ normal rooted (common ++ trest) /\
    common ++ trest = init ++ [q +:+ ".ts"] /\
    Forall (fun e => e <> "..") brest /\
    ((brest = [] /\ trest = [] /\ rel = ".") \/
     (repeat ".." (length brest) ++ trest <> [] /\
      rel = filepath.joinSep (repeat ".." (length brest) ++ trest))).
Proof.
  intros Hrel Hsuffix. apply Rel_Clean in Hrel. apply Clean_suffix in Hsuffix.
  destruct (Clean_normal basepath) as (rb & lb & Hb & Hnb).
  destruct (Clean_normal targpath) as (rt & lt & Ht & Hnt).
  rewrite Hb, Ht in Hrel. rewrite Ht in Hsuffix.
  apply render_suffix_last in Hsuffix as (init & q & Hlt); [|done].
  destruct (common_prefix lb lt) as (common & brest & trest & -> & -> & Hp).
  assert (common ++ trest <> []) as Hne by (rewrite Hlt; by destruct init).
  rewrite Rel_render in Hrel by done.
  assert (q +:+ ".ts" <> "..") as Hq.
  { intros Heq. apply (f_equal String.length) in Heq. rewrite length_append in Heq.
    simpl in Heq. lia. }
  case_bool_decide as Hsame.
  - destruct Hsame as (<- & -> & ->). injection Hrel as <-.
    exists rb, common, [], [], init, q. split_and!; try done. by left.
  - destruct (negb (Bool.eqb rb rt) || _) eqn:Hfail; [done|].
    apply orb_false_iff in Hfail as [Hr Hdd]. apply negb_false_iff, Bool.eqb_prop in Hr.
    subst rt. injection Hrel as <-.
    apply bool_decide_eq_false in Hdd.
    assert (repeat ".." (length brest) ++ trest <> []) as Hne'.
    { destruct brest, trest; try done. destruct Hsame. done. }
    exists rb, common, brest, trest, init, q. split_and!; try done; [|by right].
    destruct trest as [|et ts].
    + rewrite app_nil_r in Hlt. eapply (normal_no_dotdot_after _ _ _ (q +:+ ".ts")); [done| |done].
      rewrite Hlt. apply elem_of_app. right. apply list_elem_of_here.
    + destruct Hnb as [Hst _]. rewrite rev_app_distr in Hst.
      eapply no_dotdot_above; [done|]. intros Hh. apply Hdd. done.
Qed.

(** [Join(basepath, Rel(basepath, targpath))] is [targpath], cleaned. *)
Lemma Rel_Join_ts basepath targpath rel :
  filepath.Rel basepath targpath = Ok rel ->
  strings.HasSuffix targpath ".ts" = true ->
  filepath.Clean (filepath.Clean basepath +:+ String "/" rel) = filepath.Clean targpath.
Proof.
  intros Hrel Hsuffix.
  destruct (Rel_ts _ _ _ Hrel Hsuffix)
    as (rooted & common & brest & trest & init & q & Hb & -> & Hnb & Hnt & _ & Hdd & Hshape).
  destruct Hshape as [(-> & -> & ->)|[Hne ->]].
  - change (String "/" ".") with "/.". by rewrite Clean_app_dot, Clean_idempotent, Hb
      by apply Clean_nonempty.
  - rewrite Hb. by apply Clean_base_rel_plain.
Qed.

(** A relative path that has a [.ts] to cut ends in it. *)
Lemma Rel_restore_ts basepath targpath rel sf :
  filepath.Rel basepath targpath = Ok rel ->
  strings.HasSuffix targpath ".ts" = true ->
  removeTsSuffix rel = Ok sf ->
  sf +:+ ".ts" = rel.
Proof.
  intros Hrel Hsuffix Hsf.
  destruct (Rel_ts _ _ _ Hrel Hsuffix)
    as (rooted & common & brest & trest & init & q & _ & _ & _ & _ & Hlt & _ & Hshape).
  destruct Hshape as [(-> & -> & ->)|[Hne ->]]; [by vm_compute in Hsf|].
  destruct trest as [|t0 trest0].
  { rewrite app_nil_r in Hsf.
    pose proof (noT_Contains _ (noT_ups (length brest))) as Hno.
    apply removeTsSuffix_missing in Hno as [_ Hpanic]. congruence. }
  apply removeTsSuffix_restore; [|done].
  destruct (app_snoc_inv common (t0 :: trest0) init (q +:+ ".ts")) as (t' & Ht'); [done|done|].
  rewrite Ht', app_assoc.
  destruct (joinSep_snoc (repeat ".." (length brest) ++ t') (q +:+ ".ts")) as [p ->].
  rewrite <- append_assoc. apply HasSuffix_app.
Qed.

Lemma Rel_ts_relative basepath targpath rel :
  filepath.Rel basepath targpath = Ok rel ->
  strings.HasSuffix targpath ".ts" = true ->
  rel <> "" /\ filepath.IsAbs rel = false.
Proof.
  intros Hr Hsuffix.
  destruct (Rel_ts _ _ _ Hr Hsuffix)
    as (rooted & common & brest & trest & init & q & _ & _ & _ & Hnt & _ & _ & Hshape).
  destruct Hshape as [(_ & _ & ->)|[Hne ->]]; [done|].
  apply joinSep_relative; [done|]. apply Forall_app. split.
  - apply Forall_forall. intros e He%list_elem_of_In%repeat_spec. subst.
    split; [done|apply noSep_dotdot].
  - apply normal_Forall in Hnt. apply Forall_app in Hnt as [_ Hnt].
    eapply Forall_impl; [exact Hnt|]. by intros e (? & _ & ?).
Qed.

(** A relative path is found, and it ends as the target does, when the
    base has no [..] and no element that ends in [.ts]. *)
Lemma Rel_ts_ok basepath targpath :
  filepath.IsAbs basepath = filepath.IsAbs targpath ->
  Forall (fun e => e <> ".." /\ strings.HasSuffix e ".ts" = false)
         (filepath.splitSep (filepath.Clean basepath)) ->
  strings.HasSuffix targpath ".ts" = true ->
  exists x, filepath.Rel basepath targpath = Ok (x +:+ ".ts").
Proof.
  intros Habs Hbase Hsuffix. apply Clean_suffix in Hsuffix.
  destruct (Clean_normal basepath) as (rb & lb & Hb & Hnb).
  destruct (Clean_normal targpath) as (rt & lt & Ht & Hnt).
  assert (rb = rt) as <-.
  { rewrite (Clean_rooted _ _ _ Hb Hnb), (Clean_rooted _ _ _ Ht Hnt). done. }
  rewrite Ht in Hsuffix. apply render_suffix_last in Hsuffix as (init & q & Hlt); [|done].
  rewrite Hb in Hbase. rewrite Forall_forall in Hbase.
  assert (forall e, e ∈ lb -> e <> ".." /\ strings.HasSuffix e ".ts" = false) as Hlb.
  { intros e He. apply Hbase. by apply elems_in_splitSep. }
  destruct (common_prefix lb lt) as (common & brest & trest & -> & -> & Hp).
  assert (common ++ trest <> []) as Hne by (rewrite Hlt; by destruct init).
  assert (trest <> []) as Htne.
  { intros ->. rewrite app_nil_r in Hlt.
    destruct (Hlb (q +:+ ".ts")) as [_ Hno].
    - rewrite Hlt, !elem_of_app. left. right. apply list_elem_of_here.
    - by rewrite HasSuffix_app in Hno. }
  assert (exists x, filepath.joinSep (repeat ".." (length brest) ++ trest) = x +:+ ".ts")
    as [x Hx].
  { destruct (app_snoc_inv common trest init (q +:+ ".ts")) as (t' & ->); [done|done|].
    rewrite app_assoc.
    destruct (joinSep_snoc (repeat ".." (length brest) ++ t') (q +:+ ".ts")) as [p ->].
    exists (p +:+ q). by rewrite append_assoc. }
  exists x. apply Rel_Clean. rewrite Hb, Ht, Rel_render by done.
  rewrite bool_decide_eq_false_2 by (by intros (_ & _ & ?)).
  rewrite Bool.eqb_reflx. cbn [negb orb].
  rewrite bool_decide_eq_false_2; [by rewrite Hx|].
  intros [Hhead _]. destruct brest as [|eb bs]; [done|]. injection Hhead as ->.
  destruct (Hlb "..") as [? _]; [|done].
  rewrite elem_of_app. right. apply list_elem_of_here.
Qed.

(** The path to a target below a directory is the names that lead
    down to it. *)
Lemma Rel_Dir_below base targpath names :
  names <> [] -> Forall isName names ->
  filepath.Clean targpath = filepath.Join [filepath.Dir base; filepath.joinSep names] ->
  filepath.Rel (filepath.Dir base) targpath = Ok (filepath.joinSep names).
Proof.
  intros Hne Hnames Htarget.
  apply Rel_Clean. rewrite Htarget, Join_Dir, Dir_clean.
  destruct (Clean_normal (filepath.Dir base)) as (rb & lb & Hb & Hnb).
  rewrite Dir_clean in Hb. rewrite Hb.
  pose proof (normal_app_names _ _ _ Hnb Hnames) as Hnt.
  assert (filepath.Clean (filepath.render rb lb +:+ String "/" (filepath.joinSep names)) =
          filepath.render rb (lb ++ names)) as ->.
  { rewrite Clean_render_app by done. f_equal.
    rewrite splitSep_joinSep; [|done|eapply Forall_impl; [exact Hnames|]; by intros e [? _]].
    rewrite fold_cleanStep_normal_elems.
    - by rewrite <- rev_app_distr, rev_involutive.
    - rewrite <- rev_app_distr. apply Hnt. }
  rewrite <- (app_nil_r lb) at 1.
  rewrite Rel_render; [| by rewrite app_nil_r | done | by destruct lb, names | done].
  rewrite bool_decide_eq_false_2 by (by intros (_ & _ & ?)).
  rewrite Bool.eqb_reflx. cbn [negb orb head].
  by rewrite bool_decide_eq_false_2 by (by intros [? _]).
Qed.

(** ** Targets generated in the run, further *)

(** Nothing is replaced where the old string does not occur. *)
Lemma ReplaceAll_absent (s old new : string) :
  old <> "" -> strings.Contains s old = false -> strings.ReplaceAll s old new = s.
Proof.
  intros Hold. unfold strings.ReplaceAll.
  induction s as [|c s IH]; intros Hno.
  - by destruct old.
  - assert (strings.HasPrefix (String c s) old = false) as Hp.
    { destruct (strings.HasPrefix (String c s) old) eqn:E; [|done].
      apply Index_zero in E. unfold strings.Contains in Hno. rewrite E in Hno. done. }
    cbn [strings.replaceFrom]. rewrite Hp. f_equal. apply IH. by eapply Contains_tail.
Qed.

(** Replacing a one-byte string goes byte by byte. *)
Lemma ReplaceAll_char_nil (o : ascii) (new : string) :
  strings.ReplaceAll "" (String o "") new = "".
Proof. reflexivity. Qed.

Lemma ReplaceAll_char_cons (c o : ascii) (s new : string) :
  strings.ReplaceAll (String c s) (String o "") new =
  if Ascii.eqb o c then new +:+ strings.ReplaceAll s (String o "") new
  else String c (strings.ReplaceAll s (String o "") new).
Proof.
  unfold strings.ReplaceAll. cbn [strings.replaceFrom].
  by rewrite HasPrefix_char.
Qed.

Lemma ReplaceAll_char_append (a b : string) (o : ascii) (new : string) :
  strings.ReplaceAll (a +:+ b) (String o "") new =
  strings.ReplaceAll a (String o "") new +:+ strings.ReplaceAll b (String o "") new.
Proof.
  induction a as [|c a IH]; [by rewrite ReplaceAll_char_nil, !append_empty_l|].
  rewrite append_cons, !ReplaceAll_char_cons, IH.
  destruct (Ascii.eqb o c); [by rewrite append_assoc|by rewrite append_cons].
Qed.

Lemma ReplaceAll_char_one (o : ascii) (new : string) :
  strings.ReplaceAll (String o "") (String o "") new = new.
Proof.
  rewrite ReplaceAll_char_cons, Ascii.eqb_refl, ReplaceAll_char_nil. apply append_empty_r.
Qed.

(** Joined by a byte that is in none of them, the elements are joined
    by whatever replaces it. *)
Lemma ReplaceAll_Join_char (elems : list string) (o : ascii) (new : string) :
  Forall (fun e => strings.Contains e (String o "") = false) elems ->
  strings.ReplaceAll (strings.Join elems (String o "")) (String o "") new =
  strings.Join elems new.
Proof.
  induction elems as [|e [|e' es] IH]; intros H.
  - apply ReplaceAll_char_nil.
  - apply Forall_cons in H as [He _]. by apply ReplaceAll_absent.
  - apply Forall_cons in H as [He H]. rewrite !Join_cons, !ReplaceAll_char_append.
    by rewrite (ReplaceAll_absent e), ReplaceAll_char_one, IH.
Qed.

Lemma joinSep_Join (elems : list string) :
  filepath.joinSep elems = strings.Join elems "/".
Proof.
  induction elems as [|e [|e' es] IH]; [done|done|].
  rewrite joinSep_cons, Join_cons, IH. reflexivity.
Qed.

Lemma noSep_Contains (e : string) : noSep e -> strings.Contains e "/" = false.
Proof.
  unfold strings.Contains. intros H. apply Z.leb_gt.
  induction e as [|c e IH]; [done|].
  pose proof (noSep_head _ _ H) as Hc.
  assert (noSep e) as He.
  { unfold noSep in *. simpl in H.
    destruct (Ascii.eqb_spec c filepath.Separator) as [->|_]; [done|].
    destruct (filepath.splitSep e) as [|e0 es] eqn:Hsplit;
      [by destruct (splitSep_nonempty e)|].
    by injection H as -> ->. }
  rewrite Index_cons. change "/" with (String "/" ""). rewrite HasPrefix_char.
  rewrite (proj2 (Ascii.eqb_neq _ _)) by congruence.
  specialize (IH He). change (String "/" "") with "/".
  destruct (Z.ltb_spec (strings.Index e "/") 0); lia.
Qed.

Lemma ToSlashOn_Join (sep : ascii) (names : list string) :
  Forall (isNameOn sep) names ->
  filepath.ToSlashOn sep (strings.Join names (String sep "")) = strings.Join names "/".
Proof.
  intros H. unfold filepath.ToSlashOn.
  destruct (Ascii.eqb_spec sep "/") as [->|_]; [done|].
  apply ReplaceAll_Join_char. eapply Forall_impl; [exact H|]. by intros e [_ ?].
Qed.

Lemma FromSlashOn_Join (sep : ascii) (names : list string) :
  Forall (isNameOn sep) names ->
  filepath.FromSlashOn sep (strings.Join ("." :: names) "/") =
  strings.Join ("." :: names) (String sep "").
Proof.
  intros H. unfold filepath.FromSlashOn.
  destruct (Ascii.eqb_spec sep "/") as [->|_]; [done|].
  change "/" with (String "/" "") at 1 2. apply ReplaceAll_Join_char.
  constructor; [done|].
  eapply Forall_impl; [exact H|]. intros e [(Hns & _) _]. by apply noSep_Contains.
Qed.

Section InRunFacts.

Context (GetTSFileName : string -> string).
Context (Glob : string -> outcome (list string)).
Context (Getwd : outcome string).

Local Abbreviation importPath' := (importPath GetTSFileName Glob Getwd).
Local Abbreviation sourceFileOf' := (sourceFileOf GetTSFileName Glob Getwd).

(** X15: for a target generated in the run, a source file is computed
    (no error, no panic) when the two output names are both absolute or
    both relative, the target's ends in [.ts], and the directory of the
    current file has neither [..] nor a name ending in [.ts] among its
    elements. *)
Theorem in_run_resolution_succeeds r fileData typeInfo :
  IsFileToGenerate r (File typeInfo) = true ->
  filepath.IsAbs (TSFileName fileData) = filepath.IsAbs (GetTSFileName (File typeInfo)) ->
  Forall (fun e => e <> ".." /\ strings.HasSuffix e ".ts" = false)
         (filepath.splitSep (filepath.Dir (TSFileName fileData))) ->
  strings.HasSuffix (GetTSFileName (File typeInfo)) ".ts" = true ->
  exists sf, sourceFileOf' r fileData typeInfo = Ok sf.
Proof.
  intros Hrun Habs Hdir Hsuffix.
  destruct (Rel_ts_ok (filepath.Dir (TSFileName fileData)) (GetTSFileName (File typeInfo)))
    as [x Hrel]; [by rewrite IsAbs_Dir|by rewrite Dir_clean|done|].
  unfold sourceFileOf, importPath. rewrite Hrun. cbn [negb].
  rewrite inRunSourceFile_eq, Hrel. simpl.
  change (filepath.ToSlash ?p) with p. unfold withDotSlash.
  destruct (strings.HasPrefix (x +:+ ".ts") "../").
  - exists x. apply removeTsSuffix_suffix.
  - exists ("./" +:+ x). rewrite <- append_assoc. apply removeTsSuffix_suffix.
Qed.

(** X16: a target generated in the run that lies in or below the
    directory of the current file is imported by the names that lead
    down to it, with [.] in front, joined by the separator of the
    build.  On any build, when [filepath.Rel] gives those names joined by
    the separator, the path is [./] and the names joined by slashes as
    [filepath.FromSlash] returns it, [.] and the names joined by the
    separator.  On the build modelled here, where the target's output
    name is the directory of the current file followed by the names, that
    is the path the resolver computes, and the source file stored is the
    path without its [.ts]. *)
Theorem in_run_path_below Separator Rel Dir r fileData typeInfo names :
  names <> [] -> Forall (isNameOn Separator) names ->
  let base := TSFileName fileData in
  let target := GetTSFileName (File typeInfo) in
  (Rel (Dir base) target = Ok (strings.Join names (String Separator "")) ->
     inRunSourceFileOn Separator Rel Dir base target =
       Ok (filepath.FromSlashOn Separator ("./" +:+ strings.Join names "/")) /\
     filepath.FromSlashOn Separator ("./" +:+ strings.Join names "/") =
       strings.Join ("." :: names) (String Separator "")) /\
  (IsFileToGenerate r (File typeInfo) = true ->
   filepath.Clean target = filepath.Join [filepath.Dir base; filepath.joinSep names] ->
     filepath.Rel (filepath.Dir base) target = Ok (strings.Join names "/") /\
     importPath' r fileData typeInfo =
       Ok (filepath.FromSlash ("./" +:+ strings.Join names "/")) /\
     forall q, strings.Join names "/" = q +:+ ".ts" ->
               sourceFileOf' r fileData typeInfo = Ok (filepath.FromSlash ("./" +:+ q))).
Proof.
  intros Hne Hnames base target.
  assert (Forall isName names) as Hplain
    by (eapply Forall_impl; [exact Hnames|]; by intros e [? _]).
  assert ("./" +:+ strings.Join names "/" = strings.Join ("." :: names) "/") as Hdot
    by (by destruct names).
  assert (withDotSlash (strings.Join names "/") = "./" +:+ strings.Join names "/") as Hwith.
  { unfold withDotSlash.
    pose proof (joinSep_names_not_explicit _ Hne Hplain) as Hbare.
    rewrite joinSep_Join in Hbare. by apply orb_false_iff in Hbare as [_ ->]. }
  split.
  - intros Hrel. split.
    + rewrite inRunSourceFileOn_eq, Hrel. unfold wrapf, mbind, outcome_bind.
      by rewrite ToSlashOn_Join, Hwith.
    + rewrite Hdot. by apply FromSlashOn_Join.
  - intros Hrun Htarget.
    assert (filepath.Rel (filepath.Dir base) target = Ok (strings.Join names "/")) as Hrel
      by (rewrite <- joinSep_Join; by apply Rel_Dir_below).
    assert (importPath' r fileData typeInfo = Ok ("./" +:+ strings.Join names "/")) as Hpath.
    { unfold importPath. rewrite Hrun. cbn [negb].
      fold base target. rewrite inRunSourceFile_eq, Hrel. simpl.
      change (filepath.ToSlash ?p) with p. by rewrite Hwith. }
    split; [done|]. split; [exact Hpath|].
    intros q Hq. unfold sourceFileOf. rewrite Hpath, Hq. simpl.
    rewrite <- append_assoc. apply removeTsSuffix_suffix.
Qed.

(** X17: for a target generated in the run the path computation never
    panics, and when it fails the error is that of [filepath.Rel],
    wrapped in a message that names the output names of the current file
    and of the target. *)
Theorem in_run_failure_names_both_files r fileData typeInfo :
  IsFileToGenerate r (File typeInfo) = true ->
  let base := TSFileName fileData in
  let target := GetTSFileName (File typeInfo) in
  (forall p, importPath' r fileData typeInfo <> Panic p) /\
  (forall e, importPath' r fileData typeInfo = Fail e ->
     e = Wrap (filepath.relError (filepath.Dir base) target)
              ("error getting relative path between for " +:+ base +:+ ", " +:+ target) /\
     strings.Contains (Error e) base = true /\
     strings.Contains (Error e) target = true).
Proof.
  intros Hrun base target.
  assert (importPath' r fileData typeInfo = inRunSourceFile base target) as ->.
  { unfold importPath. by rewrite Hrun. }
  rewrite inRunSourceFile_eq.
  destruct (Rel_failure (filepath.Dir base) target) as [Hnp Hfail].
  destruct (filepath.Rel (filepath.Dir base) target) as [rel|e0|p0]; simpl.
  - split; [done|]. by intros e.
  - split; [done|]. intros e [= <-]. rewrite (Hfail e0 eq_refl). split; [done|].
    simpl. split.
    + rewrite !append_assoc. apply Contains_middle.
    + rewrite !append_assoc. do 2 apply Contains_app_l. apply Contains_middle.
  - by destruct (Hnp p0).
Qed.

End InRunFacts.

(** ** Targets outside the run, further *)

Section ExternalFacts.

Context (GetTSFileName : string -> string).
Context (Glob : string -> outcome (list string)).
Context (Getwd : outcome string).

Local Abbreviation importPath' := (importPath GetTSFileName Glob Getwd).
Local Abbreviation sourceFileOf' := (sourceFileOf GetTSFileName Glob Getwd).

(** Without an alias, the path of a file found outside the run is its
    output name relative to the directory of the current file's
    absolute output name. *)
Lemma external_relative_path r fileData typeInfo match0 others absBase :
  IsFileToGenerate r (File typeInfo) = false ->
  Glob (path.Join [TSImportRoot r; "**"; File typeInfo]) = Ok (match0 :: others) ->
  TSImportRootAlias r = "" ->
  Abs Getwd (TSFileName fileData) = Ok absBase ->
  importPath' r fileData typeInfo =
    wrapf (filepath.Rel (filepath.Dir absBase) (GetTSFileName match0))
          ("error looking up relative path for source file " +:+ GetTSFileName match0).
Proof.
  intros Hrun Hglob Halias Habs. unfold importPath, externalSourceFile.
  rewrite Hrun, Hglob, Halias, Habs. done.
Qed.

(** X18: with an alias, when the output name of the file found starts
    with the import root and the root occurs nowhere else in it, the
    import path is the alias followed by what follows the root, and the
    source file stored is that path without its [.ts]. *)
Theorem alias_replaces_root_in_front r fileData typeInfo match0 others rest :
  IsFileToGenerate r (File typeInfo) = false ->
  Glob (path.Join [TSImportRoot r; "**"; File typeInfo]) = Ok (match0 :: others) ->
  TSImportRootAlias r <> "" ->
  TSImportRoot r <> "" ->
  GetTSFileName match0 = TSImportRoot r +:+ rest ->
  strings.Contains rest (TSImportRoot r) = false ->
  importPath' r fileData typeInfo = Ok (TSImportRootAlias r +:+ rest) /\
  forall q, rest = q +:+ ".ts" ->
            sourceFileOf' r fileData typeInfo = Ok (TSImportRootAlias r +:+ q).
Proof.
  intros Hrun Hglob Halias Hroot Hname Hrest.
  assert (importPath' r fileData typeInfo = Ok (TSImportRootAlias r +:+ rest)) as Hpath.
  { rewrite (alias_import_path _ _ _ _ _ _ _ _ Hrun Hglob Halias), Hname.
    rewrite ReplaceAll_prefix by done. by rewrite ReplaceAll_absent. }
  split; [done|]. intros q ->. unfold sourceFileOf. rewrite Hpath. simpl.
  rewrite <- append_assoc. apply removeTsSuffix_suffix.
Qed.

(** X19: without an alias, the source file stored for a file found
    outside the run, with [.ts] put back and joined to the directory of
    the current file's absolute output name, is the cleaned output name
    of the file found. *)
Theorem external_path_round_trip r fileData typeInfo match0 others absBase sf :
  IsFileToGenerate r (File typeInfo) = false ->
  Glob (path.Join [TSImportRoot r; "**"; File typeInfo]) = Ok (match0 :: others) ->
  TSImportRootAlias r = "" ->
  Abs Getwd (TSFileName fileData) = Ok absBase ->
  strings.HasSuffix (GetTSFileName match0) ".ts" = true ->
  sourceFileOf' r fileData typeInfo = Ok sf ->
  filepath.Join [filepath.Dir absBase; sf +:+ ".ts"] = filepath.Clean (GetTSFileName match0).
Proof.
  intros Hrun Hglob Halias Habs Hsuffix Hsf. unfold sourceFileOf in Hsf.
  rewrite (external_relative_path _ _ _ _ _ _ Hrun Hglob Halias Habs) in Hsf.
  destruct (filepath.Rel (filepath.Dir absBase) (GetTSFileName match0)) as [rel| |] eqn:Hrel;
    simpl in Hsf; try done.
  rewrite (Rel_restore_ts _ _ _ _ Hrel Hsuffix Hsf), Join_Dir.
  by apply Rel_Join_ts.
Qed.

(** X20: without an alias, a file found outside the run in or below
    the directory of the current file is imported by the bare names that
    lead down to it: the path starts neither with [./] nor with [../]. *)
Theorem external_path_below_is_bare r fileData typeInfo match0 others absBase names :
  IsFileToGenerate r (File typeInfo) = false ->
  Glob (path.Join [TSImportRoot r; "**"; File typeInfo]) = Ok (match0 :: others) ->
  TSImportRootAlias r = "" ->
  Abs Getwd (TSFileName fileData) = Ok absBase ->
  names <> [] -> Forall isName names ->
  filepath.Clean (GetTSFileName match0) =
    filepath.Join [filepath.Dir absBase; filepath.joinSep names] ->
  importPath' r fileData typeInfo = Ok (filepath.joinSep names) /\
  explicitlyRelative (filepath.joinSep names) = false.
Proof.
  intros Hrun Hglob Halias Habs Hne Hnames Htarget.
  split; [|by apply joinSep_names_not_explicit].
  rewrite (external_relative_path _ _ _ _ _ _ Hrun Hglob Halias Habs).
  by rewrite (Rel_Dir_below _ _ _ Hne Hnames Htarget).
Qed.

End ExternalFacts.

(** ** The first revision, further *)

(** X21: in the first revision the path stored for a target whose
    output name ends in [.ts] leads from the output name of the current
    file, taken as a directory, to the target: joined to that name it is
    the target's cleaned output name. *)
Theorem first_revision_round_trip (GetTSFileName : string -> string) r fileData typeInfo relPath :
  strings.HasSuffix (GetTSFileName (File typeInfo)) ".ts" = true ->
  relPathOf GetTSFileName r fileData typeInfo = Ok relPath ->
  filepath.Join [TSFileName fileData; relPath] = filepath.Clean (GetTSFileName (File typeInfo)).
Proof.
  intros Hsuffix Hrel. unfold relPathOf in Hrel.
  destruct (filepath.Rel (TSFileName fileData) (GetTSFileName (File typeInfo)))
    as [rel| |] eqn:Hr; simpl in Hrel; try done.
  injection Hrel as <-.
  pose proof (Rel_Join_ts _ _ _ Hr Hsuffix) as Hjoin.
  destruct (decide (TSFileName fileData = "")) as [Hempty|Hne].
  - (* an empty base is the current directory *)
    destruct (Rel_ts_relative _ _ _ Hr Hsuffix) as [Hrne Hrabs].
    rewrite Hempty in *. change (filepath.Clean "") with "." in Hjoin.
    rewrite Clean_dot_slash in Hjoin by done.
    cbn [filepath.Join]. rewrite String.eqb_refl, eqb_neq_false by done.
    by rewrite joinSep_one.
  - rewrite Join_two by done. by rewrite <- Clean_app_Clean.
Qed.

(** ** Where the suffix is cut *)

Lemma len_append (s t : string) : strings.len (s +:+ t) = strings.len s + strings.len t.
Proof. unfold strings.len. rewrite length_append. lia. Qed.

Lemma LastIndex_split (s : string) (a : ascii) (sub' : string) :
  0 <= strings.LastIndex s (String a sub') ->
  exists pre tail,
    s = pre +:+ String a sub' +:+ tail /\
    strings.len pre = strings.LastIndex s (String a sub') /\
    strings.LastIndex (sub' +:+ tail) (String a sub') < 0.
Proof.
  induction s as [|c s IH]; intros Hpos.
  - rewrite LastIndex_nil in Hpos. simpl in Hpos. lia.
  - rewrite LastIndex_cons in Hpos |- *.
    destruct (Z.leb_spec 0 (strings.LastIndex s (String a sub'))) as [Hi|Hi].
    + destruct (IH Hi) as (pre & tail & -> & Hlen & Hlater).
      exists (String c pre), tail. rewrite (append_cons c pre), len_cons.
      split_and!; [done|lia|done].
    + destruct (strings.HasPrefix (String c s) (String a sub')) eqn:Hp; [|lia].
      apply HasPrefix_inv in Hp as [tail Htail]. rewrite append_cons in Htail.
      injection Htail as -> ->. exists "", tail. rewrite append_empty_l, append_cons.
      split_and!; try done.
Qed.

Lemma LastIndex_app_later (pre s sub : string) :
  0 <= strings.LastIndex s sub ->
  strings.LastIndex (pre +:+ s) sub = strings.len pre + strings.LastIndex s sub.
Proof.
  intros Hpos. induction pre as [|c pre IH]; [by rewrite append_empty_l|].
  rewrite append_cons, LastIndex_cons, IH, len_cons.
  pose proof (len_nonneg pre).
  destruct (Z.leb_spec 0 (strings.len pre + strings.LastIndex s sub)); lia.
Qed.

Lemma LastIndex_front (a : ascii) (sub' tail : string) :
  strings.LastIndex (sub' +:+ tail) (String a sub') < 0 ->
  strings.LastIndex (String a sub' +:+ tail) (String a sub') = 0.
Proof.
  intros Hlater. rewrite append_cons, LastIndex_cons, <- append_cons, HasPrefix_app.
  destruct (Z.leb_spec 0 (strings.LastIndex (sub' +:+ tail) (String a sub'))); lia.
Qed.

Lemma Contains_false_iff (s sub : string) :
  strings.Contains s sub = false <-> strings.LastIndex s sub < 0.
Proof.
  unfold strings.Contains. rewrite Z.leb_gt. symmetry. apply LastIndex_neg_iff.
Qed.

(** X22: the suffix is cut where [.ts] occurs last: the source file
    stored is [sf] exactly when the computed path is [sf], [.ts] and a
    tail in which no further [.ts] begins; the tail is dropped with the
    suffix. *)
Theorem suffix_cut_at_last_occurrence (sourceFile sf : string) :
  removeTsSuffix sourceFile = Ok sf <->
  exists tail,
    sourceFile = sf +:+ ".ts" +:+ tail /\
    strings.Contains ("ts" +:+ tail) ".ts" = false.
Proof.
  split.
  - intros Hsf.
    destruct (strings.Contains sourceFile ".ts") eqn:Hc.
    2:{ apply removeTsSuffix_missing in Hc as [_ Hp]. congruence. }
    apply Contains_iff in Hc.
    assert (0 <= strings.LastIndex sourceFile ".ts") as Hpos.
    { pose proof (LastIndex_neg_iff sourceFile ".ts"). lia. }
    destruct (LastIndex_split sourceFile "." "ts" Hpos) as (pre & tail & Heq & Hlen & Hlater).
    exists tail. split; [|by apply Contains_false_iff].
    unfold removeTsSuffix in Hsf. rewrite <- Hlen in Hsf.
    rewrite Heq in Hsf at 1. rewrite slice_prefix in Hsf. by injection Hsf as <-.
  - intros (tail & -> & Hlater%Contains_false_iff).
    unfold removeTsSuffix. rewrite LastIndex_app_later.
    + change ".ts" with (String "." "ts") at 2 3. rewrite LastIndex_front by done.
      rewrite Z.add_0_r. apply slice_prefix.
    + change ".ts" with (String "." "ts"). rewrite LastIndex_front by done. lia.
Qed.

(** ** Witnesses of the further properties *)

Lemma parent_prefixes_witness : ["Outer"; "Inner"] = ["Outer"; "Inner"].
Proof.
  apply (parent_prefixes_tell_paths_apart ["Outer"; "Inner"] ["Outer"; "Inner"]);
    [repeat constructor | repeat constructor | reflexivity].
Defined.

Lemma new_registry_root_witness :
  filepath.IsAbs (TSImportRoot (libRegistry "/work/gen" "@gen")) = true /\
  (filepath.IsAbs (rootParam {[ "ts_import_root" := "gen"; "ts_import_root_alias" := "@gen" ]})
     = true ->
   TSImportRoot (libRegistry "/work/gen" "@gen") =
     rootParam {[ "ts_import_root" := "gen"; "ts_import_root_alias" := "@gen" ]}) /\
  (filepath.IsAbs (rootParam {[ "ts_import_root" := "gen"; "ts_import_root_alias" := "@gen" ]})
     = false ->
   filepath.Clean (TSImportRoot (libRegistry "/work/gen" "@gen")) =
     TSImportRoot (libRegistry "/work/gen" "@gen")).
Proof.
  pose proof (new_registry_root_is_absolute sampleGetwd
                {[ "ts_import_root" := "gen"; "ts_import_root_alias" := "@gen" ]}
                {| Types := ∅; FilesToGenerate := ∅;
                   TSImportRoot := "/work/gen"; TSImportRootAlias := "@gen" |}) as H.
  apply H.
  - intros wd [= <-]. reflexivity.
  - by vm_compute.
Defined.

Lemma new_registry_defaults_witness :
  NewRegistry sampleGetwd ∅ =
    Ok {| Types := ∅; FilesToGenerate := ∅;
          TSImportRoot := filepath.Clean "/work";
          TSImportRootAlias := aliasParam ∅ |}.
Proof.
  apply (new_registry_defaults_to_working_directory sampleGetwd ∅ "/work"); done.
Defined.

Lemma requested_files_witness :
  IsFileToGenerate (sampleAnalyseRequest workRegistry sampleRequest).1 "b.proto" = true <->
  "b.proto" ∈ FileToGenerate sampleRequest.
Proof.
  apply (requested_files_are_generated protoName sampleAnalyseFile rangeFilesInOrder
           sampleTSFileName sampleModuleName noGlob sampleGetwd rangeInOrder
           workRegistry sampleRequest "b.proto").
  intros r f. reflexivity.
Defined.

Lemma analysed_files_witness :
  dom sampleAnalysed = list_to_set (protoName <$> ProtoFile sampleRequest) /\
  forall name fileData',
    sampleAnalysed !! name = Some fileData' ->
    exists fileData,
      (analyseFiles protoName sampleAnalyseFile
         (markFilesToGenerate workRegistry (FileToGenerate sampleRequest))
         (ProtoFile sampleRequest) ∅).2 !! name = Some fileData /\
      onlyAppended (name, fileData) (name, fileData').
Proof.
  apply (analysed_files_keyed_by_name protoName sampleAnalyseFile rangeFilesInOrder
           sampleTSFileName sampleModuleName noGlob sampleGetwd rangeInOrder
           workRegistry sampleRequest sampleAnalysed).
  - intros entries. reflexivity.
  - by vm_compute.
Defined.

Lemma order_independent_witness :
  (((sampleRun noGlob inRunRegistry
       [("a.proto", emptyFile "a.pb.ts" []); ("b.proto", emptyFile "b.pb.ts" [".p1.Foo"])]).2
      = Ok () <->
    (sampleRun noGlob inRunRegistry
       [("b.proto", emptyFile "b.pb.ts" [".p1.Foo"]); ("a.proto", emptyFile "a.pb.ts" [])]).2
      = Ok ()) /\
   ((sampleRun noGlob inRunRegistry
       [("a.proto", emptyFile "a.pb.ts" []); ("b.proto", emptyFile "b.pb.ts" [".p1.Foo"])]).2
      = Ok () ->
    (sampleRun noGlob inRunRegistry
       [("a.proto", emptyFile "a.pb.ts" []); ("b.proto", emptyFile "b.pb.ts" [".p1.Foo"])]).1.2
    ≡ₚ
    (sampleRun noGlob inRunRegistry
       [("b.proto", emptyFile "b.pb.ts" [".p1.Foo"]); ("a.proto", emptyFile "a.pb.ts" [])]).1.2))
  /\
  (((Rev1.collectExternalDependenciesFromData sampleTSFileName sampleModuleName rangeInOrder
       inRunRegistry
       [("a.proto", emptyFile "a.pb.ts" []); ("b.proto", emptyFile "b.pb.ts" [".p1.Foo"])]).2
      = Ok () <->
    (Rev1.collectExternalDependenciesFromData sampleTSFileName sampleModuleName rangeInOrder
       inRunRegistry
       [("b.proto", emptyFile "b.pb.ts" [".p1.Foo"]); ("a.proto", emptyFile "a.pb.ts" [])]).2
      = Ok ()) /\
   ((Rev1.collectExternalDependenciesFromData sampleTSFileName sampleModuleName rangeInOrder
       inRunRegistry
       [("a.proto", emptyFile "a.pb.ts" []); ("b.proto", emptyFile "b.pb.ts" [".p1.Foo"])]).2
      = Ok () ->
    (Rev1.collectExternalDependenciesFromData sampleTSFileName sampleModuleName rangeInOrder
       inRunRegistry
       [("a.proto", emptyFile "a.pb.ts" []); ("b.proto", emptyFile "b.pb.ts" [".p1.Foo"])]).1.2
    ≡ₚ
    (Rev1.collectExternalDependenciesFromData sampleTSFileName sampleModuleName rangeInOrder
       inRunRegistry
       [("b.proto", emptyFile "b.pb.ts" [".p1.Foo"]); ("a.proto", emptyFile "a.pb.ts" [])]).1.2)).
Proof.
  apply (success_is_order_independent sampleTSFileName sampleModuleName noGlob sampleGetwd
           rangeInOrder inRunRegistry
           [("a.proto", emptyFile "a.pb.ts" []); ("b.proto", emptyFile "b.pb.ts" [".p1.Foo"])]
           [("b.proto", emptyFile "b.pb.ts" [".p1.Foo"]); ("a.proto", emptyFile "a.pb.ts" [])]).
  apply perm_swap.
Defined.

Lemma appended_records_witness :
  (forall st,
     sampleRun noGlob inRunRegistry [("b.proto", emptyFile "b.pb.ts" [".p1.Foo"])] = (st, Ok ()) ->
     Forall2 (appendedImport sampleModuleName (sourceFileOf sampleTSFileName noGlob sampleGetwd)
                inRunRegistry)
       [("b.proto", emptyFile "b.pb.ts" [".p1.Foo"])] st.2) /\
  (forall st,
     Rev1.collectExternalDependenciesFromData sampleTSFileName sampleModuleName rangeInOrder
       inRunRegistry [("b.proto", emptyFile "b.pb.ts" [".p1.Foo"])] = (st, Ok ()) ->
     Forall2 (appendedImport sampleModuleName (relPathOf sampleTSFileName) inRunRegistry)
       [("b.proto", emptyFile "b.pb.ts" [".p1.Foo"])] st.2).
Proof.
  apply (appended_records_are_referenced sampleTSFileName sampleModuleName noGlob sampleGetwd
           rangeInOrder inRunRegistry [("b.proto", emptyFile "b.pb.ts" [".p1.Foo"])]).
  intros entries. reflexivity.
Defined.

Lemma referenced_types_witness :
  (forall st,
     sampleRun noGlob inRunRegistry [("b.proto", emptyFile "b.pb.ts" [".p1.Foo"])] = (st, Ok ()) ->
     Forall2 (appendedForAll sampleModuleName (sourceFileOf sampleTSFileName noGlob sampleGetwd)
                inRunRegistry)
       [("b.proto", emptyFile "b.pb.ts" [".p1.Foo"])] st.2) /\
  (forall st,
     Rev1.collectExternalDependenciesFromData sampleTSFileName sampleModuleName rangeInOrder
       inRunRegistry [("b.proto", emptyFile "b.pb.ts" [".p1.Foo"])] = (st, Ok ()) ->
     Forall2 (appendedForAll sampleModuleName (relPathOf sampleTSFileName) inRunRegistry)
       [("b.proto", emptyFile "b.pb.ts" [".p1.Foo"])] st.2).
Proof.
  apply (referenced_types_are_imported sampleTSFileName sampleModuleName noGlob sampleGetwd
           rangeInOrder inRunRegistry [("b.proto", emptyFile "b.pb.ts" [".p1.Foo"])]).
  - intros entries. reflexivity.
  - unfold barFree. compute_done.
Defined.

Lemma no_file_system_witness :
  sampleRun noGlob inRunRegistry [("b.proto", emptyFile "b.pb.ts" [".p1.Foo"])] =
  collectExternalDependenciesFromData sampleTSFileName sampleModuleName badPattern
    (Fail (New "getwd: no such file or directory")) rangeInOrder
    inRunRegistry [("b.proto", emptyFile "b.pb.ts" [".p1.Foo"])].
Proof.
  apply (in_run_targets_need_no_file_system sampleTSFileName sampleModuleName noGlob sampleGetwd
           rangeInOrder badPattern (Fail (New "getwd: no such file or directory"))
           inRunRegistry [("b.proto", emptyFile "b.pb.ts" [".p1.Foo"])]).
  repeat constructor. intros typeInfo Hty. vm_compute in Hty. injection Hty as <-.
  reflexivity.
Defined.

Lemma in_run_resolution_witness :
  exists sf,
    sourceFileOf sampleTSFileName noGlob sampleGetwd nestedRegistry
      (emptyFile "x/y/b.pb.ts" [".p1.Foo"]) (typeInfoIn "p1" "x/z/a.proto") = Ok sf.
Proof.
  apply (in_run_resolution_succeeds sampleTSFileName noGlob sampleGetwd nestedRegistry
           (emptyFile "x/y/b.pb.ts" [".p1.Foo"]) (typeInfoIn "p1" "x/z/a.proto")).
  - by vm_compute.
  - reflexivity.
  - change (filepath.splitSep (filepath.Dir (TSFileName (emptyFile "x/y/b.pb.ts" [".p1.Foo"]))))
      with ["x"; "y"].
    repeat (constructor; [split; [done|reflexivity]|]). constructor.
  - reflexivity.
Defined.

Lemma in_run_path_below_witness :
  (inRunSourceFileOn backslash filepath.Rel filepath.Dir "b.pb.ts" "a.pb.ts" =
     Ok (filepath.FromSlashOn backslash ("./" +:+ strings.Join ["a.pb.ts"] "/")) /\
   filepath.FromSlashOn backslash ("./" +:+ strings.Join ["a.pb.ts"] "/") =
     strings.Join ["."; "a.pb.ts"] (String backslash "")) /\
  (filepath.Rel (filepath.Dir "b.pb.ts") "a.pb.ts" = Ok (strings.Join ["a.pb.ts"] "/") /\
   importPath sampleTSFileName noGlob sampleGetwd inRunRegistry
     (emptyFile "b.pb.ts" [".p1.Foo"]) (typeInfoIn "p1" "a.proto") =
     Ok (filepath.FromSlash ("./" +:+ strings.Join ["a.pb.ts"] "/")) /\
   forall q, strings.Join ["a.pb.ts"] "/" = q +:+ ".ts" ->
             sourceFileOf sampleTSFileName noGlob sampleGetwd inRunRegistry
               (emptyFile "b.pb.ts" [".p1.Foo"]) (typeInfoIn "p1" "a.proto") =
               Ok (filepath.FromSlash ("./" +:+ q))).
Proof.
  destruct (in_run_path_below sampleTSFileName noGlob sampleGetwd
              backslash filepath.Rel filepath.Dir inRunRegistry
              (emptyFile "b.pb.ts" [".p1.Foo"]) (typeInfoIn "p1" "a.proto") ["a.pb.ts"])
    as [Hany Hslash].
  - done.
  - repeat constructor; done.
  - split; [apply Hany; by vm_compute|apply Hslash; by vm_compute].
Defined.

Lemma in_run_failure_witness :
  importPath sampleTSFileName noGlob sampleGetwd inRunRegistry
    (emptyFile "/out/b.pb.ts" [".p1.Foo"]) (typeInfoIn "p1" "a.proto") =
    Fail (Wrap (filepath.relError "/out" "a.pb.ts")
               "error getting relative path between for /out/b.pb.ts, a.pb.ts") /\
  strings.Contains
    (Error (Wrap (filepath.relError "/out" "a.pb.ts")
                 "error getting relative path between for /out/b.pb.ts, a.pb.ts"))
    "/out/b.pb.ts" = true /\
  strings.Contains
    (Error (Wrap (filepath.relError "/out" "a.pb.ts")
                 "error getting relative path between for /out/b.pb.ts, a.pb.ts"))
    "a.pb.ts" = true.
Proof.
  destruct (in_run_failure_names_both_files sampleTSFileName noGlob sampleGetwd inRunRegistry
              (emptyFile "/out/b.pb.ts" [".p1.Foo"]) (typeInfoIn "p1" "a.proto"))
    as [_ Hfail]; [by vm_compute|].
  assert (importPath sampleTSFileName noGlob sampleGetwd inRunRegistry
            (emptyFile "/out/b.pb.ts" [".p1.Foo"]) (typeInfoIn "p1" "a.proto") =
          Fail (Wrap (filepath.relError "/out" "a.pb.ts")
                     "error getting relative path between for /out/b.pb.ts, a.pb.ts"))
    as Hpath by (by vm_compute).
  split; [exact Hpath|].
  destruct (Hfail _ Hpath) as (_ & Hbase & Htarget). split; [exact Hbase|exact Htarget].
Defined.

Lemma alias_in_front_witness :
  importPath sampleTSFileName (oneMatch "/src/out/lib/f.proto") sampleGetwd
    (libRegistry "/src" "@gen") (emptyFile "b.pb.ts" [".p.T"]) (typeInfoIn "p" "lib/f.proto") =
    Ok ("@gen" +:+ "/out/lib/f.pb.ts") /\
  forall q, "/out/lib/f.pb.ts" = q +:+ ".ts" ->
            sourceFileOf sampleTSFileName (oneMatch "/src/out/lib/f.proto") sampleGetwd
              (libRegistry "/src" "@gen") (emptyFile "b.pb.ts" [".p.T"])
              (typeInfoIn "p" "lib/f.proto") = Ok ("@gen" +:+ q).
Proof.
  apply (alias_replaces_root_in_front sampleTSFileName (oneMatch "/src/out/lib/f.proto")
           sampleGetwd (libRegistry "/src" "@gen") (emptyFile "b.pb.ts" [".p.T"])
           (typeInfoIn "p" "lib/f.proto") "/src/out/lib/f.proto" [] "/out/lib/f.pb.ts");
    by vm_compute.
Defined.

Lemma external_round_trip_witness :
  filepath.Join [filepath.Dir "/work/out/b.pb.ts"; "../../src/gen/lib/f.pb" +:+ ".ts"] =
  filepath.Clean (sampleTSFileName "/src/gen/lib/f.proto").
Proof.
  apply (external_path_round_trip sampleTSFileName (oneMatch "/src/gen/lib/f.proto")
           sampleGetwd (libRegistry "/src" "") (emptyFile "out/b.pb.ts" [".p.T"])
           (typeInfoIn "p" "lib/f.proto") "/src/gen/lib/f.proto" [] "/work/out/b.pb.ts"
           "../../src/gen/lib/f.pb"); by vm_compute.
Defined.

Lemma external_below_witness :
  importPath sampleTSFileName (oneMatch "/work/out/lib/f.proto") sampleGetwd
    (libRegistry "/work" "") (emptyFile "out/b.pb.ts" [".p.T"]) (typeInfoIn "p" "lib/f.proto") =
    Ok (filepath.joinSep ["lib"; "f.pb.ts"]) /\
  explicitlyRelative (filepath.joinSep ["lib"; "f.pb.ts"]) = false.
Proof.
  apply (external_path_below_is_bare sampleTSFileName (oneMatch "/work/out/lib/f.proto")
           sampleGetwd (libRegistry "/work" "") (emptyFile "out/b.pb.ts" [".p.T"])
           (typeInfoIn "p" "lib/f.proto") "/work/out/lib/f.proto" [] "/work/out/b.pb.ts"
           ["lib"; "f.pb.ts"]).
  - by vm_compute.
  - reflexivity.
  - reflexivity.
  - by vm_compute.
  - done.
  - repeat constructor; done.
  - by vm_compute.
Defined.

Lemma first_revision_round_trip_witness :
  filepath.Join [TSFileName (emptyFile "b.pb.ts" [".p1.Foo"]); "../a.pb.ts"] =
  filepath.Clean (sampleTSFileName (File (typeInfoIn "p1" "a.proto"))).
Proof.
  apply (first_revision_round_trip sampleTSFileName inRunRegistry
           (emptyFile "b.pb.ts" [".p1.Foo"]) (typeInfoIn "p1" "a.proto") "../a.pb.ts");
    by vm_compute.
Defined.
